(** * Verification of the cmds shim and the tree-item mixin

    Shallow embedding of
      - scripts/core/libs/types.py            (asList, fi, parseArgs)
      - scripts/blender/utils/cmds.py         (attribute resolution, range
        rescaling, key copy/paste/scale, reporting, batch)
      - scripts/core/libs/pyside/abstractModel.py (AbstractBaseMixin)

    Python values are modelled by the inductive [pyval]; the numbers inside
    them are exact rationals ([Q]): they serve where the kind of a value or
    the order of numbers decides.  What scaleInRange computes is modelled on
    binary64 numbers ([Binary64]).  Exceptions are modelled by the error
    monad [result]. *)

From Stdlib Require Import String Ascii List Bool Arith ZArith QArith Qround Lia Lqa.
From Stdlib Require Import Floats.
Import ListNotations.

Set Implicit Arguments.
Set Warnings "-register-all".

(* ================================================================== *)
(** * Python values, exceptions and the error monad *)
(* ================================================================== *)

(** A data-block of the host scene: its name and the names of its custom
    properties (what [object.keys()] returns). *)
Record hostobj : Type := HostObj {
  obj_name : string;
  obj_keys : list string
}.

Inductive pyval : Type :=
| VNone
| VBool (b : bool)
| VNum (q : Q)
| VStr (s : string)
| VList (l : list pyval)
| VTuple (l : list pyval)
| VObj (o : hostobj).

Inductive exn : Type :=
| RuntimeError (template : string) (args : list pyval)
| TypeError
| ValueError
| IndexError
| AttributeError
| NameError
| KeyError
| ZeroDivisionError
| RecursionError
| UnboundLocalError.

Inductive result (A : Type) : Type :=
| OK (a : A)
| Raise (e : exn).

Arguments OK {A} a.
Arguments Raise {A} e.

Definition bind {A B : Type} (m : result A) (k : A -> result B) : result B :=
  match m with
  | OK a => k a
  | Raise e => Raise e
  end.

Notation "x <- m ;; k" := (bind m (fun x => k))
  (at level 61, m at next level, right associativity).

Fixpoint sequence {A : Type} (l : list (result A)) : result (list A) :=
  match l with
  | [] => OK []
  | m :: rest => x <- m ;; xs <- sequence rest ;; OK (x :: xs)
  end.

Definition is_runtime_error {A : Type} (r : result A) : bool :=
  match r with
  | Raise (RuntimeError _ _) => true
  | _ => false
  end.

Definition raises {A : Type} (r : result A) : bool :=
  match r with
  | Raise _ => true
  | OK _ => false
  end.

(** [bool(x)] *)
Definition truthy (v : pyval) : bool :=
  match v with
  | VNone => false
  | VBool b => b
  | VNum q => negb (Qeq_bool q 0)
  | VStr s => negb (String.eqb s "")
  | VList l | VTuple l => match l with [] => false | _ => true end
  | VObj _ => true
  end.

(** [isType(item, [str])] and [isType(item, [list, tuple])] of types.py. *)
Definition isType_str (v : pyval) : bool :=
  match v with VStr _ => true | _ => false end.

Definition isType_list_tuple (v : pyval) : bool :=
  match v with VList _ | VTuple _ => true | _ => false end.

Definition is_none (v : pyval) : bool :=
  match v with VNone => true | _ => false end.

(* ================================================================== *)
(** * core/libs/types.py *)
(* ================================================================== *)

(** [asList(items)] with [skipNoneType=False]. *)
Definition asList (items : pyval) : list pyval :=
  match items with
  | VList l | VTuple l => l
  | _ => [items]
  end.

(** [fi(items)]: the first item, [None] on an empty list. *)
Definition fi (items : pyval) : pyval :=
  match asList items with
  | [] => VNone
  | x :: _ => x
  end.

(** [parseArgs]: the positional arguments are scanned from the
    left; [None] entries are skipped.  [default] is the optional keyword
    argument of that name ([None] when the keyword is absent). *)
Fixpoint parseArgs_kw (args : list pyval) (default : pyval) : pyval :=
  match args with
  | [] => default
  | VNone :: rest => parseArgs_kw rest default
  | arg :: _ => arg
  end.

Definition parseArgs (args : list pyval) : pyval := parseArgs_kw args VNone.

(* ================================================================== *)
(** * Strings and the two regular expressions of cmds.py *)
(* ================================================================== *)

Open Scope string_scope.

Definition in_range (lo hi : nat) (c : ascii) : bool :=
  let n := nat_of_ascii c in (lo <=? n)%nat && (n <=? hi)%nat.

Definition is_alnum (c : ascii) : bool :=
  in_range 65 90 c || in_range 97 122 c || in_range 48 57 c.

Definition is_digit (c : ascii) : bool := in_range 48 57 c.

(** The characters kept by [reAttribute]: letters, digits, dash, underscore. *)
Definition is_attr_char (c : ascii) : bool :=
  is_alnum c || Ascii.eqb c "-" || Ascii.eqb c "_".

(** The first class of the list-index pattern: the same and the dot. *)
Definition is_path_char (c : ascii) : bool :=
  is_attr_char c || Ascii.eqb c ".".

Fixpoint str_filter (p : ascii -> bool) (s : string) : string :=
  match s with
  | EmptyString => EmptyString
  | String c rest => if p c then String c (str_filter p rest) else str_filter p rest
  end.

Fixpoint str_forall (p : ascii -> bool) (s : string) : bool :=
  match s with
  | EmptyString => true
  | String c rest => p c && str_forall p rest
  end.

(** [reAttribute.sub('', s)]: every character outside the class is removed. *)
Definition reAttribute_sub (s : string) : string := str_filter is_attr_char s.

(** Longest prefix in a class, and what follows it. *)
Fixpoint span (p : ascii -> bool) (s : string) : string * string :=
  match s with
  | EmptyString => (EmptyString, EmptyString)
  | String c rest =>
      if p c then let '(a, b) := span p rest in (String c a, b)
      else (EmptyString, s)
  end.

(** One attempt of the list-index pattern of resolveAttributeName at the head
    of [s]: a starred group of path characters, an opening bracket, a starred
    group of digits, a closing bracket.  Both starred classes exclude the
    character that must follow them, so the greedy match is the only
    candidate. *)
Definition listIndex_here (s : string) : option (string * string) :=
  let '(name, r1) := span is_path_char s in
  match r1 with
  | String "[" r2 =>
      let '(digits, r3) := span is_digit r2 in
      match r3 with
      | String "]" _ => Some (name, digits)
      | _ => None
      end
  | _ => None
  end.

(** First element of [re.findall(pattern, s)]: the leftmost match. *)
Fixpoint listIndex_first (s : string) : option (string * string) :=
  match listIndex_here s with
  | Some m => Some m
  | None =>
      match s with
      | EmptyString => None
      | String _ rest => listIndex_first rest
      end
  end.

(** [int(digits)] for a string of ASCII digits; [int('')] raises. *)
Fixpoint int_digits_acc (acc : nat) (s : string) : nat :=
  match s with
  | EmptyString => acc
  | String c rest => int_digits_acc (10 * acc + (nat_of_ascii c - 48)) rest
  end.

Definition py_int (digits : string) : result nat :=
  match digits with
  | EmptyString => Raise ValueError
  | _ => OK (int_digits_acc 0 digits)
  end.

(** [s.rsplit('.', 1)] when [s] contains a dot; [None] when it does not. *)
Fixpoint rsplit_dot (s : string) : option (string * string) :=
  match s with
  | EmptyString => None
  | String c rest =>
      match rsplit_dot rest with
      | Some (o, a) => Some (String c o, a)
      | None => if Ascii.eqb c "." then Some (EmptyString, rest) else None
      end
  end.

(** [s.replace(old, new)] for a non-empty [old]: occurrences are replaced
    from the left and do not overlap.  [skip] counts the characters of a
    matched occurrence still to be dropped. *)
Fixpoint str_replace_go (old new : string) (skip : nat) (s : string) : string :=
  match s with
  | EmptyString => EmptyString
  | String c rest =>
      match skip with
      | S k => str_replace_go old new k rest
      | O =>
          if String.prefix old s
          then new ++ str_replace_go old new (String.length old - 1) rest
          else String c (str_replace_go old new 0 rest)
      end
  end.

Definition str_replace (old new s : string) : string :=
  str_replace_go old new 0 s.

(** [s[-1]] and [s[:-1]]. *)
Fixpoint str_last (s : string) : option ascii :=
  match s with
  | EmptyString => None
  | String c EmptyString => Some c
  | String _ rest => str_last rest
  end.

Fixpoint str_init (s : string) : string :=
  match s with
  | EmptyString => EmptyString
  | String _ EmptyString => EmptyString
  | String c rest => String c (str_init rest)
  end.

(** [re.match('rotation[XYZW]', s)]: anchored at the start only. *)
Definition match_rotation_axis (s : string) : bool :=
  String.prefix "rotation" s &&
  match String.get 8 s with
  | Some c => Ascii.eqb c "X" || Ascii.eqb c "Y" || Ascii.eqb c "Z" || Ascii.eqb c "W"
  | None => false
  end.

(* ================================================================== *)
(** * CONSTANTS *)
(* ================================================================== *)

Module CONSTANTS.

(** Insertion order of the dictionary, as iterated by [.items()]. *)
Definition attributeConversion : list (string * list string) :=
  [ ("locationX", ["translateX"; "translationX"; "positionX"; "tx"; "lx"]);
    ("locationY", ["translateY"; "translationY"; "positionY"; "ty"; "ly"]);
    ("locationZ", ["translateZ"; "translationZ"; "positionZ"; "tz"; "lz"]);
    ("rotationX", ["rotateX"; "rx"; "rotation_eulerX"]);
    ("rotationY", ["rotateY"; "ry"; "rotation_eulerY"]);
    ("rotationZ", ["rotateZ"; "rz"; "rotation_eulerZ"]);
    ("scaleX", ["sx"]);
    ("scaleY", ["sy"]);
    ("scaleZ", ["sz"]);
    ("location", ["translation"; "position"; "t"; "l"]);
    ("rotation", ["rotate"; "r"; "rotation_euler"]);
    ("scale", ["s"]);
    ("hide", ["visibility"; "v"; "h"]);
    ("matrix_local", ["m"; "matrix"; "localMatrix"]);
    ("matrix_world", ["wm"; "worldMatrix"]);
    ("matrix_parent_inverse", ["inverseMatrix"]) ].

Definition attributeIndices : list (ascii * nat) :=
  [ ("X"%char, 0); ("Y"%char, 1); ("Z"%char, 2); ("W"%char, 3);
    ("R"%char, 0); ("G"%char, 1); ("B"%char, 2); ("A"%char, 3) ]%nat.

Definition attributeIndicesInverse : list string := ["X"; "Y"; "Z"; "W"].

(** [transformAttributes = attributeConversion.keys()] is a view of the
    dictionary: the keys added after this line belong to it as well. *)
Definition transformAttributes : list string := map fst attributeConversion.

Definition constraints : list (string * string) :=
  [ ("parent", "COPY_TRANSFORMS"); ("point", "COPY_LOCATION");
    ("orient", "COPY_ROTATION"); ("scale", "COPY_SCALE");
    ("location", "COPY_LOCATION"); ("rotation", "COPY_ROTATION");
    ("translation", "COPY_LOCATION") ].

End CONSTANTS.

Fixpoint str_mem (s : string) (l : list string) : bool :=
  match l with
  | [] => false
  | x :: rest => String.eqb s x || str_mem s rest
  end.

(** The loop [for key, values in attributeConversion.items()] of
    resolveAttributeName. *)
Fixpoint convert_alias (table : list (string * list string)) (attribute : string) : string :=
  match table with
  | [] => attribute
  | (key, values) :: rest =>
      if str_mem attribute values then key else convert_alias rest attribute
  end.

(** [indices.get(char)] *)
Fixpoint indices_get (table : list (ascii * nat)) (c : ascii) : option nat :=
  match table with
  | [] => None
  | (k, i) :: rest => if Ascii.eqb c k then Some i else indices_get rest c
  end.

(* ================================================================== *)
(** * cmds.py: object and attribute resolution *)
(* ================================================================== *)

Section Host.

(** The host's data-block lookup: what the loop over [bpy.data.objects],
    [bpy.data.meshes], ... of asObject finds for a name. *)
Variable bpy_data_get : string -> option hostobj.

(** [asObject(obj)] with [dataType=None], [forceObjects=False]. *)
Definition asObject (obj : pyval) : pyval :=
  let obj := if isType_list_tuple obj then fi obj else obj in
  if negb (truthy obj) then VNone
  else match obj with
       | VStr s =>
           match bpy_data_get s with
           | Some item => VObj item
           | None => VNone
           end
       | _ => obj
       end.

(** [object.keys()]: only host data-blocks have custom properties. *)
Definition py_keys (object : pyval) : result (list string) :=
  match object with
  | VObj o => OK (obj_keys o)
  | _ => Raise AttributeError
  end.

(** resolveAttributeName from the test [if object and attribute in
    object.keys()] to the end: [attribute] is no list or tuple here. *)
Definition resolve_single (attribute object : pyval) : result pyval :=
  hit <- (if truthy object
          then keys <- py_keys object ;;
               OK (match attribute with
                   | VStr s => str_mem s keys
                   | _ => false
                   end)
          else OK false) ;;
  if (hit : bool) then OK attribute
  else match attribute with
       | VStr s =>
           a <- match listIndex_first s with
                | Some (name, index) =>
                    i <- py_int index ;;
                    match nth_error CONSTANTS.attributeIndicesInverse i with
                    | Some axis => OK (name ++ axis)
                    | None => Raise IndexError
                    end
                | None => OK (reAttribute_sub s)
                end ;;
           OK (VStr (convert_alias CONSTANTS.attributeConversion a))
       | _ => Raise TypeError
       end.

(** [resolveAttributeName(attribute, object)].  The second call of asObject
    (guarded by [isType(object, [str])]) never runs: asObject returns no
    string. *)
Fixpoint resolveAttributeName (attribute object : pyval) {struct attribute}
  : result pyval :=
  if negb (truthy attribute) then OK VNone
  else match attribute with
       | VStr s =>
           let '(object, attribute) :=
             match object, rsplit_dot s with
             | VNone, Some (o, a) => (VStr o, VStr a)
             | _, _ => (object, attribute)
             end in
           resolve_single attribute (asObject object)
       | VList l | VTuple l =>
           let object := asObject object in
           if is_none object
           then match l with
                | [o; a] =>
                    (* object, attribute = attribute *)
                    match a with
                    | VList l' | VTuple l' =>
                        rs <- sequence (map (fun x => resolveAttributeName x o) l') ;;
                        OK (VList rs)
                    | _ => resolve_single a o
                    end
                | _ =>
                    Raise (RuntimeError
                      "must be string or tuple of (object, attribute) or (object, [attributes])" [])
                end
           else rs <- sequence (map (fun x => resolveAttributeName x object) l) ;;
                OK (VList rs)
       | _ => resolve_single attribute (asObject object)
       end.

(** [getAttributeIndex(attribute)] *)
Definition getAttributeIndex (attribute : pyval) : result (string * option nat) :=
  if negb (isType_str attribute)
  then Raise (RuntimeError "{0} is not a string" [attribute])
  else
    resolved <- resolveAttributeName attribute VNone ;;
    match resolved with
    | VStr a =>
        let a := if match_rotation_axis a
                 then str_replace "rotation" "rotation_euler" a
                 else a in
        match str_last a with
        | None => Raise IndexError
        | Some char =>
            let index := indices_get CONSTANTS.attributeIndices char in
            match index with
            | Some _ => OK (str_init a, index)
            | None => OK (a, index)
            end
        end
    | _ => Raise TypeError
    end.

(** [re.match('[0-9].*', a)] *)
Definition starts_with_digit (a : string) : bool :=
  match a with
  | String c _ => is_digit c
  | EmptyString => false
  end.

(** [parseObjectAttribute(object, attribute)].  Dictionaries are outside
    [pyval], so the dictionary branch is not reached. *)
Fixpoint parseObjectAttribute (object attribute : pyval) {struct object}
  : result (pyval * pyval) :=
  if negb (truthy object || truthy attribute)
  then Raise (RuntimeError "Could not parseObjectAttribute({0}, {1})" [object; attribute])
  else if truthy attribute
  then let node := asObject object in
       a <- resolveAttributeName attribute node ;;
       OK (node, a)
  else match object with
       | VStr s =>
           match rsplit_dot s with
           | None => OK (VNone, VNone)
           | Some (o, a) =>
               let '(object, attribute) :=
                 if starts_with_digit a then (object, attribute)
                 else (VStr o, VStr a) in
               let node := asObject object in
               a' <- resolveAttributeName attribute node ;;
               OK (node, a')
           end
       | VList l | VTuple l =>
           match l with
           | [o; a] => parseObjectAttribute o a
           | _ =>
               Raise (RuntimeError "invalid object for parseObjectAttribute({0}, {1})"
                        [VList l; attribute])
           end
       | _ =>
           Raise (RuntimeError "Could not parseObjectAttribute({0}, {1})" [object; attribute])
       end.

(** The keyword arguments of getAttr after [object]. *)
Record getAttr_args : Type := GetAttrArgs {
  ga_attribute : pyval; ga_at : pyval;
  ga_keyable : pyval; ga_k : pyval;
  ga_lock : pyval; ga_l : pyval;
  ga_settable : pyval; ga_s : pyval;
  ga_time : pyval; ga_t : pyval;
  ga_type : pyval;
  ga_evaluate : pyval; ga_e : pyval;
  ga_worldspace : pyval; ga_ws : pyval
}.

(** The keyword arguments of setAttr after [object]. *)
Record setAttr_args : Type := SetAttrArgs {
  sa_attribute : pyval;
  sa_value : pyval; sa_v : pyval;
  sa_at : pyval;
  sa_lock : pyval; sa_l : pyval
}.

(** What getAttr and setAttr do after their guard on multiple attributes
    reads and writes host properties ([getattr(object, ...)], matrices,
    drivers, [Ptr.set]); it is taken as given. *)
Variable getAttr_query : pyval -> pyval -> getAttr_args -> result pyval.
Variable setAttr_store : pyval -> pyval -> pyval -> pyval -> result pyval.

(** getAttr up to the resolution of the attribute name. *)
Definition getAttr_resolve (object : pyval) (args : getAttr_args) : result (pyval * pyval) :=
  let attribute := parseArgs [ga_attribute args; ga_at args; VBool false] in
  let '(object, attribute) :=
    match object with
    | VStr s =>
        match rsplit_dot s with
        | Some (o, a) => (VStr o, VStr a)
        | None => (object, attribute)
        end
    | _ => (object, attribute)
    end in
  let object := asObject object in
  attribute <- (if is_none attribute
                then resolveAttributeName object VNone
                else resolveAttributeName attribute object) ;;
  OK (object, attribute).

Definition getAttr (object : pyval) (args : getAttr_args) : result pyval :=
  r <- getAttr_resolve object args ;;
  let '(object, attribute) := r in
  if isType_list_tuple attribute
  then Raise (RuntimeError "getAttr does not support multiple attributes" [])
  else getAttr_query object attribute args.

(** setAttr up to the resolution of the attribute name; the third
    component is [value]. *)
Definition setAttr_resolve (object : pyval) (args : setAttr_args)
  : result (pyval * pyval * pyval) :=
  let attribute := parseArgs [sa_attribute args; sa_at args; VBool false] in
  let value := parseArgs [sa_value args; sa_v args; VNone] in
  let '(object, attribute, value) :=
    match object with
    | VStr s =>
        match rsplit_dot s with
        | Some (o, a) =>
            (VStr o, VStr a, if is_none value then attribute else value)
        | None => (object, attribute, value)
        end
    | _ => (object, attribute, value)
    end in
  let object := asObject object in
  attribute <- (if is_none attribute
                then resolveAttributeName object VNone
                else resolveAttributeName attribute object) ;;
  OK (object, attribute, value).

Definition setAttr (object : pyval) (args : setAttr_args) : result pyval :=
  r <- setAttr_resolve object args ;;
  let '(object, attribute, value) := r in
  if isType_list_tuple attribute
  then Raise (RuntimeError "getAttr does not support multiple attributes" [])
  else setAttr_store object attribute value (parseArgs [sa_lock args; sa_l args; VNone]).

End Host.

(* ================================================================== *)
(** * cmds.py: arithmetic on Python values and scaleInRange *)
(* ================================================================== *)

(** The number behind a value: [bool] is a subclass of [int]. *)
Definition as_num (v : pyval) : result Q :=
  match v with
  | VNum q => OK q
  | VBool b => OK (if b then 1 else 0)
  | _ => Raise TypeError
  end.

(** [a == b]: never raises; numbers compare by value. *)
Fixpoint py_eqb (a b : pyval) {struct a} : bool :=
  match a, b with
  | VNone, VNone => true
  | VStr s, VStr t => String.eqb s t
  | VNum x, VNum y => Qeq_bool x y
  | VNum x, VBool c => Qeq_bool x (if c then 1 else 0)
  | VBool c, VNum y => Qeq_bool (if c then 1 else 0) y
  | VBool c, VBool d => Bool.eqb c d
  | VList l, VList m | VTuple l, VTuple m =>
      (fix all2 (l m : list pyval) {struct l} : bool :=
         match l, m with
         | [], [] => true
         | x :: l', y :: m' => py_eqb x y && all2 l' m'
         | _, _ => false
         end) l m
  | VObj o, VObj p => String.eqb (obj_name o) (obj_name p)
  | _, _ => false
  end.

Definition py_sub (a b : pyval) : result pyval :=
  x <- as_num a ;; y <- as_num b ;; OK (VNum (x - y)).

Definition py_mul (a b : pyval) : result pyval :=
  x <- as_num a ;; y <- as_num b ;; OK (VNum (x * y)).

Definition py_div (a b : pyval) : result pyval :=
  x <- as_num a ;; y <- as_num b ;;
  if Qeq_bool y 0 then Raise ZeroDivisionError else OK (VNum (x / y)).

(** [a + b]: numbers add, sequences of one kind concatenate, anything else
    (a tuple and a number, say) is a TypeError. *)
Definition py_add (a b : pyval) : result pyval :=
  match a, b with
  | VTuple l, VTuple m => OK (VTuple (l ++ m))
  | VList l, VList m => OK (VList (l ++ m))
  | VStr s, VStr t => OK (VStr (s ++ t))
  | _, _ => x <- as_num a ;; y <- as_num b ;; OK (VNum (x + y))
  end.

(** [len(x)] and [x[i]] for the lists and tuples used as ranges; a number
    has neither.  String ranges are not modelled. *)
Definition py_items (x : pyval) : result (list pyval) :=
  match x with
  | VList l | VTuple l => OK l
  | _ => Raise TypeError
  end.

Definition py_len (x : pyval) : result nat :=
  l <- py_items x ;; OK (List.length l).

Definition py_index (x : pyval) (i : nat) : result pyval :=
  l <- py_items x ;;
  match nth_error l i with
  | Some v => OK v
  | None => Raise IndexError
  end.

(** [min(xs)] and [max(xs)]: the first smallest (largest) element; an empty
    sequence is a ValueError. *)
Fixpoint py_min_from (best : pyval) (l : list pyval) : result pyval :=
  match l with
  | [] => OK best
  | x :: rest =>
      b <- as_num best ;; v <- as_num x ;;
      py_min_from (if Qle_bool b v then best else x) rest
  end.

Fixpoint py_max_from (best : pyval) (l : list pyval) : result pyval :=
  match l with
  | [] => OK best
  | x :: rest =>
      b <- as_num best ;; v <- as_num x ;;
      py_max_from (if Qle_bool v b then best else x) rest
  end.

Definition py_min (x : pyval) : result pyval :=
  l <- py_items x ;;
  match l with
  | [] => Raise ValueError
  | first :: rest => py_min_from first rest
  end.

Definition py_max (x : pyval) : result pyval :=
  l <- py_items x ;;
  match l with
  | [] => Raise ValueError
  | first :: rest => py_max_from first rest
  end.

(** The pair [(r[0] if len(r) == 2 else min(r), r[1] if len(r) == 2 else
    max(r))], evaluated left to right. *)
Definition range_ends (r : pyval) : result (pyval * pyval) :=
  n0 <- py_len r ;;
  lo <- (if Nat.eqb n0 2 then py_index r 0 else py_min r) ;;
  n1 <- py_len r ;;
  hi <- (if Nat.eqb n1 2 then py_index r 1 else py_max r) ;;
  OK (lo, hi).

(** [scaleInRange(value, originalRange, targetRange)] on Python values of
    any kind: this is the function as scaleKey calls it, where the kinds of
    the arguments decide what happens.  The numbers are exact here; the
    rounded arithmetic of the function is that of [Binary64.scaleInRange]
    below. *)
Definition scaleInRange (value originalRange targetRange : pyval) : result pyval :=
  oR <- range_ends originalRange ;;
  tR <- range_ends targetRange ;;
  (* Avoid zero division errors *)
  if py_eqb (fst oR) (snd oR) then OK (fst oR)
  else if py_eqb (fst tR) (snd tR) then OK (fst tR)
  else
    num <- py_sub value (fst oR) ;;
    den <- py_sub (snd oR) (fst oR) ;;
    p <- py_div num den ;;
    width <- py_sub (snd tR) (fst tR) ;;
    scaled <- py_mul p width ;;
    py_add scaled (fst tR).

Definition pair_range (a b : Q) : pyval := VTuple [VNum a; VNum b].

(* ================================================================== *)
(** * cmds.py: scaleInRange on binary64 numbers *)
(* ================================================================== *)

(** scaleInRange as the interpreter runs it on floats (the coordinates of
    keys are floats): a value and two ranges of binary64 numbers.  Every
    operation rounds its result; [==] and [<] are those of IEEE 754 (a NaN
    differs from itself and is not less than anything); a division by zero
    raises ZeroDivisionError. *)
Module Binary64.

Local Open Scope float_scope.

(** [min(xs)] and [max(xs)]: the first element is kept until a later one
    is less (greater); an empty sequence is a ValueError. *)
Definition py_min (l : list float) : result float :=
  match l with
  | [] => Raise ValueError
  | first :: rest => OK (fold_left (fun best x => if x <? best then x else best) rest first)
  end.

Definition py_max (l : list float) : result float :=
  match l with
  | [] => Raise ValueError
  | first :: rest => OK (fold_left (fun best x => if best <? x then x else best) rest first)
  end.

(** The pair [(r[0] if len(r) == 2 else min(r), r[1] if len(r) == 2 else
    max(r))]. *)
Definition range_ends (r : list float) : result (float * float) :=
  match r with
  | [a; b] => OK (a, b)
  | _ => lo <- py_min r ;; hi <- py_max r ;; OK (lo, hi)
  end.

(** [a / b] *)
Definition py_div (a b : float) : result float :=
  if b =? 0 then Raise ZeroDivisionError else OK (a / b).

(** [scaleInRange(value, originalRange, targetRange)] *)
Definition scaleInRange (value : float) (originalRange targetRange : list float)
  : result float :=
  oR <- range_ends originalRange ;;
  tR <- range_ends targetRange ;;
  (* Avoid zero division errors *)
  if fst oR =? snd oR then OK (fst oR)
  else if fst tR =? snd tR then OK (fst tR)
  else
    p <- py_div (value - fst oR) (snd oR - fst oR) ;;
    OK (p * (snd tR - fst tR) + fst tR).

End Binary64.

(* ================================================================== *)
(** * Animation curves of the host *)
(* ================================================================== *)

Open Scope list_scope.

(** A key of an F-curve: [co], [handle_left] and [handle_right] are
    two-component vectors (time, value). *)
Record keyframe : Type := Keyframe {
  co : Q * Q;
  handle_left : Q * Q;
  handle_right : Q * Q;
  handle_left_type : string;
  handle_right_type : string;
  interpolation : string
}.

Record fcurve : Type := FCurve {
  fc_id : nat;
  keyframe_points : list keyframe
}.

Inductive axis : Type := AxisX | AxisY.

(** [getattr(vector, axis)] and [setattr(vector, axis, value)] *)
Definition vec_get (a : axis) (v : Q * Q) : Q :=
  match a with AxisX => fst v | AxisY => snd v end.

Definition vec_set (a : axis) (x : Q) (v : Q * Q) : Q * Q :=
  match a with AxisX => (x, snd v) | AxisY => (fst v, x) end.

Definition py_vec (v : Q * Q) : pyval := VTuple [VNum (fst v); VNum (snd v)].

(** A state and error monad: the state survives an exception, as the
    mutations of host objects do. *)
Definition M (S A : Type) : Type := S -> S * result A.

Definition ret {S A : Type} (a : A) : M S A := fun s => (s, OK a).

Definition throw {S A : Type} (e : exn) : M S A := fun s => (s, Raise e).

Definition lift {S A : Type} (r : result A) : M S A := fun s => (s, r).

Definition mbind {S A B : Type} (m : M S A) (k : A -> M S B) : M S B :=
  fun s =>
    match m s with
    | (s', OK a) => k a s'
    | (s', Raise e) => (s', Raise e)
    end.

Notation "x <~ m ;; k" := (mbind m (fun x => k))
  (at level 61, m at next level, right associativity).

Definition get_state {S : Type} : M S S := fun s => (s, OK s).

Definition put_state {S : Type} (s : S) : M S unit := fun _ => (s, OK tt).

(* ================================================================== *)
(** * cmds.py: scaleKey *)
(* ================================================================== *)

(** [parsePivot(start, end, pivot, scale)] *)
Definition parsePivot (start stop pivot scale : pyval) : result (pyval * pyval) :=
  a <- py_sub start pivot ;;
  newStart <- py_mul a scale ;;
  b <- py_sub stop pivot ;;
  newEnd <- py_mul b scale ;;
  OK (newStart, newEnd).

(** [scaleIt(key, start, end, axis)]: the three calls pass [keyRange] as the
    value, [(start, end)] as the original range and the coordinate as the
    target range, as the source does. *)
Definition scaleIt (keyRange : pyval) (key : keyframe) (start stop : pyval) (a : axis)
  : M keyframe unit :=
  c <~ lift (scaleInRange keyRange (VTuple [start; stop]) (VNum (vec_get a (co key)))) ;;
  x <~ lift (as_num c) ;;
  k1 <~ get_state ;;
  _ <~ put_state (Keyframe (vec_set a x (co k1)) (handle_left k1) (handle_right k1)
                    (handle_left_type k1) (handle_right_type k1) (interpolation k1)) ;;
  l <~ lift (scaleInRange keyRange (VTuple [start; stop]) (VNum (vec_get a (handle_left key)))) ;;
  y <~ lift (as_num l) ;;
  k2 <~ get_state ;;
  _ <~ put_state (Keyframe (co k2) (vec_set a y (handle_left k2)) (handle_right k2)
                    (handle_left_type k2) (handle_right_type k2) (interpolation k2)) ;;
  r <~ lift (scaleInRange keyRange (VTuple [start; stop]) (VNum (vec_get a (handle_right key)))) ;;
  z <~ lift (as_num r) ;;
  k3 <~ get_state ;;
  put_state (Keyframe (co k3) (handle_left k3) (vec_set a z (handle_right k3))
               (handle_left_type k3) (handle_right_type k3) (interpolation k3)).

(** [timeValues[_co[0]] = _co[1]]: a later key at the same time replaces the
    value. *)
Fixpoint dict_set (k v : Q) (d : list (Q * Q)) : list (Q * Q) :=
  match d with
  | [] => [(k, v)]
  | (k', v') :: rest =>
      if Qeq_bool k k' then (k', v) :: rest else (k', v') :: dict_set k v rest
  end.

Definition timeValues_of (keys : list keyframe) : list (Q * Q) :=
  fold_left (fun d key => dict_set (fst (co key)) (snd (co key)) d) keys [].

(** The keyword arguments of scaleKey after parseArgs; [sk_time] is the
    result of parseDouble, when a time range was given. *)
Record scaleKey_args : Type := ScaleKeyArgs {
  sk_time : option (Q * Q);
  sk_timeScale : pyval;
  sk_valueScale : pyval;
  sk_timePivot : pyval;
  sk_valuePivot : pyval;
  sk_newStartTime : pyval;
  sk_newEndTime : pyval;
  sk_newStartValue : pyval;
  sk_newEndValue : pyval
}.

Definition in_open_range (time : Q * Q) (k : keyframe) : bool :=
  negb (Qle_bool (fst (co k)) (fst time)) && negb (Qle_bool (snd time) (fst (co k))).

(** The keys of one curve on which scaleKey works: [k['co']] is read as the
    key's [co]. *)
Definition scaleKey_keys (args : scaleKey_args) (curve : fcurve) : list keyframe :=
  match sk_time args with
  | Some time => filter (in_open_range time) (keyframe_points curve)
  | None => keyframe_points curve
  end.

Definition fill_range (lo hi dlo dhi : pyval) : pyval * pyval :=
  if negb (is_none lo) || negb (is_none hi)
  then (if is_none lo then dlo else lo, if is_none hi then dhi else hi)
  else (lo, hi).

(** The scaling of the keys, one after the other; the state is the list of
    keys already visited (in reverse) followed by the current key. *)
Fixpoint scaleKey_loop (keyRange nst net nsv nev : pyval) (keys : list keyframe)
  : M (list keyframe) unit :=
  match keys with
  | [] => ret tt
  | key :: rest =>
      fun done =>
        let '(k1, r1) :=
          if negb (is_none nst) then scaleIt keyRange key nst net AxisX key
          else (key, OK tt) in
        match r1 with
        | Raise e => (done ++ k1 :: rest, Raise e)
        | OK _ =>
            let '(k2, r2) :=
              if negb (is_none nsv) then scaleIt keyRange k1 nsv nev AxisY k1
              else (k1, OK tt) in
            match r2 with
            | Raise e => (done ++ k2 :: rest, Raise e)
            | OK _ => scaleKey_loop keyRange nst net nsv nev rest (done ++ [k2])
            end
        end
  end.

(** The body of [for curve in curves] of scaleKey: the keys after the
    scaling and how the body ended. *)
Definition scaleKey_curve (args : scaleKey_args) (curve : fcurve)
  : list keyframe * result unit :=
  let keys := scaleKey_keys args curve in
  let timeValues := timeValues_of keys in
  let times := VList (map (fun kv => VNum (fst kv)) timeValues) in
  let values := VList (map (fun kv => VNum (snd kv)) timeValues) in
  match
    (kmin <- py_min times ;; kmax <- py_max times ;;
     vmin <- py_min values ;; vmax <- py_max values ;;
     t <- (if is_none (sk_timeScale args)
           then OK (sk_newStartTime args, sk_newEndTime args)
           else parsePivot kmin kmax (sk_timePivot args) (sk_timeScale args)) ;;
     v <- (if is_none (sk_valueScale args)
           then OK (sk_newStartValue args, sk_newEndValue args)
           else parsePivot vmin vmax (sk_valuePivot args) (sk_valueScale args)) ;;
     OK (VTuple [kmin; kmax],
         fill_range (fst t) (snd t) kmin kmax,
         fill_range (fst v) (snd v) vmin vmax))
  with
  | Raise e => (keys, Raise e)
  | OK (keyRange, (nst, net), (nsv, nev)) =>
      scaleKey_loop keyRange nst net nsv nev keys []
  end.

(** What the claimed rescaling of one coordinate would be: the coordinate as
    the value, the key range as the original range, [(start, end)] as the
    target range. *)
Definition scaleIt_claimed (keyRange : pyval) (coordinate : Q) (start stop : pyval)
  : result pyval :=
  scaleInRange (VNum coordinate) keyRange (VTuple [start; stop]).

(* ================================================================== *)
(** * cmds.py: copyKey, cutKey, pasteKey and the global key buffer *)
(* ================================================================== *)

(** One entry of the list getKeyInfo builds: the key, the curve it is
    filed under, the three type strings, and [co], [handle_left],
    [handle_right] converted with [tuple(...)]. *)
Record key_item : Type := KeyItem {
  ki_key : keyframe;
  ki_curve : nat;
  ki_handle_left_type : string;
  ki_handle_right_type : string;
  ki_interpolation : string;
  ki_co : pyval;
  ki_handle_left : pyval;
  ki_handle_right : pyval
}.

(** The value of the global [COPY_KEY_BUFFER]: the empty list it is
    initialised with, or the dictionary copyKey stores, with its
    ['curves'] and ['data'] entries in insertion order. *)
Inductive copy_buffer : Type :=
| BufferList
| BufferDict (curves : list (nat * list key_item))
             (data : list (string * list (string * list key_item))).

(** [d[k] = v] on an insertion-ordered dictionary. *)
Fixpoint od_set {K V : Type} (eqb : K -> K -> bool) (k : K) (v : V) (d : list (K * V))
  : list (K * V) :=
  match d with
  | [] => [(k, v)]
  | (k', v') :: rest =>
      if eqb k k' then (k', v) :: rest else (k', v') :: od_set eqb k v rest
  end.

Definition key_item_of (curve : fcurve) (key : keyframe) : key_item :=
  KeyItem key (fc_id curve)
          (handle_left_type key) (handle_right_type key) (interpolation key)
          (py_vec (co key)) (py_vec (handle_left key)) (py_vec (handle_right key)).

(** [keyframe(curves, time=None, keys=True, query=True)]: an empty
    dictionary for no curves, otherwise every key of every curve. *)
Definition keyframe_query_keys (curves : list fcurve) : list keyframe :=
  match curves with
  | [] => []
  | _ => flat_map keyframe_points curves
  end.

(** [getKeyInfo(curve)] inside copyKey: the query runs on the enclosing
    [curves], not on [curve]; [time] and [cut] keep their defaults, so no
    entry is filtered and no key is removed. *)
Definition getKeyInfo (curves : list fcurve) (curve : fcurve) : list key_item :=
  map (key_item_of curve) (keyframe_query_keys curves).

Section CopyPaste.

(** [getFCurve(object, attribute)] on the host scene. *)
Variable getFCurve : string -> string -> option fcurve.

(** [curve.keyframe_points.insert(time, value)]: the points after the
    insertion and the position of the key it returns. *)
Variable keyframe_points_insert : list keyframe -> Q -> Q -> list keyframe * nat.

(** The two removal loops of applyData run on the host collection while
    iterating over it. *)
Variable remove_keys_where : (keyframe -> bool) -> list keyframe -> list keyframe.

Fixpoint copyKey_attributes (curves : list fcurve) (object : string)
         (attributes : list string)
         (data : list (string * list (string * list key_item)))
  : list (string * list (string * list key_item)) :=
  match attributes with
  | [] => data
  | attribute :: rest =>
      match getFCurve object attribute with
      | None => copyKey_attributes curves object rest data
      | Some curve =>
          (* [object not in results.keys()] holds: the keys of results
             are 'curves' and 'data' *)
          let data := od_set String.eqb object [] data in
          let data := od_set String.eqb object [(attribute, getKeyInfo curves curve)] data in
          copyKey_attributes curves object rest data
      end
  end.

(** [copyKey(objects, ...)]: [curves] are the F-curves found in
    [objects], [parsed] is the dictionary parseObjectAttributes returns
    for [objects]. The result is stored in [COPY_KEY_BUFFER] and
    returned. *)
Definition copyKey (curves : list fcurve) (parsed : list (string * list string))
  : copy_buffer :=
  let results_curves :=
    fold_left (fun d curve => od_set Nat.eqb (fc_id curve) (getKeyInfo curves curve) d)
              curves [] in
  let results_data :=
    fold_left (fun d oa => copyKey_attributes curves (fst oa) (snd oa) d) parsed [] in
  BufferDict results_curves results_data.

(** [cutKey(object, attribute, time=...)]: copyKey with [cut=True]. *)
Definition cutKey (curves : list fcurve) (parsed : list (string * list string))
  : copy_buffer :=
  copyKey curves parsed.

Definition py_pair (v : pyval) : result (Q * Q) :=
  a <- py_index v 0 ;; x <- as_num a ;;
  b <- py_index v 1 ;; y <- as_num b ;;
  OK (x, y).

Definition set_nth {A : Type} (i : nat) (f : A -> A) (l : list A) : list A :=
  firstn i l ++ match skipn i l with [] => [] | x :: rest => f x :: rest end.

Definition is_scale_option (opt : string) : bool :=
  str_mem opt ["scaleInsert"; "scaleReplace"; "scaleReplaceCompletely"]%string.

(** The loop [for item in keyInfo] of applyData on the points of one
    curve. *)
Fixpoint applyData_items (keyRange time : pyval) (opt : string)
         (keyInfo : list key_item) : M (list keyframe) unit :=
  match keyInfo with
  | [] => ret tt
  | item :: rest =>
      let offset := VNum 0 in
      let item_co := ki_co item in
      co0 <~ lift (py_index item_co 0) ;;
      c <~ lift (as_num co0) ;;
      lo <~ lift (a <- py_index time 0 ;; as_num a) ;;
      inside <~ lift (if Qle_bool lo c
                      then hi <- (a <- py_index time 1 ;; as_num a) ;; OK (Qle_bool c hi)
                      else OK false) ;;
      if negb inside then applyData_items keyRange time opt rest
      else
        offset <~ lift (if is_scale_option opt && negb (py_eqb keyRange time)
                        then newValue <- scaleInRange co0 keyRange time ;;
                             py_sub co0 newValue
                        else OK offset) ;;
        t <~ lift (a <- py_add co0 offset ;; as_num a) ;;
        v <~ lift (a <- py_index item_co 1 ;; as_num a) ;;
        points <~ get_state ;;
        let '(points, pos) := keyframe_points_insert points t v in
        _ <~ put_state points ;;
        hl <~ lift (a <- py_add (ki_handle_left item) offset ;; py_pair a) ;;
        points <~ get_state ;;
        _ <~ put_state (set_nth pos (fun k =>
               Keyframe (co k) hl (handle_right k) (handle_left_type k)
                        (handle_right_type k) (interpolation k)) points) ;;
        hr <~ lift (a <- py_add (ki_handle_right item) offset ;; py_pair a) ;;
        points <~ get_state ;;
        _ <~ put_state (set_nth pos (fun k =>
               Keyframe (co k) (handle_left k) hr (handle_left_type k)
                        (handle_right_type k) (interpolation k)) points) ;;
        points <~ get_state ;;
        _ <~ put_state (set_nth pos (fun k =>
               Keyframe (co k) (handle_left k) (handle_right k)
                        (ki_handle_left_type item) (ki_handle_right_type item)
                        (ki_interpolation item)) points) ;;
        applyData_items keyRange time opt rest
  end.

(** [applyData(curve, keyInfo, time=None, option=opt)] *)
Definition applyData (keyInfo : list key_item) (opt : string) : M (list keyframe) unit :=
  times <~ lift (sequence (map (fun k => py_index (ki_co k) 0) keyInfo)) ;;
  lo <~ lift (py_min (VList times)) ;;
  hi <~ lift (py_max (VList times)) ;;
  let keyRange := VTuple [lo; hi] in
  let time := keyRange in
  points <~ get_state ;;
  _ <~ put_state
         (if str_mem opt ["replaceCompletely"; "scaleReplaceCompletely"]%string
          then remove_keys_where (fun _ => true) points else points) ;;
  points <~ get_state ;;
  points <~ (if str_mem opt ["replace"; "scaleReplace"]%string
             then a <~ lift (as_num lo) ;;
                  b <~ lift (as_num hi) ;;
                  ret (remove_keys_where
                         (fun k : keyframe =>
                            Qle_bool a (fst (co k)) && Qle_bool (fst (co k)) b) points)
             else ret points) ;;
  _ <~ put_state points ;;
  applyData_items keyRange time opt keyInfo.

(** applyData on [curves[i]]. *)
Definition applyData_at (i : nat) (keyInfo : list key_item) (opt : string)
  : M (list fcurve) unit :=
  fun curves =>
    match nth_error curves i with
    | None => (curves, Raise IndexError)
    | Some curve =>
        let '(points, r) := applyData keyInfo opt (keyframe_points curve) in
        (set_nth i (fun c => FCurve (fc_id c) points) curves, r)
    end.

(** One of the two paste loops of the F-curve branch: [Some i] is the
    counter after the loop, [None] says the function returned inside
    it. *)
Fixpoint paste_entries (opt : string) (entries : list (list key_item)) (i : nat)
  : M (list fcurve) (option nat) :=
  match entries with
  | [] => ret (Some i)
  | keyInfo :: rest =>
      curves <~ get_state ;;
      if (List.length curves <=? i)%nat then ret None
      else _ <~ applyData_at i keyInfo opt ;;
           paste_entries opt rest (S i)
  end.

(** [pasteKey(objects, option=opt)] against a buffer; the state is the
    list of F-curves found in [objects], [parsed] is the dictionary
    parseObjectAttributes returns for [objects]. *)
Definition pasteKey (parsed : list (string * list string)) (buffer : copy_buffer)
           (opt : string) : M (list fcurve) unit :=
  match buffer with
  | BufferList => throw AttributeError      (* [].get *)
  | BufferDict curveInfo objectInfo =>
      curves <~ get_state ;;
      match curves with
      | _ :: _ =>
          i <~ paste_entries opt (map snd curveInfo) 0 ;;
          match i with
          | None => ret tt
          | Some i =>
              _ <~ paste_entries opt
                     (flat_map (fun oa => map snd (snd oa)) objectInfo) i ;;
              ret tt
          end
      | [] =>
          match parsed with
          | [] => ret tt
          | _ :: _ =>
              (* [for object, attributes in data] iterates over the keys of
                 the dictionary: a host object is not unpacked into two
                 names *)
              throw TypeError
          end
      end
  end.

End CopyPaste.

(* ================================================================== *)
(** * cmds.py: bakeSimulation and the key buffer *)
(* ================================================================== *)

Section Bake.

(** The host scene and the calls bakeSimulation makes on it. *)
Variable H : Type.
Variable breakConnections : string -> string -> H -> H.
Variable getFCurve_of : H -> string -> string -> option fcurve.
Variable setKeyframe : string -> string -> Q -> pyval -> H -> H.
Variable currentTime_set : Q -> H -> H.

(** The process: the host scene and the module global. *)
Record world : Type := World {
  host : H;
  COPY_KEY_BUFFER : copy_buffer
}.

(** The names bound inside bakeSimulation when it returns. *)
Record bake_locals : Type := BakeLocals {
  keyBuffer : copy_buffer;
  COPY_BUFFER : copy_buffer
}.

(** [cutKey(object, attribute, time=(startTime, endTime))] for a host
    object: no F-curve is among the arguments, parseObjectAttributes gives
    [{object: [attribute]}], and copyKey assigns the global. *)
Definition cutKey_global (object attribute : string) (w : world) : world :=
  World (host w)
        (cutKey (getFCurve_of (host w)) [] [(object, [attribute])]).

Definition bake_keys (object attribute : string) (keyInfo : list (Q * pyval)) (h : H) : H :=
  fold_left (fun h kv => setKeyframe object attribute (fst kv) (snd kv) h) keyInfo h.

Definition bake_attribute (object : string) (w : world)
           (entry : string * list (Q * pyval)) : world :=
  let attribute := fst entry in
  let w := World (breakConnections object attribute (host w)) (COPY_KEY_BUFFER w) in
  let w := match getFCurve_of (host w) object attribute with
           | Some _ => cutKey_global object attribute w
           | None => w
           end in
  World (bake_keys object attribute (snd entry) (host w)) (COPY_KEY_BUFFER w).

(** bakeSimulation from [global COPY_KEY_BUFFER] to the end; [objectData]
    is the dictionary gathered by the first loop, [currentFrame] the frame
    read before it. The last statement binds the local name
    [COPY_BUFFER]. *)
Definition bakeSimulation_write
           (objectData : list (string * list (string * list (Q * pyval))))
           (currentFrame : Q) (w : world) : world * bake_locals :=
  let keyBuffer := COPY_KEY_BUFFER w in
  let w := fold_left
             (fun w oa => fold_left (bake_attribute (fst oa)) (snd oa) w)
             objectData w in
  let w := World (currentTime_set currentFrame (host w)) (COPY_KEY_BUFFER w) in
  (w, BakeLocals keyBuffer keyBuffer).

End Bake.

(* ================================================================== *)
(** * cmds.py: warning, displayInfo, error *)
(* ================================================================== *)

(** What the user sees: the lines printed and the reports shown by the
    [info.display_message] operator (type and message). *)
Record ui : Type := UI {
  stdout : list string;
  reports : list (string * string)
}.

Definition print (msg : string) : M ui unit :=
  fun u => (UI (stdout u ++ [msg]) (reports u), OK tt).

Definition display_message (report_type report_message : string) : M ui unit :=
  fun u => (UI (stdout u) (reports u ++ [(report_type, report_message)]), OK tt).

Definition warning (msg : string) : M ui unit :=
  _ <~ print msg ;;
  display_message "WARNING" msg.

Definition displayInfo (msg : string) : M ui unit :=
  _ <~ print msg ;;
  display_message "INFO" msg.

Definition error (msg : string) : M ui unit :=
  _ <~ print msg ;;
  _ <~ display_message "ERROR" msg ;;
  throw (RuntimeError msg []).

(* ================================================================== *)
(** * cmds.py: keyword aliases *)
(* ================================================================== *)

(** The alias keywords of ls ([search] and the starred arguments apart). *)
Record ls_kwargs : Type := LsKwargs {
  ls_flatten : pyval; ls_fl : pyval;
  ls_type : pyval; ls_t : pyval;
  ls_referencedNodes : pyval; ls_rn : pyval;
  ls_selection : pyval; ls_sl : pyval;
  ls_visible : pyval; ls_v : pyval;
  ls_invisible : pyval; ls_iv : pyval;
  ls_regex : pyval; ls_rgx : pyval;
  ls_caseInsensitive : pyval; ls_ci : pyval;
  ls_getParentCurve : pyval; ls_gpc : pyval
}.

Record ls_flags : Type := LsFlags {
  flatten : pyval;
  objectType : pyval;
  referencedNodes : pyval;
  selection : pyval;
  visible : pyval;
  regex : pyval;
  caseInsensitive : pyval;
  invisible : pyval;
  getParentCurve : pyval
}.

(** The block [# Parse arguments] of ls. *)
Definition ls_parse (k : ls_kwargs) : ls_flags :=
  LsFlags (parseArgs [ls_flatten k; ls_fl k; VBool false])
          (parseArgs [ls_type k; ls_t k; VNone])
          (parseArgs [ls_referencedNodes k; ls_rn k; VBool false])
          (parseArgs [ls_selection k; ls_sl k; VBool false])
          (parseArgs [ls_visible k; ls_v k; VBool false])
          (parseArgs [ls_regex k; ls_rgx k; VBool false])
          (parseArgs [ls_caseInsensitive k; ls_ci k; VBool false])
          (parseArgs [ls_invisible k; ls_iv k; VBool false])
          (parseArgs [ls_getParentCurve k; ls_gpc k; VBool false]).

Definition ls_no_kwargs : ls_kwargs :=
  LsKwargs VNone VNone VNone VNone VNone VNone VNone VNone VNone
           VNone VNone VNone VNone VNone VNone VNone VNone VNone.

(** The keywords of fullConstraint, parentConstraint, orientConstraint,
    pointConstraint and scaleConstraint after [target] and [source]. *)
Record constraint_kwargs : Type := ConstraintKwargs {
  ck_name : pyval; ck_n : pyval;
  ck_weight : pyval; ck_w : pyval;
  ck_skip : pyval; ck_s : pyval;
  ck_maintainOffset : pyval; ck_mo : pyval
}.

Definition constraint_no_kwargs : constraint_kwargs :=
  ConstraintKwargs VNone VNone VNone VNone VNone VNone VNone VNone.

(* ================================================================== *)
(** * cmds.py: batch and BatchedThread *)
(* ================================================================== *)

Section Batch.

Variables A B : Type.

(** The function handed to batch: it receives a list and returns a list
    (its result is added to [results] with [+=]). *)
Variable function : list A -> list B.

(** [range(0, n, size)] for [size >= 1]. *)
Definition range_step (n size : nat) : list nat :=
  map (fun k => k * size)%nat (seq 0 ((n + size - 1) / size)).

Definition batch_size (batchSize : Z) : nat :=
  if (batchSize <? 1)%Z then 1%nat else Z.to_nat batchSize.

(** The list of slices [items[i:i+batchSize]] for [i] in
    [range(0, len(items), batchSize)]. *)
Definition batches_of (items : list A) (batchSize : Z) : list (list A) :=
  let size := batch_size batchSize in
  map (fun i => firstn size (skipn i items)) (range_step (List.length items) size).

Definition numThreads (batches : nat) (threads : Z) : nat :=
  Nat.max (if (threads <? 1)%Z then batches else Z.to_nat threads) batches.









End Batch.

(* ================================================================== *)
(** * abstractModel.py: AbstractBaseMixin *)
(* ================================================================== *)

Module Tree.

(** The private state of an item: [__children], [__parent] and
    [_internalMove]. Items are named by their position in the heap. *)
Record item : Type := Item {
  children : list nat;
  parent : option nat;
  internalMove : bool
}.

Definition heap : Type := list item.

(** The state [__new__] gives a fresh instance. *)
Definition new_item : item := Item [] None false.

Definition get (h : heap) (i : nat) : item := nth i h new_item.

Definition upd (i : nat) (f : item -> item) : M heap unit :=
  fun h => (set_nth i f h, OK tt).

(** A position argument: [None], an integer, or (as setParent passes it)
    an item. *)
Inductive position : Type :=
| PosNone
| PosInt (z : Z)
| PosItem (i : nat).

Inductive call : Type :=
| AddChild (self child : nat)
| InsertChild (self : nat) (pos : position) (child : nat)
| SetParent (self : nat) (new_parent : option nat)
| RemoveChild (self : nat) (pos : position).

Definition mem (x : nat) (l : list nat) : bool := existsb (Nat.eqb x) l.

(** [__validateItem]: every name in the heap is an AbstractBaseMixin. *)
Definition validateItem (h : heap) (self child : nat) : bool :=
  negb (mem child (children (get h self))).

(** [with item.internalCallback: body]: the flag is raised on entry and
    lowered on exit, also when the body returns or raises. *)
Definition with_internalCallback {X : Type} (i : nat) (body : M heap X) : M heap X :=
  fun h =>
    let '(h1, _) := upd i (fun it => Item (children it) (parent it) true) h in
    let '(h2, r) := body h1 in
    let '(h3, _) := upd i (fun it => Item (children it) (parent it) false) h2 in
    (h3, r).

Definition option_nat_eqb (a b : option nat) : bool :=
  match a, b with
  | None, None => true
  | Some x, Some y => Nat.eqb x y
  | _, _ => false
  end.

(** [l.insert(pos, x)] and [l.pop(pos)] with Python's negative
    positions. *)
Definition py_insert (pos : Z) (x : nat) (l : list nat) : list nat :=
  let n := Z.of_nat (List.length l) in
  let i := if (pos <? 0)%Z then Z.max 0 (n + pos) else Z.min pos n in
  firstn (Z.to_nat i) l ++ x :: skipn (Z.to_nat i) l.

Definition py_pop_index (pos : Z) (l : list nat) : nat :=
  Z.to_nat (if (pos <? 0)%Z then Z.of_nat (List.length l) + pos else pos).

(** The four methods; [fuel] bounds the depth of the calls between
    them. *)
Fixpoint run (fuel : nat) (c : call) : M heap (option bool) :=
  match fuel with
  | O => throw RecursionError
  | S fuel =>
      match c with
      | AddChild self child =>
          h <~ get_state ;;
          if negb (validateItem h self child) then ret (Some false)
          else
            _ <~ upd self (fun it => Item (children it ++ [child]) (parent it)
                                          (internalMove it)) ;;
            h <~ get_state ;;
            if negb (internalMove (get h self))
            then with_internalCallback child (run fuel (SetParent child (Some self)))
            else ret (Some true)
      | InsertChild self pos child =>
          h <~ get_state ;;
          if negb (validateItem h self child) then ret (Some false)
          else
            let n := Z.of_nat (List.length (children (get h self))) in
            place <~ match pos with
                     | PosNone => ret None
                     | PosInt z => ret (if (n <=? z)%Z then None else Some z)
                     | PosItem _ => throw TypeError
                     end ;;
            _ <~ upd self (fun it =>
                   Item (match place with
                         | None => children it ++ [child]
                         | Some z => py_insert z child (children it)
                         end) (parent it) (internalMove it)) ;;
            h <~ get_state ;;
            _ <~ (if negb (option_nat_eqb (parent (get h child)) (Some self))
                  then with_internalCallback child (run fuel (SetParent child (Some self)))
                  else ret None) ;;
            ret (Some true)
      | SetParent self new_parent =>
          h <~ get_state ;;
          let currentParent := parent (get h self) in
          if option_nat_eqb currentParent new_parent then ret (Some false)
          else
            match new_parent with
            | None =>
                match currentParent with
                | None => ret (Some false)
                | Some current =>
                    _ <~ upd self (fun it => Item (children it) None (internalMove it)) ;;
                    h <~ get_state ;;
                    _ <~ (if negb (internalMove (get h self))
                          then run fuel (RemoveChild current (PosItem self))
                          else ret None) ;;
                    ret (Some true)
                end
            | Some p =>
                if internalMove (get h self)
                then _ <~ upd self (fun it => Item (children it) (Some p) (internalMove it)) ;;
                     ret (Some true)
                else
                  with_internalCallback p
                    (added <~ run fuel (AddChild p self) ;;
                     match added with
                     | Some true =>
                         _ <~ upd self (fun it => Item (children it) (Some p)
                                                      (internalMove it)) ;;
                         ret (Some true)
                     | _ => ret (Some false)
                     end)
            end
      | RemoveChild self pos =>
          h <~ get_state ;;
          let maxIndex := (Z.of_nat (List.length (children (get h self))) - 1)%Z in
          match pos with
          | PosInt z =>
              if negb ((- maxIndex <=? z)%Z && (z <=? maxIndex)%Z)
              then throw IndexError
              else
                let i := py_pop_index z (children (get h self)) in
                let popped := nth i (children (get h self)) 0%nat in
                _ <~ upd self (fun it =>
                       Item (firstn i (children it) ++ skipn (S i) (children it))
                            (parent it) (internalMove it)) ;;
                h <~ get_state ;;
                _ <~ (if negb (internalMove (get h self))
                      then with_internalCallback popped (run fuel (SetParent popped None))
                      else ret None) ;;
                ret None
          | _ => throw TypeError      (* an integer is compared with the position;
                                         Python 2 orders them and ends in IndexError *)
          end
      end
  end.

(** The depth of calls given to a method called from outside; a depth
    that is used up shows as RecursionError. *)
Definition depth : nat := 3.

Definition addChild (self child : nat) : M heap (option bool) :=
  run depth (AddChild self child).
Definition insertChild (self : nat) (pos : position) (child : nat) : M heap (option bool) :=
  run depth (InsertChild self pos child).
Definition setParent (self : nat) (new_parent : option nat) : M heap (option bool) :=
  run depth (SetParent self new_parent).
Definition removeChild (self : nat) (pos : Z) : M heap (option bool) :=
  run depth (RemoveChild self (PosInt pos)).
Definition getParent (h : heap) (self : nat) : option nat := parent (get h self).

(** The link invariant: [c] is in the child list of [p] exactly when the
    parent of [c] is [p], child lists have no repetition. *)
Definition link_ok (h : heap) (p c : nat) : bool :=
  Bool.eqb (mem c (children (get h p))) (option_nat_eqb (getParent h c) (Some p)).

Fixpoint nodupb (l : list nat) : bool :=
  match l with
  | [] => true
  | x :: rest => negb (mem x rest) && nodupb rest
  end.

Definition consistent (h : heap) : bool :=
  let ids := seq 0 (List.length h) in
  forallb (fun p => nodupb (children (get h p)) && forallb (link_ok h p) ids) ids.

(** A sequence of method calls, stopped by the first exception. *)
Fixpoint run_all (calls : list call) : M heap unit :=
  match calls with
  | [] => ret tt
  | c :: rest => _ <~ run depth c ;; run_all rest
  end.

(** Three fresh items. *)
Definition three_items : heap := [new_item; new_item; new_item].

End Tree.

(* ================================================================== *)
(** * Reference definitions and test scenes *)
(* ================================================================== *)

(** A scene without data-blocks. *)
Definition empty_scene : string -> option hostobj := fun _ => None.

(** A scene with one object, [Cube], that has a custom property [tx]. *)
Definition cube : hostobj := HostObj "Cube" ["tx"%string].

Definition cube_scene : string -> option hostobj :=
  fun name => if String.eqb name "Cube" then Some cube else None.

(** The alias table read as the claim words it: every alias with the name
    it stands for. *)
Definition alias_table : list (string * string) :=
  flat_map (fun entry => map (fun a => (a, fst entry)) (snd entry))
           CONSTANTS.attributeConversion.

Fixpoint alias_lookup (table : list (string * string)) (name : string) : option string :=
  match table with
  | [] => None
  | (a, key) :: rest => if String.eqb name a then Some key else alias_lookup rest name
  end.

Definition resolve_alias (name : string) : string :=
  match alias_lookup alias_table name with
  | Some key => key
  | None => name
  end.

(** getAttributeIndex as the claim words it, on a name already cleaned:
    resolve the alias, rename [rotation] before an axis letter, strip a
    trailing index letter. *)
Definition getAttributeIndex_spec (name : string) : string * option nat :=
  let resolved := resolve_alias name in
  let renamed := if match_rotation_axis resolved
                 then str_replace "rotation" "rotation_euler" resolved
                 else resolved in
  match str_last renamed with
  | Some c =>
      match indices_get CONSTANTS.attributeIndices c with
      | Some i => (str_init renamed, Some i)
      | None => (renamed, None)
      end
  | None => (renamed, None)
  end.

(** A name made of letters, digits, dashes and underscores. *)
Definition clean_name (s : string) : bool := str_forall is_attr_char s.

(** The decimal digit strings that index [attributeIndicesInverse]. *)
Definition index_digit (k : nat) : string :=
  nth k ["0"; "1"; "2"; "3"]%string ""%string.

Definition index_axis (k : nat) : string :=
  nth k CONSTANTS.attributeIndicesInverse ""%string.

Definition bracketed (name : string) (k : nat) : string :=
  (name ++ "[" ++ index_digit k ++ "]")%string.

(** Stand-ins for the host-dependent tails of getAttr and setAttr. *)
Definition no_query : pyval -> pyval -> getAttr_args -> result pyval :=
  fun _ _ _ => OK VNone.

Definition no_store : pyval -> pyval -> pyval -> pyval -> result pyval :=
  fun _ _ _ _ => OK (VBool true).

Definition getAttr_two_names : getAttr_args :=
  GetAttrArgs (VList [VStr "tx"; VStr "ty"]) VNone VNone VNone VNone VNone VNone VNone
              VNone VNone VNone VNone VNone VNone VNone.

Definition setAttr_two_names : setAttr_args :=
  SetAttrArgs (VList [VStr "tx"; VStr "ty"]) (VNum 1) VNone VNone VNone VNone.

Definition blank_ui : ui := UI [] [].

(** A curve with keys at times 0 and 10 (values 0 and 5). *)
Definition key_at (t v : Q) : keyframe :=
  Keyframe (t, v) (t - 1, v) (t + 1, v) "AUTO" "AUTO" "BEZIER".

Definition two_key_curve : fcurve := FCurve 0 [key_at 0 0; key_at 10 5].

(** A host whose [keyframe_points.insert] appends a key with free handles
    at the key itself, and whose removal loops drop every key they test
    positive. *)
Definition append_key (points : list keyframe) (t v : Q) : list keyframe * nat :=
  (points ++ [Keyframe (t, v) (t, v) (t, v) "FREE" "FREE" "LINEAR"], List.length points).

Definition drop_keys_where (p : keyframe -> bool) (points : list keyframe) : list keyframe :=
  filter (fun k => negb (p k)) points.

(** Scenes for getFCurve: no animation at all, and [Cube.locationX]
    animated by [two_key_curve]. *)
Definition no_curves : string -> string -> option fcurve := fun _ _ => None.

Definition cube_curves : string -> string -> option fcurve :=
  fun object attribute =>
    if String.eqb object "Cube" && String.eqb attribute "locationX"
    then Some two_key_curve else None.

(** Host calls of bakeSimulation on a scene without state. *)
Definition still_scene : string -> string -> unit -> unit := fun _ _ h => h.
Definition keep_scene : string -> string -> Q -> pyval -> unit -> unit := fun _ _ _ _ h => h.
Definition still_time : Q -> unit -> unit := fun _ h => h.

(** A buffer left by an earlier copyKey on a curve. *)
Definition held_buffer : copy_buffer :=
  BufferDict [(7%nat, [key_item_of (FCurve 7 [key_at 2 4]) (key_at 2 4)])] [].

(* ================================================================== *)
(** * core/libs/types.py: the remaining helpers *)
(* ================================================================== *)



(** [s.lower()] on the letters A to Z. *)
Definition ascii_lower (c : ascii) : ascii :=
  if in_range 65 90 c then ascii_of_nat (nat_of_ascii c + 32) else c.

Fixpoint str_lower (s : string) : string :=
  match s with
  | EmptyString => EmptyString
  | String c rest => String (ascii_lower c) (str_lower rest)
  end.

(** [int(x)] for a float: the fraction is cut off towards zero. *)
Definition py_trunc (q : Q) : Z :=
  if Qle_bool 0 q then Qfloor q else Qceiling q.

Section Floats.

(** [float(s)] for a string: [None] where it raises ValueError. *)
Variable float_of_string : string -> option Q.

(** [asFloat(value)]: the three words are tested on [str(value).lower()],
    which is ['none'], ['true'] or ['false'] for [None] and the booleans and
    none of the three for a number, a list, a tuple or a host object;
    [float(value)] raises on a list, a tuple and a host object, and the
    exception is swallowed. *)
Definition asFloat (value : pyval) : Q :=
  match value with
  | VNone => 0
  | VBool b => if b then 1 else 0
  | VNum q => q
  | VStr s =>
      let low := str_lower s in
      if String.eqb low "false" then 0
      else if String.eqb low "true" then 1
      else if String.eqb low "none" then 0
      else match float_of_string s with
           | Some q => q
           | None => 0
           end
  | VList _ | VTuple _ | VObj _ => 0
  end.

(** [asInt(value)] *)
Definition asInt (value : pyval) : Z := py_trunc (asFloat value).

(** [parseDouble(value)].  For a one-element list the pair is built from
    [asFloat(value)] of the list itself, not of its element. *)
Definition parseDouble (value : pyval) : result pyval :=
  v1 <- (if isType_list_tuple value
         then match asList value with
              | [] => Raise (RuntimeError "parseDouble: invalid value: {0}" [value])
              | [_] => OK (VTuple [VNum (asFloat value); VNum (asFloat value)])
              | x :: y :: _ => OK (VTuple [VNum (asFloat x); VNum (asFloat y)])
              end
         else match value with
              | VNum _ | VBool _ | VStr _ =>
                  OK (VTuple [VNum (asFloat value); VNum (asFloat value)])
              | _ => OK value
              end) ;;
  if is_none v1
  then Raise (RuntimeError "parseDouble: invalid value: {0}" [v1])
  else OK v1.

End Floats.

(** ExtendedDict: a value stored under a key is a plain value, a plain
    [dict] or an ExtendedDict. Keys are strings; entries are kept in
    insertion order. *)
Inductive dval : Type :=
| Leaf (v : pyval)
| Plain (entries : list (string * dval))
| Ext (entries : list (string * dval)).

(** [ExtendedDict(value)] for a plain dictionary: every entry goes through
    [__setitem__], which converts a nested plain dictionary the same way. *)
Fixpoint to_extended (value : dval) : dval :=
  match value with
  | Plain entries =>
      Ext (fold_left
             (fun d kv => od_set String.eqb (fst kv) (snd kv) d)
             (map (fun kv => (fst kv, to_extended (snd kv))) entries) [])
  | other => other
  end.

(** [self[key] = value] *)
Definition ed_setitem (key : string) (value : dval) (self : list (string * dval))
  : list (string * dval) :=
  od_set String.eqb key (to_extended value) self.

Fixpoint ed_find (key : string) (self : list (string * dval)) : option dval :=
  match self with
  | [] => None
  | (k, v) :: rest => if String.eqb key k then Some v else ed_find key rest
  end.

(** [self[key]]: a missing key is created with an empty ExtendedDict. The
    result is the dictionary after the call and the value returned. *)
Definition ed_getitem (key : string) (self : list (string * dval))
  : list (string * dval) * dval :=
  match ed_find key self with
  | Some found => (self, found)
  | None => (od_set String.eqb key (Ext []) self, Ext [])
  end.


(* ================================================================== *)
(** * cmds.py: transform *)
(* ================================================================== *)

(** [validifyVector(vector)]: lists, tuples and strings have a length,
    numbers, [None] and host data-blocks have none. *)
Definition validifyVector (vector : pyval) : result (list pyval) :=
  if negb (truthy vector) then OK [VNum 0; VNum 0; VNum 0]
  else match vector with
       | VNum _ | VBool _ => OK [vector; vector; vector]
       | VList l | VTuple l =>
           if Nat.eqb (List.length l) 3 then OK l
           else Raise (RuntimeError "Invalid vectorArray3: {0}" [vector])
       | VStr s =>
           if Nat.eqb (String.length s) 3
           then OK (map (fun c => VStr (String c EmptyString)) (list_ascii_of_string s))
           else Raise (RuntimeError "Invalid vectorArray3: {0}" [vector])
       | _ => Raise (RuntimeError "Invalid vectorArray3: {0}" [vector])
       end.

(** The loop of mergeTuples over [enumerate(b)]; [a] is consumed in step
    with [b] ([a[i]] for an [i] past the end of [a] is an IndexError). *)
Fixpoint mergeTuples_loop (absolute : bool) (a b : list pyval) : result (list pyval) :=
  match b with
  | [] => OK a
  | value :: b' =>
      match a with
      | [] => Raise IndexError
      | x :: a' =>
          y <- (if absolute
                then OK (if is_none value then x else value)
                else py_add x (if truthy value then value else VNum 0)) ;;
          rest <- mergeTuples_loop absolute a' b' ;;
          OK (y :: rest)
      end
  end.

(** [mergeTuples(a, b, absolute)] *)
Definition mergeTuples (a b : pyval) (absolute : bool) : result (list pyval) :=
  a' <- validifyVector a ;;
  b' <- validifyVector b ;;
  mergeTuples_loop absolute a' b'.

(* ================================================================== *)
(** * cmds.py: keyframe *)
(* ================================================================== *)

(** [offsetKey(key, index, value, absolute)]: the coordinate [index] of
    [co] and of both handles is moved; [absolute] is the truth value of the
    flag. *)
Definition offsetKey (key : keyframe) (index : axis) (value : Q) (absolute : bool)
  : keyframe :=
  let v := vec_get index (co key) in
  let l := vec_get index (handle_left key) in
  let r := vec_get index (handle_right key) in
  let '(time, l, r) :=
    if absolute
    then let vc := v - value in (value, l - vc, r - vc)
    else (v + value, l + value, r + value) in
  Keyframe (vec_set index time (co key))
           (vec_set index l (handle_left key))
           (vec_set index r (handle_right key))
           (handle_left_type key) (handle_right_type key) (interpolation key).

(** [not change in [False, None]]: a change is asked for. *)
Definition change_requested (change : pyval) : bool :=
  negb (py_eqb change (VBool false) || is_none change).

Section KeyframeCommand.

Variable float_of_string : string -> option Q.

(** [key.select_control_point] of the host. *)
Variable select_control_point : keyframe -> bool.

(** [time[0] < key.co[0] < time[1]] *)
Definition key_in_window (time : pyval) (key : keyframe) : result bool :=
  lo <- (a <- py_index time 0 ;; as_num a) ;;
  if Qle_bool (fst (co key)) lo then OK false
  else hi <- (a <- py_index time 1 ;; as_num a) ;;
       OK (negb (Qle_bool hi (fst (co key)))).

(** The loop of getKeys over the keys of one curve; an entry is a key with
    the curve it was found on. *)
Fixpoint getKeys_curve (time : pyval) (selected : bool) (curve : nat)
         (keys : list keyframe) : result (list (keyframe * nat)) :=
  match keys with
  | [] => OK []
  | key :: rest =>
      inside <- (if is_none time then OK true else key_in_window time key) ;;
      others <- getKeys_curve time selected curve rest ;;
      if negb inside then OK others
      else if selected && negb (select_control_point key) then OK others
      else OK ((key, curve) :: others)
  end.

Fixpoint getKeys_curves (time : pyval) (selected : bool) (curves : list fcurve)
  : result (list (keyframe * nat)) :=
  match curves with
  | [] => OK []
  | curve :: rest =>
      these <- getKeys_curve time selected (fc_id curve) (keyframe_points curve) ;;
      others <- getKeys_curves time selected rest ;;
      OK (these ++ others)
  end.

(** [getKeys(curves, time, selected, lastSelected)] of keyframe. With
    [lastSelected] the first entry is taken ([list(results.keys())[0]]). *)
Definition getKeys (curves : list fcurve) (time selected lastSelected : pyval)
  : result (list (keyframe * nat)) :=
  time <- (if is_none time then OK VNone else parseDouble float_of_string time) ;;
  results <- getKeys_curves time (truthy selected || truthy lastSelected) curves ;;
  if truthy lastSelected
  then match results with
       | [] => Raise IndexError
       | first :: _ => OK [first]
       end
  else OK results.

(** keyframe in edit mode, from [doTimeChange = ...] to the end, on the
    keys getKeys returned: the keys after the call and the value
    returned. *)
Definition keyframe_edit (keys : list keyframe) (timeChange valueChange absolute : pyval)
  : list keyframe * bool :=
  let doTimeChange := change_requested timeChange in
  let doValueChange := change_requested valueChange in
  if negb (doTimeChange || doValueChange) then (keys, false)
  else
    let tc := asFloat float_of_string timeChange in
    let vc := asFloat float_of_string valueChange in
    (map (fun key =>
            let key := if doTimeChange then offsetKey key AxisX tc (truthy absolute)
                       else key in
            if doValueChange then offsetKey key AxisY vc (truthy absolute) else key)
         keys,
     true).

End KeyframeCommand.

(* ================================================================== *)
(** * abstractModel.py: headers of AbstractItemModel, queries of items *)
(* ================================================================== *)

(** [__headerData] (header and the name it is mapped to, if any),
    [__headers] and [__headersCache]. *)
Record header_model : Type := HeaderModel {
  hm_headerData : list (string * option string);
  hm_headers : list string;
  hm_headersCache : list (string * string)
}.

(** [setHeaders(headerData)] for a list, a set or a tuple of names. *)
Definition setHeaders_names (names : list string) : header_model :=
  let data := fold_left (fun d name => od_set String.eqb name (@None string) d) names [] in
  HeaderModel data (map fst data) [].


Definition columnCount (m : header_model) : nat := List.length (hm_headers m).

(** [l[i]] with Python's negative positions. *)
Definition py_nth {X : Type} (l : list X) (i : Z) : option X :=
  let n := Z.of_nat (List.length l) in
  if (i <? 0)%Z
  then if (i <? - n)%Z then None else nth_error l (Z.to_nat (n + i))
  else nth_error l (Z.to_nat i).

Fixpoint assoc_find {V : Type} (key : string) (d : list (string * V)) : option V :=
  match d with
  | [] => None
  | (k, v) :: rest => if String.eqb key k then Some v else assoc_find key rest
  end.

(** [headerMap or header] *)
Definition display_name (header : string) (headerMap : option string) : string :=
  match headerMap with
  | Some target => if String.eqb target "" then header else target
  | None => header
  end.


(** The cache agrees with the header data. *)
Definition cache_coherent (m : header_model) : Prop :=
  forall header name,
    assoc_find header (hm_headersCache m) = Some name ->
    exists headerMap,
      assoc_find header (hm_headerData m) = Some headerMap /\
      name = display_name header headerMap.

Module TreeQueries.

Import Tree.

Definition childCount (h : heap) (self : nat) : nat :=
  List.length (children (get h self)).

(** [getChild(pos)] *)
Definition getChild (h : heap) (self : nat) (pos : Z) : option nat :=
  let maxIndex := (Z.of_nat (childCount h self) - 1)%Z in
  if negb ((- maxIndex <=? pos)%Z && (pos <=? maxIndex)%Z) then None
  else py_nth (children (get h self)) pos.

(** Items in use: every name that occurs is a position of the heap, no
    item is inside a [with internalCallback] block. *)
Definition settled (h : heap) : Prop :=
  forall i, (i < List.length h)%nat ->
    internalMove (get h i) = false /\
    (forall c, In c (children (get h i)) -> (c < List.length h)%nat).

(** The parent and child links agree, and no child is listed twice. *)
Definition linked (h : heap) : Prop :=
  forall p, (p < List.length h)%nat ->
    NoDup (children (get h p)) /\
    (forall c, (c < List.length h)%nat ->
       (In c (children (get h p)) <-> parent (get h c) = Some p)).

(** No child list names an item twice. *)
Definition no_repeat (h : heap) : Prop :=
  forall p, NoDup (children (get h p)).

End TreeQueries.

(** A string parser for examples: it knows ["2.5"] and ["-2.5"]. *)
Definition two_floats : string -> option Q :=
  fun s => if String.eqb s "2.5" then Some (5 # 2)
           else if String.eqb s "-2.5" then Some (- (5 # 2))
           else None.

(* ================================================================== *)
(** * cmds.py: fullConstraint and the four commands built on it *)
(* ================================================================== *)

(** A constraint of the host as createConstraint leaves it: the object it
    was created on, its type, what was assigned to [target] and
    [influence], the two spaces and the name ([None] where
    createConstraint assigns nothing and the host's value stays), and the
    [use_x], [use_y], [use_z] attributes set to [False], in the order of
    the assignments.  The host's own check of an assigned value is not
    modelled. *)
Record constraint : Type := Constraint {
  c_owner : hostobj;
  c_type : string;
  c_target : pyval;
  c_influence : pyval;
  c_target_space : option string;
  c_owner_space : option string;
  c_name : option string;
  c_axes_off : list string
}.

(** A value a set cannot hold: a list, or a tuple with one inside. *)
Fixpoint unhashable (v : pyval) : bool :=
  match v with
  | VList _ => true
  | VTuple l => existsb unhashable l
  | _ => false
  end.

Section Constraints.

Variable bpy_data_get : string -> option hostobj.

(** The order in which [list(set(l))] gives the elements of [l]: it
    depends on the hashes of the interpreter at hand. *)
Variable set_order : list pyval -> list pyval.

(** [hasattr(constraint, attr)] for a constraint of a type. *)
Variable has_attr : string -> string -> bool.

(** [list(set(l))] *)
Definition py_set (l : list pyval) : result (list pyval) :=
  if existsb unhashable l then Raise TypeError else OK (set_order l).

(** [attr in CONSTANTS.transformAttributes] *)
Definition is_transformAttribute (attr : pyval) : bool :=
  match attr with
  | VStr s => str_mem s CONSTANTS.transformAttributes
  | _ => false
  end.

(** [resolveAttributeNames(attributes, object)]; the flag [transforms] is
    not read by the function. *)
Definition resolveAttributeNames (attributes object : pyval) : result (list pyval) :=
  rs <- sequence (map (fun attribute => resolveAttributeName bpy_data_get attribute object)
                      (asList attributes)) ;;
  results <- py_set rs ;;
  OK (filter is_transformAttribute results).

(** The loop of resolveAttrs: [axis[m]] gets the last letter of the
    first attribute of a kind twice, once by the assignment and once by
    [append]. *)
Fixpoint resolveAttrs_loop (attrs : list pyval) (axis : list (string * list string))
  : result (list (string * list string)) :=
  match attrs with
  | [] => OK axis
  | VStr attr :: rest =>
      match str_last attr with
      | None => Raise IndexError
      | Some c =>
          let m := str_init attr in
          let letter := String c EmptyString in
          let axis := match assoc_find m axis with
                      | Some _ => axis
                      | None => od_set String.eqb m [letter] axis
                      end in
          match assoc_find m axis with
          | Some letters =>
              resolveAttrs_loop rest (od_set String.eqb m (letters ++ [letter]) axis)
          | None => Raise KeyError
          end
      end
  | _ :: _ => Raise TypeError
  end.

(** [resolveAttrs(attrs)] of fullConstraint *)
Definition resolveAttrs (attrs : pyval) : result (list (string * list string)) :=
  attrs <- py_set (asList attrs) ;;
  attrs <- resolveAttributeNames (VList attrs) VNone ;;
  resolveAttrs_loop attrs [].

(** [createConstraint(source, target, type, skip, maintainOffset, weight,
    name)] of fullConstraint; the state is the list of the constraints
    created so far. *)
Definition createConstraint (source target : pyval) (type : string) (skip : list string)
           (maintainOffset weight : pyval) (name : string)
  : M (list constraint) constraint :=
  let source := asObject bpy_data_get source in
  let target := asObject bpy_data_get target in
  let type := if String.eqb type ""
              then match assoc_find "point" CONSTANTS.constraints with
                   | Some t => t
                   | None => type
                   end
              else type in
  let skip := filter (fun a => str_mem a ["x"; "y"; "z"]%string) (map str_lower skip) in
  match source with
  | VObj o =>
      let space := if truthy maintainOffset then Some "LOCAL"%string else None in
      let c := Constraint o type target weight space space
                 (if String.eqb name "" then None else Some name)
                 (filter (has_attr type) (map (fun a => ("use_" ++ a)%string) skip)) in
      fun created => (created ++ [c], OK c)
  | _ => throw AttributeError
  end.

(** The loop over [skip.items()] of fullConstraint; [last] is the local
    variable [constraint], unbound before the first constraint is
    created.  The list [constraints] is filled and not used. *)
Fixpoint constraint_loop (source target maintainOffset weight name : pyval)
         (skip : list (string * list string)) (last : option constraint)
  : M (list constraint) (option constraint) :=
  match skip with
  | [] => ret last
  | (attr, axis) :: rest =>
      if Nat.eqb (List.length axis) 3
      then constraint_loop source target maintainOffset weight name rest last
      else match assoc_find attr CONSTANTS.constraints with
           | None => constraint_loop source target maintainOffset weight name rest last
           | Some constraintType =>
               full <~ lift (prefix <- py_add name (VStr "_") ;;
                             py_add prefix (VStr attr)) ;;
               match full with
               | VStr full =>
                   c <~ createConstraint source target constraintType axis
                          maintainOffset weight full ;;
                   constraint_loop source target maintainOffset weight name rest (Some c)
               | _ => throw TypeError
               end
           end
  end.

(** [fullConstraint(target, source, ...)]: the weight is read from
    [weight] and [n]. *)
Definition fullConstraint (target source : pyval) (k : constraint_kwargs)
  : M (list constraint) constraint :=
  let name := parseArgs [ck_name k; ck_n k; VNone] in
  let weight := parseArgs [ck_weight k; ck_n k; VNum 1] in
  let skip := parseArgs [ck_skip k; ck_s k; VNone] in
  let maintainOffset := parseArgs [ck_maintainOffset k; ck_mo k; VNone] in
  skip <~ lift (resolveAttrs skip) ;;
  let source := asObject bpy_data_get source in
  let target := asObject bpy_data_get target in
  last <~ constraint_loop source target maintainOffset weight name skip None ;;
  match last with
  | Some c => ret c
  | None => throw UnboundLocalError
  end.

(** parentConstraint, orientConstraint, pointConstraint and
    scaleConstraint differ in the attributes they add to [skip]. *)
Definition constraint_with (more : list string) (target source : pyval)
           (k : constraint_kwargs) : M (list constraint) constraint :=
  let name := parseArgs [ck_name k; ck_n k; VNone] in
  let weight := parseArgs [ck_weight k; ck_n k; VNone] in
  let skip := parseArgs [ck_skip k; ck_s k; VNone] in
  let maintainOffset := parseArgs [ck_maintainOffset k; ck_mo k; VNone] in
  skip <~ lift (py_set (asList skip ++ map VStr more)) ;;
  fullConstraint target source
    (ConstraintKwargs name VNone weight VNone (VList skip) VNone maintainOffset VNone).

Definition parentConstraint : pyval -> pyval -> constraint_kwargs -> M (list constraint) constraint :=
  constraint_with ["scaleX"; "scaleY"; "scaleZ"]%string.

Definition orientConstraint : pyval -> pyval -> constraint_kwargs -> M (list constraint) constraint :=
  constraint_with ["locationX"; "locationY"; "locationZ"; "scaleX"; "scaleY"; "scaleZ"]%string.

Definition pointConstraint : pyval -> pyval -> constraint_kwargs -> M (list constraint) constraint :=
  constraint_with ["rotationX"; "rotationY"; "rotationZ"; "scaleX"; "scaleY"; "scaleZ"]%string.

Definition scaleConstraint : pyval -> pyval -> constraint_kwargs -> M (list constraint) constraint :=
  constraint_with ["rotationX"; "rotationY"; "rotationZ";
                   "locationX"; "locationY"; "locationZ"]%string.

End Constraints.

(** The keywords [k] with [weight=v], and with [w=v]. *)
Definition with_weight (v : pyval) (k : constraint_kwargs) : constraint_kwargs :=
  ConstraintKwargs (ck_name k) (ck_n k) v (ck_w k) (ck_skip k) (ck_s k)
                   (ck_maintainOffset k) (ck_mo k).

Definition with_w (v : pyval) (k : constraint_kwargs) : constraint_kwargs :=
  ConstraintKwargs (ck_name k) (ck_n k) (ck_weight k) v (ck_skip k) (ck_s k)
                   (ck_maintainOffset k) (ck_mo k).

(** A scene with the objects [Cube] and [Sphere]. *)
Definition sphere : hostobj := HostObj "Sphere" [].

Definition two_object_scene : string -> option hostobj :=
  fun name => if String.eqb name "Cube" then Some cube
              else if String.eqb name "Sphere" then Some sphere else None.

(** An interpreter whose sets keep the order of the first occurrences. *)
Fixpoint first_occurrences (l : list pyval) : list pyval :=
  match l with
  | [] => []
  | x :: rest => x :: filter (fun y => negb (py_eqb x y)) (first_occurrences rest)
  end.

(** The copy constraints of the host have the three axis switches, the
    others have none. *)
Definition copy_axes (type attr : string) : bool :=
  str_mem type ["COPY_LOCATION"; "COPY_ROTATION"; "COPY_SCALE"]%string &&
  str_mem attr ["use_x"; "use_y"; "use_z"]%string.

(** [name='c', skip=['locationX']] *)
Definition named_skip_locationX : constraint_kwargs :=
  ConstraintKwargs (VStr "c") VNone VNone VNone
                   (VList [VStr "locationX"]) VNone VNone VNone.

(** [name='c'] *)
Definition named_c : constraint_kwargs :=
  ConstraintKwargs (VStr "c") VNone VNone VNone VNone VNone VNone VNone.

(** A vector component given or left out: [None] or a number. *)
Definition opt_num (c : option Q) : pyval :=
  match c with
  | Some q => VNum q
  | None => VNone
  end.


(** [asObjects(objects)] with [dataType=None], [forceObjects=False]. *)
Definition asObjects (bpy_data_get : string -> option hostobj) (objects : pyval)
  : list pyval :=
  filter truthy (map (asObject bpy_data_get) (asList objects)).

(** ['.' not in s] *)
Definition no_dot (s : string) : bool := str_forall (fun c => negb (Ascii.eqb c ".")) s.

(** [s] has no opening square bracket. *)
Definition no_bracket (s : string) : bool := str_forall (fun c => negb (Ascii.eqb c "[")) s.

(** [object + '.' + attribute] *)
Definition dotted (object attribute : string) : string :=
  (object ++ String "." attribute)%string.


(** A method call keeps the child lists free of repetitions and the
    number of items. *)
Definition keeps_no_repeat {X : Type} (m : M Tree.heap X) (h : Tree.heap) : Prop :=
  TreeQueries.no_repeat (fst (m h)) /\ List.length (fst (m h)) = List.length h.

(** An item with one child. *)
Definition parent_and_child : Tree.heap :=
  [Tree.Item [1%nat] None false; Tree.Item [] (Some 0%nat) false].

(** The headers are the keys of the header data, and the cache agrees
    with the header data. *)
Definition headers_ok (m : header_model) : Prop :=
  hm_headers m = map fst (hm_headerData m) /\ cache_coherent m.


(* ================================================================== *)
(** * Attribute names: lemmas *)
(* ================================================================== *)

Section AttributeFacts.

Variable bpy_data_get : string -> option hostobj.

Lemma str_filter_id (p : ascii -> bool) (s : string) :
  str_forall p s = true -> str_filter p s = s.
Proof.
  induction s as [|c s IH]; simpl; [reflexivity|].
  intros H. apply andb_prop in H as [Hc Hs]. rewrite Hc, IH; auto.
Qed.

Lemma str_forall_weaken (p q : ascii -> bool) (s : string) :
  (forall c, p c = true -> q c = true) ->
  str_forall p s = true -> str_forall q s = true.
Proof.
  intros Hpq. induction s as [|c s IH]; simpl; [reflexivity|].
  intros H. apply andb_prop in H as [Hc Hs]. rewrite (Hpq _ Hc), IH; auto.
Qed.

Lemma attr_char_not_dot (c : ascii) :
  is_attr_char c = true -> Ascii.eqb c "." = false.
Proof.
  intros H. destruct (Ascii.eqb c ".") eqn:E; [|reflexivity].
  apply Ascii.eqb_eq in E. subst c. discriminate H.
Qed.

Lemma attr_char_not_bracket (c : ascii) :
  is_attr_char c = true -> Ascii.eqb c "[" = false.
Proof.
  intros H. destruct (Ascii.eqb c "[") eqn:E; [|reflexivity].
  apply Ascii.eqb_eq in E. subst c. discriminate H.
Qed.

Lemma rsplit_dot_none (s : string) :
  str_forall (fun c => negb (Ascii.eqb c ".")) s = true -> rsplit_dot s = None.
Proof.
  induction s as [|c s IH]; simpl; [reflexivity|].
  intros H. apply andb_prop in H as [Hc Hs]. rewrite (IH Hs).
  destruct (Ascii.eqb c "."); [discriminate|reflexivity].
Qed.

Lemma rsplit_dot_clean (s : string) : clean_name s = true -> rsplit_dot s = None.
Proof.
  intros H. apply rsplit_dot_none.
  apply (str_forall_weaken is_attr_char); [|exact H].
  intros c Hc. now rewrite (attr_char_not_dot _ Hc).
Qed.

(** What [span] leaves behind is a suffix: a property of all characters
    of [s] holds for all characters of the rest. *)
Lemma span_rest_forall (p q : ascii -> bool) (s : string) :
  str_forall q s = true -> str_forall q (snd (span p s)) = true.
Proof.
  induction s as [|c s IH]; simpl; [reflexivity|].
  intros H. destruct (p c).
  - apply andb_prop in H as [_ Hs]. specialize (IH Hs).
    destruct (span p s); simpl in *; exact IH.
  - simpl. exact H.
Qed.

Lemma listIndex_here_none (s : string) :
  str_forall (fun c => negb (Ascii.eqb c "[")) s = true -> listIndex_here s = None.
Proof.
  intros H. unfold listIndex_here.
  pose proof (span_rest_forall is_path_char _ s H) as Hr.
  destruct (span is_path_char s) as [name r1]; simpl in Hr.
  destruct r1 as [|c r2]; [reflexivity|].
  simpl in Hr. apply andb_prop in Hr as [Hc _].
  destruct c as [[] [] [] [] [] [] [] []]; try reflexivity; discriminate Hc.
Qed.

Lemma listIndex_first_none (s : string) :
  str_forall (fun c => negb (Ascii.eqb c "[")) s = true -> listIndex_first s = None.
Proof.
  induction s as [|c s IH]; intros H.
  - reflexivity.
  - simpl listIndex_first. rewrite (listIndex_here_none _ H).
    simpl in H. apply andb_prop in H as [_ Hs]. exact (IH Hs).
Qed.

Lemma listIndex_first_clean (s : string) :
  clean_name s = true -> listIndex_first s = None.
Proof.
  intros H. apply listIndex_first_none.
  apply (str_forall_weaken is_attr_char); [|exact H].
  intros c Hc. now rewrite (attr_char_not_bracket _ Hc).
Qed.

(** The loop over the dictionary finds what the flat alias table finds. *)
Lemma convert_alias_lookup (table : list (string * list string)) (name : string) :
  convert_alias table name =
  match alias_lookup
          (flat_map (fun entry => map (fun a => (a, fst entry)) (snd entry)) table)
          name with
  | Some key => key
  | None => name
  end.
Proof.
  induction table as [|[key values] table IH]; simpl; [reflexivity|].
  induction values as [|a values IHv]; simpl.
  - exact IH.
  - destruct (String.eqb name a); simpl; [reflexivity|exact IHv].
Qed.

Lemma convert_alias_spec (name : string) :
  convert_alias CONSTANTS.attributeConversion name = resolve_alias name.
Proof. apply convert_alias_lookup. Qed.

Lemma truthy_str (s : string) : s <> ""%string -> truthy (VStr s) = true.
Proof.
  intros H. simpl. destruct (String.eqb s "") eqn:E; [|reflexivity].
  apply String.eqb_eq in E. contradiction.
Qed.

(** Resolution of a clean, non-empty name without an object. *)
Lemma resolve_clean (s : string) :
  s <> ""%string -> clean_name s = true ->
  resolveAttributeName bpy_data_get (VStr s) VNone = OK (VStr (resolve_alias s)).
Proof.
  intros Hne Hc. unfold resolveAttributeName.
  rewrite (truthy_str Hne). simpl negb. cbv iota.
  rewrite (rsplit_dot_clean _ Hc).
  unfold asObject, resolve_single.
  cbn [isType_list_tuple truthy negb bind].
  rewrite (listIndex_first_clean _ Hc). cbn [bind].
  unfold reAttribute_sub. rewrite (str_filter_id _ _ Hc).
  now rewrite convert_alias_spec.
Qed.

Lemma alias_lookup_nonempty (table : list (string * string)) (name key : string) :
  forallb (fun e => negb (String.eqb (snd e) "")) table = true ->
  alias_lookup table name = Some key -> key <> ""%string.
Proof.
  induction table as [|[a k] table IH]; simpl; [discriminate|].
  intros H. apply andb_prop in H as [Hk Ht].
  destruct (String.eqb name a).
  - intros [= <-] ->. discriminate Hk.
  - apply IH, Ht.
Qed.

Lemma resolve_alias_nonempty (s : string) :
  s <> ""%string -> resolve_alias s <> ""%string.
Proof.
  intros Hne. unfold resolve_alias.
  destruct (alias_lookup alias_table s) as [key|] eqn:E; [|exact Hne].
  apply (alias_lookup_nonempty alias_table s); [reflexivity|exact E].
Qed.

Lemma str_last_some (s : string) : s <> ""%string -> exists c, str_last s = Some c.
Proof.
  induction s as [|c s IH]; intros H; [contradiction|].
  destruct s as [|d s'].
  - exists c. reflexivity.
  - destruct IH as [x Hx]; [discriminate|]. exists x. exact Hx.
Qed.

Lemma renamed_nonempty (a : string) :
  a <> ""%string ->
  (if match_rotation_axis a then str_replace "rotation" "rotation_euler" a else a)
  <> ""%string.
Proof.
  intros Hne. destruct (match_rotation_axis a) eqn:E; [|exact Hne].
  unfold match_rotation_axis in E. apply andb_prop in E as [Hp _].
  destruct a as [|c rest]; [contradiction|].
  unfold str_replace. cbn [str_replace_go]. rewrite Hp. discriminate.
Qed.

(** The part of getAttributeIndex after the resolution agrees with the
    reference definition. *)
Lemma index_of_clean (s : string) :
  s <> ""%string -> clean_name s = true ->
  getAttributeIndex bpy_data_get (VStr s) = OK (getAttributeIndex_spec s).
Proof.
  intros Hne Hc. unfold getAttributeIndex. cbn [isType_str negb].
  rewrite (resolve_clean Hne Hc). cbn [bind].
  unfold getAttributeIndex_spec.
  pose proof (renamed_nonempty (resolve_alias_nonempty Hne)) as Hr.
  destruct (str_last_some Hr) as [c Hlast]. rewrite Hlast.
  destruct (indices_get CONSTANTS.attributeIndices c); reflexivity.
Qed.

End AttributeFacts.

Section BracketedNames.

Variable bpy_data_get : string -> option hostobj.

Lemma str_forall_app (p : ascii -> bool) (a b : string) :
  str_forall p (a ++ b)%string = str_forall p a && str_forall p b.
Proof.
  induction a as [|c a IH]; simpl; [reflexivity|].
  rewrite IH. now rewrite andb_assoc.
Qed.

Lemma span_app (p : ascii -> bool) (a : string) (c : ascii) (b : string) :
  str_forall p a = true -> p c = false ->
  span p (a ++ String c b)%string = (a, String c b).
Proof.
  intros Ha Hc. induction a as [|x a IH]; simpl.
  - now rewrite Hc.
  - simpl in Ha. apply andb_prop in Ha as [Hx Ha].
    rewrite Hx, (IH Ha). reflexivity.
Qed.

Lemma listIndex_first_here (s : string) (m : string * string) :
  listIndex_here s = Some m -> listIndex_first s = Some m.
Proof. intros H. destruct s; cbn [listIndex_first]; rewrite H; reflexivity. Qed.

Lemma index_digit_facts (k : nat) :
  (k < 4)%nat ->
  span is_digit (index_digit k ++ "]")%string = (index_digit k, "]"%string) /\
  py_int (index_digit k) = OK k /\
  nth_error CONSTANTS.attributeIndicesInverse k = Some (index_axis k) /\
  index_axis k <> ""%string /\
  clean_name (index_axis k) = true /\
  str_forall (fun c => negb (Ascii.eqb c ".")) (index_digit k) = true.
Proof.
  intros H.
  destruct k as [|[|[|[|k]]]]; [| | | |lia];
    (repeat split; try reflexivity; discriminate).
Qed.

Lemma listIndex_first_bracketed (name : string) (k : nat) :
  clean_name name = true -> (k < 4)%nat ->
  listIndex_first (bracketed name k) = Some (name, index_digit k).
Proof.
  intros Hc Hk. apply listIndex_first_here.
  unfold listIndex_here, bracketed.
  change ("[" ++ index_digit k ++ "]")%string
    with (String "[" (index_digit k ++ "]")%string).
  rewrite span_app; [|  |reflexivity].
  - destruct (index_digit_facts Hk) as [Hd _].
    rewrite Hd. reflexivity.
  - apply (str_forall_weaken is_attr_char); [|exact Hc].
    intros c H. unfold is_path_char. now rewrite H.
Qed.

Lemma bracketed_no_dot (name : string) (k : nat) :
  clean_name name = true -> (k < 4)%nat -> rsplit_dot (bracketed name k) = None.
Proof.
  intros Hc Hk. apply rsplit_dot_none. unfold bracketed.
  rewrite str_forall_app. apply andb_true_intro. split.
  - apply (str_forall_weaken is_attr_char); [|exact Hc].
    intros c H. now rewrite (attr_char_not_dot _ H).
  - destruct (index_digit_facts Hk) as (_ & _ & _ & _ & _ & Hd).
    change ("[" ++ index_digit k ++ "]")%string
      with (String "[" (index_digit k ++ "]")%string).
    cbn [str_forall]. rewrite str_forall_app, Hd. reflexivity.
Qed.

Lemma bracketed_nonempty (name : string) (k : nat) : bracketed name k <> ""%string.
Proof. unfold bracketed. destruct name; discriminate. Qed.

Lemma app_axis_nonempty (name : string) (k : nat) :
  (k < 4)%nat -> (name ++ index_axis k)%string <> ""%string.
Proof.
  intros Hk. destruct (index_digit_facts Hk) as (_ & _ & _ & Hax & _).
  destruct name; [exact Hax|discriminate].
Qed.

(** Resolution of [name[k]]: the axis letter replaces the bracket. *)
Lemma resolve_bracketed (name : string) (k : nat) :
  clean_name name = true -> (k < 4)%nat ->
  resolveAttributeName bpy_data_get (VStr (bracketed name k)) VNone =
  OK (VStr (resolve_alias (name ++ index_axis k))).
Proof.
  intros Hc Hk. unfold resolveAttributeName.
  rewrite (truthy_str (@bracketed_nonempty name k)). cbn [negb].
  rewrite (bracketed_no_dot _ Hc Hk).
  unfold asObject, resolve_single.
  cbn [isType_list_tuple truthy negb bind].
  rewrite (listIndex_first_bracketed _ Hc Hk).
  destruct (index_digit_facts Hk) as (_ & Hint & Hnth & _).
  rewrite Hint. cbn [bind]. rewrite Hnth. cbn [bind].
  now rewrite convert_alias_spec.
Qed.

Lemma index_of_bracketed (name : string) (k : nat) :
  clean_name name = true -> (k < 4)%nat ->
  getAttributeIndex bpy_data_get (VStr (bracketed name k)) =
  OK (getAttributeIndex_spec (name ++ index_axis k)).
Proof.
  intros Hc Hk. unfold getAttributeIndex. cbn [isType_str negb].
  rewrite (resolve_bracketed _ Hc Hk). cbn [bind].
  unfold getAttributeIndex_spec.
  pose proof (renamed_nonempty (resolve_alias_nonempty (app_axis_nonempty name Hk))) as Hr.
  destruct (str_last_some Hr) as [c Hlast]. rewrite Hlast.
  destruct (indices_get CONSTANTS.attributeIndices c); reflexivity.
Qed.

Lemma index_of_non_string (v : pyval) :
  isType_str v = false ->
  getAttributeIndex bpy_data_get v = Raise (RuntimeError "{0} is not a string" [v]).
Proof. intros H. unfold getAttributeIndex. now rewrite H. Qed.

End BracketedNames.

(* ================================================================== *)
(** * C1: getAttributeIndex *)
(* ================================================================== *)

(** C1, as stated, fails on the empty string, which is a string:
    resolveAttributeName answers [None] for it and the match against
    ['rotation[XYZW]'] raises TypeError, so no pair is returned (and the
    exception is no RuntimeError). A name that is cleaned to nothing, such
    as ['!'], ends in IndexError. *)
Lemma getAttributeIndex_empty_string_raises :
  (forall p, getAttributeIndex empty_scene (VStr "") <> OK p) /\
  getAttributeIndex empty_scene (VStr "") = Raise TypeError /\
  getAttributeIndex empty_scene (VStr "!") = Raise IndexError.
Proof. repeat split; try reflexivity. intros p H. discriminate H. Qed.

(** C1 (amended): for every non-empty attribute name made of letters,
    digits, dashes and underscores, getAttributeIndex returns the pair
    (base, index) that the claim describes: the alias table is applied
    (a name that is no alias is unchanged), [rotation] before an axis letter
    becomes [rotation_euler], a trailing X, Y, Z, W, R, G, B, A is stripped
    and gives index 0, 1, 2, 3, 0, 1, 2, 3, any other last character gives
    index None. A bracketed form [name[k]] with k below 4 is read as the name
    followed by the k-th of X, Y, Z, W. A non-string makes getAttributeIndex
    raise RuntimeError. *)
Theorem getAttributeIndex_pair :
  forall bpy_data_get : string -> option hostobj,
    (forall s, s <> ""%string -> clean_name s = true ->
       getAttributeIndex bpy_data_get (VStr s) = OK (getAttributeIndex_spec s)) /\
    (forall name k, clean_name name = true -> (k < 4)%nat ->
       getAttributeIndex bpy_data_get (VStr (bracketed name k)) =
       OK (getAttributeIndex_spec (name ++ index_axis k))) /\
    (forall s, s <> ""%string -> clean_name s = true ->
       alias_lookup alias_table s = None ->
       resolveAttributeName bpy_data_get (VStr s) VNone = OK (VStr s)) /\
    (resolveAttributeName bpy_data_get (VStr "translateX") VNone = OK (VStr "locationX") /\
     resolveAttributeName bpy_data_get (VStr "tx") VNone = OK (VStr "locationX") /\
     resolveAttributeName bpy_data_get (VStr "ry") VNone = OK (VStr "rotationY") /\
     resolveAttributeName bpy_data_get (VStr "location[1]") VNone = OK (VStr "locationY")) /\
    (getAttributeIndex bpy_data_get (VStr "rx") = OK ("rotation_euler"%string, Some 0%nat) /\
     getAttributeIndex bpy_data_get (VStr "colorG") = OK ("color"%string, Some 1%nat) /\
     getAttributeIndex bpy_data_get (VStr "prop") = OK ("prop"%string, None)) /\
    map (indices_get CONSTANTS.attributeIndices)
        ["X"; "Y"; "Z"; "W"; "R"; "G"; "B"; "A"]%char =
    map Some [0; 1; 2; 3; 0; 1; 2; 3]%nat /\
    (forall v, isType_str v = false ->
       is_runtime_error (getAttributeIndex bpy_data_get v) = true).
Proof.
  intros bpy. repeat split; try reflexivity.
  - intros s Hne Hc. exact (index_of_clean bpy Hne Hc).
  - intros name k Hc Hk. exact (index_of_bracketed bpy name Hc Hk).
  - intros s Hne Hc Hnone. rewrite (resolve_clean bpy Hne Hc).
    unfold resolve_alias. now rewrite Hnone.
  - intros v Hv. now rewrite (index_of_non_string bpy v Hv).
Qed.

Lemma getAttributeIndex_pair_witness :
  getAttributeIndex cube_scene (VStr "translateZ") = OK ("location"%string, Some 2%nat) /\
  getAttributeIndex cube_scene (VStr (bracketed "scale" 0)) = OK ("scale"%string, Some 0%nat) /\
  resolveAttributeName cube_scene (VStr "customProperty") VNone = OK (VStr "customProperty") /\
  is_runtime_error (getAttributeIndex cube_scene (VNum 3)) = true.
Proof.
  destruct (getAttributeIndex_pair cube_scene) as (Hclean & Hbr & Hsame & _ & _ & _ & Hnon).
  split; [|split; [|split]].
  - exact (Hclean "translateZ"%string ltac:(discriminate) eq_refl).
  - exact (Hbr "scale"%string 0%nat eq_refl ltac:(lia)).
  - exact (Hsame "customProperty"%string ltac:(discriminate) eq_refl eq_refl).
  - exact (Hnon (VNum 3) eq_refl).
Defined.

(* ================================================================== *)
(** * Minimum and maximum of numbers *)
(* ================================================================== *)

Section RangeFacts.

(** [py_min] and [py_max] on numbers are the least and the greatest
    element. *)
Lemma py_min_from_numbers (qs : list Q) (b : Q) :
  exists m, py_min_from (VNum b) (map VNum qs) = OK (VNum m) /\
            In m (b :: qs) /\ m <= b /\ (forall x, In x qs -> m <= x).
Proof.
  revert b. induction qs as [|q qs IH]; intros b; cbn [py_min_from map].
  - exists b. repeat split; [now left|apply Qle_refl|intros x []].
  - cbn [as_num bind]. destruct (Qle_bool b q) eqn:E.
    + destruct (IH b) as (m & Hm & Hin & Hle & Hall).
      exists m. repeat split; auto.
      * destruct Hin as [->|Hin]; [now left|right; now right].
      * apply Qle_bool_iff in E. intros x [<-|Hx]; [|auto].
        eapply Qle_trans; eauto.
    + destruct (IH q) as (m & Hm & Hin & Hle & Hall).
      assert (Hqb : q <= b).
      { destruct (Qlt_le_dec q b) as [Hlt|Hge]; [now apply Qlt_le_weak|].
        apply Qle_bool_iff in Hge. congruence. }
      exists m. repeat split; auto.
      * now right.
      * eapply Qle_trans; eauto.
      * intros x [<-|Hx]; auto.
Qed.

Lemma py_max_from_numbers (qs : list Q) (b : Q) :
  exists m, py_max_from (VNum b) (map VNum qs) = OK (VNum m) /\
            In m (b :: qs) /\ b <= m /\ (forall x, In x qs -> x <= m).
Proof.
  revert b. induction qs as [|q qs IH]; intros b; cbn [py_max_from map].
  - exists b. repeat split; [now left|apply Qle_refl|intros x []].
  - cbn [as_num bind]. destruct (Qle_bool q b) eqn:E.
    + destruct (IH b) as (m & Hm & Hin & Hle & Hall).
      exists m. repeat split; auto.
      * destruct Hin as [->|Hin]; [now left|right; now right].
      * apply Qle_bool_iff in E. intros x [<-|Hx]; [|auto].
        eapply Qle_trans; eauto.
    + destruct (IH q) as (m & Hm & Hin & Hle & Hall).
      assert (Hqb : b <= q).
      { destruct (Qlt_le_dec b q) as [Hlt|Hge]; [now apply Qlt_le_weak|].
        apply Qle_bool_iff in Hge. congruence. }
      exists m. repeat split; auto.
      * now right.
      * eapply Qle_trans; eauto.
      * intros x [<-|Hx]; auto.
Qed.

Lemma py_min_max_numbers (q : Q) (qs : list Q) :
  exists lo hi,
    py_min (VList (map VNum (q :: qs))) = OK (VNum lo) /\
    py_max (VList (map VNum (q :: qs))) = OK (VNum hi) /\
    In lo (q :: qs) /\ In hi (q :: qs) /\
    (forall x, In x (q :: qs) -> lo <= x /\ x <= hi).
Proof.
  destruct (py_min_from_numbers qs q) as (lo & Hlo & Hinlo & Hleb & Hall).
  destruct (py_max_from_numbers qs q) as (hi & Hhi & Hinhi & Hbge & Hallh).
  exists lo, hi. unfold py_min, py_max. cbn [py_items bind map].
  repeat split; auto.
  - destruct H as [<-|Hx]; auto.
  - destruct H as [<-|Hx]; auto.
Qed.

End RangeFacts.

(* ================================================================== *)
(** * C2: scaleInRange *)
(* ================================================================== *)

Section Binary64Facts.

Local Open Scope float_scope.
















End Binary64Facts.

(* ================================================================== *)
(** * C5: RuntimeError on malformed inputs *)
(* ================================================================== *)

Section MalformedInputs.

Variable bpy_data_get : string -> option hostobj.
Variable getAttr_query : pyval -> pyval -> getAttr_args -> result pyval.
Variable setAttr_store : pyval -> pyval -> pyval -> pyval -> result pyval.

Lemma parse_nothing (object attribute : pyval) :
  truthy object = false -> truthy attribute = false ->
  parseObjectAttribute bpy_data_get object attribute =
  Raise (RuntimeError "Could not parseObjectAttribute({0}, {1})" [object; attribute]).
Proof.
  intros Ho Ha. destruct object; cbn [parseObjectAttribute]; cbn [truthy] in *;
    rewrite ?Ho, Ha; try reflexivity; discriminate Ho.
Qed.

Lemma parse_wrong_length (l : list pyval) (attribute : pyval) :
  truthy attribute = false -> List.length l <> 2%nat ->
  is_runtime_error (parseObjectAttribute bpy_data_get (VList l) attribute) = true /\
  is_runtime_error (parseObjectAttribute bpy_data_get (VTuple l) attribute) = true.
Proof.
  intros Ha Hn. cbn [parseObjectAttribute truthy]. rewrite Ha.
  destruct l as [|o [|a [|b l]]]; cbn [orb negb List.length] in *;
    try (split; reflexivity).
  contradiction Hn. reflexivity.
Qed.

Lemma getAttr_multiple (object : pyval) (args : getAttr_args) (o v : pyval) :
  getAttr_resolve bpy_data_get object args = OK (o, v) ->
  isType_list_tuple v = true ->
  getAttr bpy_data_get getAttr_query object args =
  Raise (RuntimeError "getAttr does not support multiple attributes" []).
Proof. intros Hr Hv. unfold getAttr. rewrite Hr. cbn [bind]. now rewrite Hv. Qed.

Lemma setAttr_multiple (object : pyval) (args : setAttr_args) (o v value : pyval) :
  setAttr_resolve bpy_data_get object args = OK (o, v, value) ->
  isType_list_tuple v = true ->
  setAttr bpy_data_get setAttr_store object args =
  Raise (RuntimeError "getAttr does not support multiple attributes" []).
Proof. intros Hr Hv. unfold setAttr. rewrite Hr. cbn [bind]. now rewrite Hv. Qed.

(** A clean name always resolves on a host object. *)
Lemma resolve_on_object (o : hostobj) (s : string) :
  clean_name s = true ->
  exists r, resolveAttributeName bpy_data_get (VStr s) (VObj o) = OK r.
Proof.
  intros Hc. cbn [resolveAttributeName truthy].
  destruct (negb (negb (String.eqb s ""))); [eexists; reflexivity|].
  unfold asObject, resolve_single.
  cbn [isType_list_tuple truthy negb py_keys bind].
  destruct (str_mem s (obj_keys o)); [eexists; reflexivity|].
  rewrite (listIndex_first_clean _ Hc). cbn [bind]. eexists; reflexivity.
Qed.

Lemma resolve_all_on_object (o : hostobj) (names : list string) :
  Forall (fun s => clean_name s = true) names ->
  exists rs,
    sequence (map (fun x => resolveAttributeName bpy_data_get x (VObj o))
                  (map VStr names)) = OK rs.
Proof.
  induction 1 as [|s names Hs _ IH]; cbn [map sequence].
  - eexists; reflexivity.
  - destruct (@resolve_on_object o s Hs) as [r Hr]. destruct IH as [rs Hrs].
    rewrite Hr, Hrs. eexists; reflexivity.
Qed.

(** A non-empty list of attributes for a host object is resolved
    element by element. *)
Lemma resolve_list_unfold (o : hostobj) (l : list pyval) :
  l <> [] ->
  resolveAttributeName bpy_data_get (VList l) (VObj o) =
  (rs <- sequence (map (fun x => resolveAttributeName bpy_data_get x (VObj o)) l) ;;
   OK (VList rs)).
Proof.
  intros Hne. destruct l as [|x l]; [contradiction|].
  cbn [resolveAttributeName truthy negb].
  unfold asObject. cbn [isType_list_tuple truthy negb is_none].
  reflexivity.
Qed.

(** Several names for one host object resolve to a list. *)
Lemma resolve_list_on_object (o : hostobj) (names : list string) :
  names <> [] -> Forall (fun s => clean_name s = true) names ->
  exists rs,
    resolveAttributeName bpy_data_get (VList (map VStr names)) (VObj o) = OK (VList rs).
Proof.
  intros Hne Hall. destruct (@resolve_all_on_object o names Hall) as [rs Hrs].
  exists rs. rewrite resolve_list_unfold.
  - rewrite Hrs. reflexivity.
  - destruct names; [contradiction|discriminate].
Qed.

End MalformedInputs.

(** C5: parseObjectAttribute raises RuntimeError when neither an object nor
    an attribute is given, and when its input (no separate attribute) is a
    list or tuple whose length is not 2; getAttr and setAttr raise
    RuntimeError whenever the attribute resolves to a list or tuple, which is
    what several names given for a host object resolve to. *)
Theorem malformed_inputs_raise_RuntimeError :
  forall (bpy_data_get : string -> option hostobj)
         (getAttr_query : pyval -> pyval -> getAttr_args -> result pyval)
         (setAttr_store : pyval -> pyval -> pyval -> pyval -> result pyval),
    (forall object attribute,
       truthy object = false -> truthy attribute = false ->
       is_runtime_error (parseObjectAttribute bpy_data_get object attribute) = true) /\
    (forall l attribute,
       truthy attribute = false -> List.length l <> 2%nat ->
       is_runtime_error (parseObjectAttribute bpy_data_get (VList l) attribute) = true /\
       is_runtime_error (parseObjectAttribute bpy_data_get (VTuple l) attribute) = true) /\
    (forall object args o v,
       getAttr_resolve bpy_data_get object args = OK (o, v) ->
       isType_list_tuple v = true ->
       is_runtime_error (getAttr bpy_data_get getAttr_query object args) = true) /\
    (forall object args o v value,
       setAttr_resolve bpy_data_get object args = OK (o, v, value) ->
       isType_list_tuple v = true ->
       is_runtime_error (setAttr bpy_data_get setAttr_store object args) = true) /\
    (forall o names args,
       names <> [] -> Forall (fun s => clean_name s = true) names ->
       ga_attribute args = VList (map VStr names) ->
       is_runtime_error (getAttr bpy_data_get getAttr_query (VObj o) args) = true) /\
    (forall o names args,
       names <> [] -> Forall (fun s => clean_name s = true) names ->
       sa_attribute args = VList (map VStr names) ->
       is_runtime_error (setAttr bpy_data_get setAttr_store (VObj o) args) = true).
Proof.
  intros bpy q st. split; [|split; [|split; [|split; [|split]]]].
  - intros object attribute Ho Ha. now rewrite (@parse_nothing bpy object attribute Ho Ha).
  - intros l attribute Ha Hn. exact (@parse_wrong_length bpy l attribute Ha Hn).
  - intros object args o v Hr Hv. now rewrite (@getAttr_multiple bpy q object args o v Hr Hv).
  - intros object args o v value Hr Hv.
    now rewrite (@setAttr_multiple bpy st object args o v value Hr Hv).
  - intros o names args Hne Hall Hattr.
    destruct (@resolve_list_on_object bpy o names Hne Hall) as [rs Hrs].
    rewrite (@getAttr_multiple bpy q (VObj o) args (VObj o) (VList rs)); [reflexivity| |reflexivity].
    unfold getAttr_resolve. rewrite Hattr.
    cbn [parseArgs parseArgs_kw is_none].
    unfold asObject. cbn [isType_list_tuple truthy negb].
    rewrite Hrs. reflexivity.
  - intros o names args Hne Hall Hattr.
    destruct (@resolve_list_on_object bpy o names Hne Hall) as [rs Hrs].
    rewrite (@setAttr_multiple bpy st (VObj o) args (VObj o) (VList rs)
               (parseArgs [sa_value args; sa_v args; VNone]));
      [reflexivity| |reflexivity].
    unfold setAttr_resolve. rewrite Hattr.
    cbn [parseArgs parseArgs_kw is_none].
    unfold asObject. cbn [isType_list_tuple truthy negb].
    rewrite Hrs. reflexivity.
Qed.

Lemma malformed_inputs_raise_RuntimeError_witness :
  is_runtime_error (parseObjectAttribute cube_scene VNone VNone) = true /\
  is_runtime_error
    (parseObjectAttribute cube_scene (VTuple [VStr "Cube"; VStr "tx"; VStr "ty"]) VNone) = true /\
  is_runtime_error (getAttr cube_scene no_query (VObj cube) getAttr_two_names) = true /\
  is_runtime_error (setAttr cube_scene no_store (VObj cube) setAttr_two_names) = true.
Proof.
  destruct (malformed_inputs_raise_RuntimeError cube_scene no_query no_store)
    as (Hnone & Hlen & _ & _ & Hget & Hset).
  split; [|split; [|split]].
  - exact (Hnone VNone VNone eq_refl eq_refl).
  - exact (proj2 (Hlen [VStr "Cube"; VStr "tx"; VStr "ty"] VNone eq_refl ltac:(discriminate))).
  - apply (Hget cube ["tx"; "ty"]%string getAttr_two_names);
      [discriminate|repeat constructor|reflexivity].
  - apply (Hset cube ["tx"; "ty"]%string setAttr_two_names);
      [discriminate|repeat constructor|reflexivity].
Defined.

(* ================================================================== *)
(** * C6: warning, displayInfo, error *)
(* ================================================================== *)

(** C6, as stated, fails for warning and displayInfo: they print and report
    and then return; nothing is raised. *)
Lemma warning_displayInfo_return :
  raises (snd (warning "low memory" blank_ui)) = false /\
  raises (snd (displayInfo "saved" blank_ui)) = false /\
  warning "low memory" blank_ui =
    (UI ["low memory"%string] [("WARNING"%string, "low memory"%string)], OK tt).
Proof. repeat split; reflexivity. Qed.

(** C6 (amended): warning, displayInfo and error each print the message and
    show it through the host's report operator (as WARNING, INFO, ERROR);
    warning and displayInfo then return, error then raises RuntimeError with
    the message. *)
Theorem reporting_functions :
  forall (msg : string) (u : ui),
    warning msg u =
      (UI (stdout u ++ [msg]) (reports u ++ [("WARNING"%string, msg)]), OK tt) /\
    displayInfo msg u =
      (UI (stdout u ++ [msg]) (reports u ++ [("INFO"%string, msg)]), OK tt) /\
    error msg u =
      (UI (stdout u ++ [msg]) (reports u ++ [("ERROR"%string, msg)]),
       Raise (RuntimeError msg [])).
Proof. intros msg u. repeat split; reflexivity. Qed.

(* ================================================================== *)
(** * C7: keyword aliases *)
(* ================================================================== *)

Lemma parseArgs_long (v short default : pyval) :
  v <> VNone -> parseArgs [v; short; default] = v.
Proof. intros H. destruct v; try reflexivity. contradiction. Qed.

Lemma parseArgs_short (v default : pyval) :
  v <> VNone -> parseArgs [VNone; v; default] = v.
Proof. intros H. destruct v; try reflexivity. contradiction. Qed.

Lemma parseArgs_default (default : pyval) :
  parseArgs [VNone; VNone; default] = default.
Proof. destruct default; reflexivity. Qed.

(** The aliases of ls are interchangeable: [selection=v] and [sl=v] give
    the same flags. *)
Lemma ls_selection_alias (v : pyval) :
  ls_parse (LsKwargs VNone VNone VNone VNone VNone VNone v VNone VNone VNone
                     VNone VNone VNone VNone VNone VNone VNone VNone) =
  ls_parse (LsKwargs VNone VNone VNone VNone VNone VNone VNone v VNone VNone
                     VNone VNone VNone VNone VNone VNone VNone VNone).
Proof. destruct v; reflexivity. Qed.

Section ConstraintFacts.

Variable bpy_data_get : string -> option hostobj.
Variable set_order : list pyval -> list pyval.
Variable has_attr : string -> string -> bool.

(** Every constraint the loop of fullConstraint creates gets the weight
    as its influence. *)
Lemma constraint_loop_influence (source target maintainOffset weight name : pyval)
      (skip : list (string * list string)) :
  forall (last : option constraint) (created created' : list constraint)
         (r : option constraint),
    (forall c, last = Some c -> c_influence c = weight) ->
    constraint_loop bpy_data_get has_attr source target maintainOffset weight name
                    skip last created = (created', OK r) ->
    forall c, r = Some c -> c_influence c = weight.
Proof.
  induction skip as [|[attr axis] rest IH]; intros last created created' r Hlast Hrun.
  - cbn [constraint_loop] in Hrun. unfold ret in Hrun. injection Hrun as _ <-. exact Hlast.
  - cbn [constraint_loop] in Hrun.
    destruct (Nat.eqb (List.length axis) 3); [now apply (IH last created created' r)|].
    destruct (assoc_find attr CONSTANTS.constraints) as [constraintType|];
      [|now apply (IH last created created' r)].
    unfold mbind at 1, lift at 1 in Hrun.
    destruct (prefix <- py_add name (VStr "_") ;; py_add prefix (VStr attr)) as [full|e];
      [|discriminate].
    destruct full as [|b|q|full|l|l|o]; try discriminate.
    unfold mbind at 1, createConstraint in Hrun.
    destruct (asObject bpy_data_get source) as [|b|q|s|l|l|o]; try discriminate.
    eapply IH; [|exact Hrun]. intros c Hc. injection Hc as <-. reflexivity.
Qed.

Lemma fullConstraint_influence (target source : pyval) (k : constraint_kwargs)
      (created created' : list constraint) (c : constraint) :
  fullConstraint bpy_data_get set_order has_attr target source k created = (created', OK c) ->
  c_influence c = parseArgs [ck_weight k; ck_n k; VNum 1].
Proof.
  unfold fullConstraint. unfold mbind at 1, lift at 1.
  destruct (resolveAttrs bpy_data_get set_order _) as [skip|e]; [|discriminate].
  unfold mbind at 1.
  destruct (constraint_loop _ _ _ _ _ _ _ skip None created) as [created1 [last|e]] eqn:E;
    [|discriminate].
  destruct last as [c1|]; [|discriminate].
  unfold ret. intros H. injection H as _ <-.
  eapply constraint_loop_influence; [|exact E|reflexivity]. discriminate.
Qed.

Lemma constraint_with_influence (more : list string) (target source : pyval)
      (k : constraint_kwargs) (created created' : list constraint) (c : constraint) :
  constraint_with bpy_data_get set_order has_attr more target source k created
    = (created', OK c) ->
  c_influence c = parseArgs [parseArgs [ck_weight k; ck_n k; VNone]; VNone; VNum 1].
Proof.
  unfold constraint_with. unfold mbind at 1, lift at 1.
  destruct (py_set set_order _) as [skip|e]; [|discriminate].
  intros H. apply fullConstraint_influence in H. exact H.
Qed.

Lemma resolveAttrs_locationX :
  (forall x, set_order [x] = [x]) ->
  resolveAttrs bpy_data_get set_order (VList [VStr "locationX"]) =
  OK [("location"%string, ["X"; "X"]%string)].
Proof.
  intros Hone. unfold resolveAttrs, resolveAttributeNames, py_set.
  cbn [asList existsb unhashable orb map sequence bind]. rewrite Hone.
  cbn [bind map sequence].
  rewrite (@resolve_clean bpy_data_get "locationX"); [|discriminate|reflexivity].
  cbn [bind existsb unhashable orb]. rewrite Hone. reflexivity.
Qed.

End ConstraintFacts.

(** C7 (the code at the failing input): fullConstraint, parentConstraint,
    orientConstraint, pointConstraint and scaleConstraint take weight and w
    and document them as one keyword with two names, and compute the weight
    from weight and n.  So w is never read: a call with w=v does what the
    call without it does.  When the name is given as name, a call with w=v
    that creates a constraint returns it with influence 1.0, where the same
    call with weight=v returns it with influence v.  At the failing input,
    fullConstraint('Cube', 'Sphere', name='c', skip=['locationX'], ...) on a
    scene with the two objects, both calls create the constraint c_location
    of type COPY_LOCATION on Sphere with target Cube and return it: with
    w=0.5 its influence is 1.0, with weight=0.5 it is 0.5. *)
Theorem constraint_weight_alias_ignored :
  forall (bpy_data_get : string -> option hostobj)
         (set_order : list pyval -> list pyval)
         (has_attr : string -> string -> bool),
    let commands :=
      [fullConstraint bpy_data_get set_order has_attr;
       parentConstraint bpy_data_get set_order has_attr;
       orientConstraint bpy_data_get set_order has_attr;
       pointConstraint bpy_data_get set_order has_attr;
       scaleConstraint bpy_data_get set_order has_attr] in
    (forall command, In command commands ->
       forall target source k v,
         command target source (with_w v k) = command target source k) /\
    (forall command, In command commands ->
       forall target source k v created created' c,
         ck_weight k = VNone -> ck_n k = VNone -> v <> VNone ->
         (command target source (with_w v k) created = (created', OK c) ->
            c_influence c = VNum 1) /\
         (command target source (with_weight v k) created = (created', OK c) ->
            c_influence c = v)) /\
    ((forall x, set_order [x] = [x]) ->
     bpy_data_get "Cube"%string = Some cube ->
     bpy_data_get "Sphere"%string = Some sphere ->
     let made influence :=
       Constraint sphere "COPY_LOCATION" (VObj cube) influence None None
                  (Some "c_location"%string)
                  (filter (has_attr "COPY_LOCATION"%string) ["use_x"; "use_x"]%string) in
     fullConstraint bpy_data_get set_order has_attr (VStr "Cube") (VStr "Sphere")
                    (with_w (VNum (1 # 2)) named_skip_locationX) []
       = ([made (VNum 1)], OK (made (VNum 1))) /\
     fullConstraint bpy_data_get set_order has_attr (VStr "Cube") (VStr "Sphere")
                    (with_weight (VNum (1 # 2)) named_skip_locationX) []
       = ([made (VNum (1 # 2))], OK (made (VNum (1 # 2)))) /\
     made (VNum 1) <> made (VNum (1 # 2))).
Proof.
  intros bpy so ha commands. split; [|split].
  - intros command Hin target source k v.
    destruct Hin as [<-|[<-|[<-|[<-|[<-|[]]]]]]; reflexivity.
  - intros command Hin target source k v created created' c Hweight Hn Hv.
    assert (Hvd : forall n d, parseArgs [v; n; d] = v).
    { intros n d. destruct v; try reflexivity. contradiction. }
    destruct Hin as [<-|Hin].
    + split; intros H; apply fullConstraint_influence in H; rewrite H;
        cbn [with_w with_weight ck_weight ck_n].
      * rewrite Hweight, Hn. reflexivity.
      * apply Hvd.
    + assert (Hwith : exists more, command = constraint_with bpy so ha more).
      { destruct Hin as [<-|[<-|[<-|[<-|[]]]]]; eexists; reflexivity. }
      destruct Hwith as [more ->].
      split; intros H; apply constraint_with_influence in H; rewrite H;
        cbn [with_w with_weight ck_weight ck_n].
      * rewrite Hweight, Hn. reflexivity.
      * rewrite (Hvd (ck_n k) VNone). apply Hvd.
  - intros Hone Hcube Hsphere made.
    assert (Hrun : forall weight,
              fullConstraint bpy so ha (VStr "Cube") (VStr "Sphere")
                (with_weight weight named_skip_locationX) [] =
              (let c := made (parseArgs [weight; VNone; VNum 1]) in ([c], OK c))).
    { intros weight. unfold fullConstraint.
      cbn [with_weight named_skip_locationX ck_name ck_n ck_weight ck_w ck_skip ck_s
           ck_maintainOffset ck_mo].
      change (parseArgs [VList [VStr "locationX"]; VNone; VNone])
        with (VList [VStr "locationX"]).
      rewrite (resolveAttrs_locationX bpy so Hone).
      unfold mbind at 1, lift at 1.
      unfold asObject. cbn [isType_list_tuple truthy String.eqb Ascii.eqb Bool.eqb negb].
      rewrite Hcube, Hsphere.
      cbn [constraint_loop List.length Nat.eqb]. reflexivity. }
    split; [|split].
    + exact (Hrun VNone).
    + exact (Hrun (VNum (1 # 2))).
    + intros H. discriminate H.
Qed.

Lemma constraint_weight_alias_ignored_witness :
  (exists c,
     fullConstraint two_object_scene first_occurrences copy_axes (VStr "Cube") (VStr "Sphere")
                    (with_w (VNum (1 # 2)) named_skip_locationX) [] = ([c], OK c) /\
     c_influence c = VNum 1) /\
  (exists c,
     fullConstraint two_object_scene first_occurrences copy_axes (VStr "Cube") (VStr "Sphere")
                    (with_weight (VNum (1 # 2)) named_skip_locationX) [] = ([c], OK c) /\
     c_influence c = VNum (1 # 2)).
Proof.
  destruct (constraint_weight_alias_ignored two_object_scene first_occurrences copy_axes)
    as (_ & _ & H).
  destruct H as (H1 & H2 & _); [reflexivity|reflexivity|reflexivity|].
  split; eexists; (split; [eassumption|reflexivity]).
Defined.

(** pointConstraint('Cube', 'Sphere', name='c', ...) on an interpreter
    whose sets keep the order of first occurrence: with w=0.5 the
    constraint returned has influence 1.0, with weight=0.5 it has 0.5. *)
Lemma pointConstraint_weight_alias :
  (exists created c,
     pointConstraint two_object_scene first_occurrences copy_axes (VStr "Cube") (VStr "Sphere")
                     (with_w (VNum (1 # 2)) named_c) [] = (created, OK c) /\
     c_influence c = VNum 1) /\
  (exists created c,
     pointConstraint two_object_scene first_occurrences copy_axes (VStr "Cube") (VStr "Sphere")
                     (with_weight (VNum (1 # 2)) named_c) [] = (created, OK c) /\
     c_influence c = VNum (1 # 2)).
Proof. split; eexists; eexists; (split; [vm_compute; reflexivity|reflexivity]). Qed.

(* ================================================================== *)
(** * C3: scaleKey *)
(* ================================================================== *)

Section ScaleKeyFacts.

(** scaleIt raises before it writes anything: the third argument of
    scaleInRange is a coordinate, and a number has no length. *)
Lemma scaleIt_raises (keyRange : pyval) (key : keyframe) (start stop : pyval) (a : axis)
      (k : keyframe) :
  scaleIt keyRange key start stop a k = (k, Raise TypeError).
Proof. reflexivity. Qed.

Lemma dict_set_nonempty (k v : Q) (d : list (Q * Q)) : dict_set k v d <> [].
Proof.
  destruct d as [|[k' v'] d]; cbn [dict_set]; [discriminate|].
  destruct (Qeq_bool k k'); discriminate.
Qed.

Lemma timeValues_nonempty (key : keyframe) (keys : list keyframe) :
  timeValues_of (key :: keys) <> [].
Proof.
  unfold timeValues_of. cbn [fold_left].
  generalize (dict_set_nonempty (fst (co key)) (snd (co key)) []).
  generalize (dict_set (fst (co key)) (snd (co key)) []).
  induction keys as [|k keys IH]; intros d Hd; cbn [fold_left]; [exact Hd|].
  apply IH, dict_set_nonempty.
Qed.

Lemma min_max_of_numbers (f : Q * Q -> Q) (d : list (Q * Q)) :
  d <> [] ->
  exists lo hi,
    py_min (VList (map (fun kv => VNum (f kv)) d)) = OK (VNum lo) /\
    py_max (VList (map (fun kv => VNum (f kv)) d)) = OK (VNum hi).
Proof.
  intros Hd. destruct d as [|e d]; [contradiction|].
  destruct (py_min_max_numbers (f e) (map f d)) as (lo & hi & Hlo & Hhi & _).
  exists lo, hi. cbn [map] in *. rewrite map_map in Hlo, Hhi. split; assumption.
Qed.

(** With a new start time, or a time scale, the first key already stops
    scaleKey with a TypeError; the keys are as they were. *)
Lemma scaleKey_curve_newStartTime (id : nat) (key : keyframe) (keys : list keyframe)
      (start stop : Q) :
  scaleKey_curve
    (ScaleKeyArgs None VNone VNone (VNum 0) (VNum 0) (VNum start) (VNum stop) VNone VNone)
    (FCurve id (key :: keys)) =
  (key :: keys, Raise TypeError).
Proof.
  unfold scaleKey_curve, scaleKey_keys.
  cbn [sk_time keyframe_points sk_timeScale sk_valueScale sk_newStartTime sk_newEndTime
       sk_newStartValue sk_newEndValue sk_timePivot sk_valuePivot].
  destruct (min_max_of_numbers fst (timeValues_nonempty key keys))
    as (kmin & kmax & Hkmin & Hkmax).
  destruct (min_max_of_numbers snd (timeValues_nonempty key keys))
    as (vmin & vmax & Hvmin & Hvmax).
  rewrite Hkmin, Hkmax, Hvmin, Hvmax. reflexivity.
Qed.

Lemma scaleKey_curve_timeScale (id : nat) (key : keyframe) (keys : list keyframe)
      (pivot scale : Q) :
  scaleKey_curve
    (ScaleKeyArgs None (VNum scale) VNone (VNum pivot) (VNum 0) VNone VNone VNone VNone)
    (FCurve id (key :: keys)) =
  (key :: keys, Raise TypeError).
Proof.
  unfold scaleKey_curve, scaleKey_keys.
  cbn [sk_time keyframe_points sk_timeScale sk_valueScale sk_newStartTime sk_newEndTime
       sk_newStartValue sk_newEndValue sk_timePivot sk_valuePivot].
  destruct (min_max_of_numbers fst (timeValues_nonempty key keys))
    as (kmin & kmax & Hkmin & Hkmax).
  destruct (min_max_of_numbers snd (timeValues_nonempty key keys))
    as (vmin & vmax & Hvmin & Hvmax).
  rewrite Hkmin, Hkmax, Hvmin, Hvmax. reflexivity.
Qed.

Lemma scaleKey_curve_newStartValue (id : nat) (key : keyframe) (keys : list keyframe)
      (start stop : Q) :
  scaleKey_curve
    (ScaleKeyArgs None VNone VNone (VNum 0) (VNum 0) VNone VNone (VNum start) (VNum stop))
    (FCurve id (key :: keys)) =
  (key :: keys, Raise TypeError).
Proof.
  unfold scaleKey_curve, scaleKey_keys.
  cbn [sk_time keyframe_points sk_timeScale sk_valueScale sk_newStartTime sk_newEndTime
       sk_newStartValue sk_newEndValue sk_timePivot sk_valuePivot].
  destruct (min_max_of_numbers fst (timeValues_nonempty key keys))
    as (kmin & kmax & Hkmin & Hkmax).
  destruct (min_max_of_numbers snd (timeValues_nonempty key keys))
    as (vmin & vmax & Hvmin & Hvmax).
  rewrite Hkmin, Hkmax, Hvmin, Hvmax. reflexivity.
Qed.

End ScaleKeyFacts.

(** C3 (the code at the failing input): on a curve with keys at times 0 and
    10, scaleKey with newStartTime=0 and newEndTime=20 raises TypeError at
    the first key and leaves every coordinate as it was, where the claim
    expects the times 0 and 20; the same holds for every curve with at
    least one key, for timeScale and for newStartValue/newEndValue. The
    rescaling the claim describes is what scaleInRange gives when the
    coordinate is passed as the value. *)
Theorem scaleKey_raises_TypeError :
  scaleKey_curve
    (ScaleKeyArgs None VNone VNone (VNum 0) (VNum 0) (VNum 0) (VNum 20) VNone VNone)
    two_key_curve =
  (keyframe_points two_key_curve, Raise TypeError) /\
  (exists t, scaleIt_claimed (pair_range 0 10) 0 (VNum 0) (VNum 20) = OK (VNum t) /\ t == 0) /\
  (exists t, scaleIt_claimed (pair_range 0 10) 10 (VNum 0) (VNum 20) = OK (VNum t) /\ t == 20) /\
  (forall id key keys start stop,
     scaleKey_curve
       (ScaleKeyArgs None VNone VNone (VNum 0) (VNum 0) (VNum start) (VNum stop) VNone VNone)
       (FCurve id (key :: keys)) = (key :: keys, Raise TypeError)) /\
  (forall id key keys pivot scale,
     scaleKey_curve
       (ScaleKeyArgs None (VNum scale) VNone (VNum pivot) (VNum 0) VNone VNone VNone VNone)
       (FCurve id (key :: keys)) = (key :: keys, Raise TypeError)) /\
  (forall id key keys start stop,
     scaleKey_curve
       (ScaleKeyArgs None VNone VNone (VNum 0) (VNum 0) VNone VNone (VNum start) (VNum stop))
       (FCurve id (key :: keys)) = (key :: keys, Raise TypeError)).
Proof.
  split; [|split; [|split; [|split; [|split]]]].
  - apply scaleKey_curve_newStartTime.
  - eexists. split; [reflexivity|reflexivity].
  - eexists. split; [reflexivity|reflexivity].
  - apply scaleKey_curve_newStartTime.
  - apply scaleKey_curve_timeScale.
  - apply scaleKey_curve_newStartValue.
Qed.

(* ================================================================== *)
(** * C4: copyKey and pasteKey *)
(* ================================================================== *)

Section CopyPasteFacts.

Variable getFCurve : string -> string -> option fcurve.
Variable keyframe_points_insert : list keyframe -> Q -> Q -> list keyframe * nat.
Variable remove_keys_where : (keyframe -> bool) -> list keyframe -> list keyframe.

Lemma copied_times (c : fcurve) (keys : list keyframe) :
  sequence (map (fun k => py_index (ki_co k) 0) (map (key_item_of c) keys)) =
  OK (map VNum (map (fun k => fst (co k)) keys)).
Proof.
  induction keys as [|k keys IH]; cbn [map sequence]; [reflexivity|].
  rewrite IH. reflexivity.
Qed.

(** Pasting copied keys with the default option stops at the first key:
    the copied handle is a tuple and the offset added to it is the
    number 0. *)
Lemma applyData_insert_raises (c : fcurve) (key : keyframe) (keys points : list keyframe) :
  snd (applyData keyframe_points_insert remove_keys_where
         (map (key_item_of c) (key :: keys)) "insert" points) = Raise TypeError.
Proof.
  unfold applyData, mbind, lift at 1.
  rewrite copied_times.
  destruct (py_min_max_numbers (fst (co key)) (map (fun k => fst (co k)) keys))
    as (lo & hi & Hlo & Hhi & _ & _ & Hall).
  destruct (Hall (fst (co key)) (or_introl eq_refl)) as [Hle Hge].
  apply Qle_bool_iff in Hle, Hge.
  unfold lift at 1. cbn [map] in Hlo, Hhi |- *. rewrite Hlo.
  unfold lift at 1. rewrite Hhi.
  cbn [get_state str_mem String.eqb Ascii.eqb Bool.eqb orb as_num bind lift put_state ret].
  cbn [applyData_items map key_item_of ki_co py_vec].
  unfold mbind, lift, py_index, py_vec. cbn [py_items bind nth_error as_num].
  rewrite Hle. cbn [bind]. rewrite Hge. cbn [negb].
  unfold is_scale_option.
  cbn [str_mem String.eqb Ascii.eqb Bool.eqb orb andb py_add as_num bind
       get_state put_state ki_handle_left key_item_of].
  destruct (keyframe_points_insert points (fst (co key) + 0) (snd (co key))).
  reflexivity.
Qed.

Lemma pasteKey_after_copyKey_raises (id : nat) (key : keyframe) (keys : list keyframe)
      (target : fcurve) :
  snd (pasteKey keyframe_points_insert remove_keys_where []
         (copyKey getFCurve [FCurve id (key :: keys)] []) "insert" [target])
  = Raise TypeError.
Proof.
  unfold copyKey, getKeyInfo, keyframe_query_keys.
  cbn [fold_left od_set fc_id flat_map keyframe_points].
  rewrite app_nil_r.
  pose proof (applyData_insert_raises (FCurve id (key :: keys)) key keys
                (keyframe_points target)) as H.
  set (items := map (key_item_of (FCurve id (key :: keys))) (key :: keys)) in *.
  unfold pasteKey, mbind, get_state.
  cbn [map snd paste_entries]. unfold mbind, get_state.
  cbn [List.length Nat.leb]. unfold applyData_at.
  cbn [nth_error].
  destruct (applyData keyframe_points_insert remove_keys_where items "insert"
              (keyframe_points target)) as [points r].
  cbn [snd] in H. subst r. reflexivity.
Qed.

End CopyPasteFacts.

(** C4 (the code at the failing input): after copyKey on a curve with two
    keys, pasteKey with the default option onto the same curve raises
    TypeError at the first copied key; the curve then holds one more key,
    with the handles and interpolation the host gave it, not the copied
    ones. This happens after copyKey on any curve with a key. For an
    object/attribute argument copyKey stores an empty key list (its query
    runs on the empty list of curves), and pasteKey raises as well. *)
Theorem pasteKey_after_copyKey :
  pasteKey append_key drop_keys_where []
    (copyKey no_curves [two_key_curve] []) "insert" [two_key_curve] =
  ([FCurve 0 [key_at 0 0; key_at 10 5; Keyframe (0, 0) (0, 0) (0, 0) "FREE" "FREE" "LINEAR"]],
   Raise TypeError) /\
  (forall getFCurve keyframe_points_insert remove_keys_where id key keys target,
     snd (pasteKey keyframe_points_insert remove_keys_where []
            (copyKey getFCurve [FCurve id (key :: keys)] []) "insert" [target])
     = Raise TypeError) /\
  copyKey cube_curves [] [("Cube"%string, ["locationX"%string])] =
  BufferDict [] [("Cube"%string, [("locationX"%string, [])])] /\
  pasteKey append_key drop_keys_where [("Cube"%string, ["locationX"%string])]
    (copyKey cube_curves [] [("Cube"%string, ["locationX"%string])]) "insert" [] =
  ([], Raise TypeError).
Proof.
  split; [|split; [|split]].
  - vm_compute. reflexivity.
  - intros. apply pasteKey_after_copyKey_raises.
  - reflexivity.
  - reflexivity.
Qed.

(* ================================================================== *)
(** * C10: bakeSimulation and the key buffer *)
(* ================================================================== *)

(** bakeSimulation on an attribute that has an animation curve leaves the
    buffer of its cutKey call in the global. *)
Lemma bakeSimulation_buffer_after (H : Type)
      (breakConnections : string -> string -> H -> H)
      (getFCurve_of : H -> string -> string -> option fcurve)
      (setKeyframe : string -> string -> Q -> pyval -> H -> H)
      (currentTime_set : Q -> H -> H)
      (object attribute : string) (keyInfo : list (Q * pyval)) (frame : Q)
      (w : world H) (curve : fcurve) :
  getFCurve_of (breakConnections object attribute (host w)) object attribute = Some curve ->
  COPY_KEY_BUFFER
    (fst (bakeSimulation_write breakConnections getFCurve_of setKeyframe currentTime_set
            [(object, [(attribute, keyInfo)])] frame w)) =
  BufferDict [] [(object, [(attribute, [])])].
Proof.
  intros Hc. unfold bakeSimulation_write. cbn [fold_left fst snd COPY_KEY_BUFFER].
  unfold bake_attribute. cbn [fst snd host COPY_KEY_BUFFER]. rewrite Hc.
  unfold cutKey_global, cutKey, copyKey.
  cbn [fold_left fst snd host COPY_KEY_BUFFER copyKey_attributes].
  rewrite Hc. cbn [od_set]. rewrite String.eqb_refl. reflexivity.
Qed.

(** C10 (the code at the failing input): with a buffer that holds a copied
    key and an object whose attribute has an animation curve,
    bakeSimulation ends with another value in COPY_KEY_BUFFER; the saved
    buffer is only bound to the local name COPY_BUFFER. Without an
    animation curve the buffer is untouched. *)
Theorem bakeSimulation_overwrites_buffer :
  COPY_KEY_BUFFER
    (fst (bakeSimulation_write still_scene (fun _ => cube_curves) keep_scene still_time
            [("Cube"%string, [("locationX"%string, [(1, VNum 3)])])] 1
            (World tt held_buffer))) =
  BufferDict [] [("Cube"%string, [("locationX"%string, [])])] /\
  COPY_KEY_BUFFER
    (fst (bakeSimulation_write still_scene (fun _ => cube_curves) keep_scene still_time
            [("Cube"%string, [("locationX"%string, [(1, VNum 3)])])] 1
            (World tt held_buffer))) <> held_buffer /\
  COPY_BUFFER
    (snd (bakeSimulation_write still_scene (fun _ => cube_curves) keep_scene still_time
            [("Cube"%string, [("locationX"%string, [(1, VNum 3)])])] 1
            (World tt held_buffer))) = held_buffer /\
  COPY_KEY_BUFFER
    (fst (bakeSimulation_write still_scene (fun _ => no_curves) keep_scene still_time
            [("Cube"%string, [("locationX"%string, [(1, VNum 3)])])] 1
            (World tt held_buffer))) = held_buffer.
Proof.
  split; [|split; [|split]].
  - apply (@bakeSimulation_buffer_after unit still_scene (fun _ => cube_curves) keep_scene
             still_time "Cube"%string "locationX"%string [(1, VNum 3)] 1
             (World tt held_buffer) two_key_curve).
    reflexivity.
  - intros H. discriminate H.
  - reflexivity.
  - reflexivity.
Qed.

(* ================================================================== *)
(** * C9: parent and child links of AbstractBaseMixin *)
(* ================================================================== *)

(** C9 (the code at the failing input): with three fresh items A, B, C
    (0, 1, 2), [A.addChild(C)] gives consistent links, and
    [C.setParent(B)] after it returns True with C in the child lists of
    both A and B while [C.getParent()] is B. [C.setParent(None)] after
    [A.addChild(C)] hands the item to removeChild as the position: an
    exception is raised, C has no parent and stays in A's child list. *)
Theorem setParent_keeps_old_link :
  Tree.run_all [Tree.AddChild 0 2] Tree.three_items =
    ([Tree.Item [2%nat] None false; Tree.new_item; Tree.Item [] (Some 0%nat) false], OK tt) /\
  Tree.consistent (fst (Tree.run_all [Tree.AddChild 0 2] Tree.three_items)) = true /\
  Tree.run_all [Tree.AddChild 0 2; Tree.SetParent 2 (Some 1%nat)] Tree.three_items =
    ([Tree.Item [2%nat] None false; Tree.Item [2%nat] None false;
      Tree.Item [] (Some 1%nat) false], OK tt) /\
  Tree.setParent 2 (Some 1%nat) (fst (Tree.run_all [Tree.AddChild 0 2] Tree.three_items)) =
    ([Tree.Item [2%nat] None false; Tree.Item [2%nat] None false;
      Tree.Item [] (Some 1%nat) false], OK (Some true)) /\
  Tree.consistent
    (fst (Tree.run_all [Tree.AddChild 0 2; Tree.SetParent 2 (Some 1%nat)] Tree.three_items))
  = false /\
  Tree.run_all [Tree.AddChild 0 2; Tree.SetParent 2 None] Tree.three_items =
    ([Tree.Item [2%nat] None false; Tree.new_item; Tree.Item [] None false],
     Raise TypeError) /\
  Tree.consistent
    (fst (Tree.run_all [Tree.AddChild 0 2; Tree.SetParent 2 None] Tree.three_items))
  = false.
Proof. repeat split; reflexivity. Qed.

(* ================================================================== *)
(** * C8: batch *)
(* ================================================================== *)

Section BatchFacts.

Variables A B : Type.
Variable function : list A -> list B.

(** ** Slicing *)





(** ** Dictionaries *)







(** ** The queue *)



Section Schedule.

Variable batches : list (list A).
Variable owner : nat -> nat.







End Schedule.




End BatchFacts.





(* ================================================================== *)
(** * Further properties: types.py *)
(* ================================================================== *)

Lemma parseArgs_all_None (skipped rest : list pyval) (default : pyval) :
  Forall (fun a => a = VNone) skipped ->
  parseArgs_kw (skipped ++ rest) default = parseArgs_kw rest default.
Proof.
  induction 1 as [|a skipped -> _ IH]; cbn [app parseArgs_kw]; [reflexivity|exact IH].
Qed.

(** X1: parseArgs returns the first argument that is not None, whatever
    follows it and however many None arguments precede it; when every
    argument is None it returns the default keyword (None when absent). *)
Theorem parseArgs_first_not_None :
  forall (skipped rest : list pyval) (v default : pyval),
    Forall (fun a => a = VNone) skipped ->
    (v <> VNone -> parseArgs_kw (skipped ++ v :: rest) default = v) /\
    parseArgs_kw skipped default = default /\
    parseArgs skipped = VNone.
Proof.
  intros skipped rest v default Hs. split; [|split].
  - intros Hv. rewrite (parseArgs_all_None _ default Hs).
    destruct v; try reflexivity. contradiction.
  - rewrite <- (app_nil_r skipped). now rewrite (parseArgs_all_None _ default Hs).
  - unfold parseArgs. rewrite <- (app_nil_r skipped).
    now rewrite (parseArgs_all_None _ VNone Hs).
Qed.

Lemma parseArgs_first_not_None_witness :
  parseArgs_kw ([VNone; VNone] ++ VBool false :: [VNum 3]) (VNum 7) = VBool false /\
  parseArgs_kw [VNone; VNone] (VNum 7) = VNum 7.
Proof.
  destruct (@parseArgs_first_not_None [VNone; VNone] [VNum 3] (VBool false) (VNum 7))
    as (H1 & H2 & _); [repeat constructor|].
  split; [apply H1; discriminate|exact H2].
Defined.



(** X3: asFloat never fails and reads the words true, false and none in
    any spelling of upper and lower case as 1, 0 and 0 (before the string is
    parsed as a number); None, lists, tuples and host objects give 0, and a
    string that float() does not parse (and that does not spell true) gives
    0. *)
Theorem asFloat_words :
  forall float_of_string : string -> option Q,
    (forall s, str_lower s = "true"%string -> asFloat float_of_string (VStr s) = 1) /\
    (forall s, str_lower s = "false"%string \/ str_lower s = "none"%string ->
       asFloat float_of_string (VStr s) = 0) /\
    (forall s, float_of_string s = None -> str_lower s <> "true"%string ->
       asFloat float_of_string (VStr s) = 0) /\
    (forall l, asFloat float_of_string (VList l) = 0 /\
               asFloat float_of_string (VTuple l) = 0) /\
    (forall o, asFloat float_of_string (VObj o) = 0) /\
    asFloat float_of_string VNone = 0.
Proof.
  intros f. split; [|split; [|split; [|split; [|split]]]].
  - intros s Hs. cbn [asFloat]. rewrite Hs. reflexivity.
  - intros s [Hs|Hs]; cbn [asFloat]; rewrite Hs; reflexivity.
  - intros s Hs Hne. cbn [asFloat]. rewrite Hs.
    destruct (String.eqb (str_lower s) "false"); [reflexivity|].
    destruct (String.eqb (str_lower s) "true") eqn:E.
    + apply String.eqb_eq in E. contradiction.
    + destruct (String.eqb (str_lower s) "none"); reflexivity.
  - intros l. split; reflexivity.
  - reflexivity.
  - reflexivity.
Qed.

(** A parser that knows two strings. *)
Lemma asFloat_words_witness :
  asFloat two_floats (VStr "TRUE") = 1 /\
  asFloat two_floats (VStr "None") = 0 /\
  asFloat two_floats (VStr "abc") = 0.
Proof.
  destruct (asFloat_words two_floats) as (Htrue & Hnone & Hbad & _).
  split; [apply Htrue; reflexivity|].
  split; [apply Hnone; right; reflexivity|].
  apply Hbad; [reflexivity|discriminate].
Defined.

(* ================================================================== *)
(** * parseDouble *)
(* ================================================================== *)



(* ================================================================== *)
(** * transform: validifyVector and mergeTuples *)
(* ================================================================== *)







(** X5: mergeTuples on a vector of three numbers and a vector of three
    entries that are numbers or None.  An absolute merge replaces a
    component by its entry and keeps it where the entry is None, so three
    None entries change nothing.  In both modes a number other than zero
    stands for the vector with that number three times, and None, zero,
    False and the empty list stand for the zero vector. *)
Theorem mergeTuples_components :
  forall (a0 a1 a2 : Q) (b0 b1 b2 : option Q),
    let a := VList [VNum a0; VNum a1; VNum a2] in
    let b := VTuple [opt_num b0; opt_num b1; opt_num b2] in
    mergeTuples a b true =
      OK [VNum (match b0 with Some q => q | None => a0 end);
          VNum (match b1 with Some q => q | None => a1 end);
          VNum (match b2 with Some q => q | None => a2 end)] /\
    (forall (s : Q) (absolute : bool), ~ s == 0 ->
       mergeTuples a (VNum s) absolute =
       mergeTuples a (VList [VNum s; VNum s; VNum s]) absolute) /\
    (forall (absolute : bool) (z : pyval), truthy z = false ->
       mergeTuples a z absolute = mergeTuples a (VList [VNum 0; VNum 0; VNum 0]) absolute).
Proof.
  intros a0 a1 a2 b0 b1 b2 a b. split; [|split].
  - unfold a, b. destruct b0, b1, b2; reflexivity.
  - intros s absolute Hs. unfold mergeTuples, a.
    assert (E : validifyVector (VNum s) = OK [VNum s; VNum s; VNum s]).
    { unfold validifyVector. cbn [truthy].
      destruct (Qeq_bool s 0) eqn:E; [|reflexivity].
      apply Qeq_bool_iff in E. contradiction. }
    rewrite E. reflexivity.
  - intros absolute z Hz. unfold mergeTuples.
    assert (E : validifyVector z = OK [VNum 0; VNum 0; VNum 0]).
    { unfold validifyVector. now rewrite Hz. }
    rewrite E. reflexivity.
Qed.

Lemma mergeTuples_components_witness :
  mergeTuples (VList [VNum 1; VNum 2; VNum 3]) (VNum 5) true =
  mergeTuples (VList [VNum 1; VNum 2; VNum 3]) (VList [VNum 5; VNum 5; VNum 5]) true /\
  mergeTuples (VList [VNum 1; VNum 2; VNum 3]) VNone false =
  mergeTuples (VList [VNum 1; VNum 2; VNum 3]) (VList [VNum 0; VNum 0; VNum 0]) false.
Proof.
  destruct (mergeTuples_components 1 2 3 None None None) as (_ & Hs & Hz).
  split.
  - apply Hs. discriminate.
  - apply Hz. reflexivity.
Defined.



(* ================================================================== *)
(** * ExtendedDict *)
(* ================================================================== *)


Lemma ed_find_set (i k : string) (v : dval) (d : list (string * dval)) :
  ed_find i (od_set String.eqb k v d) = if String.eqb i k then Some v else ed_find i d.
Proof.
  induction d as [|[k' v'] d IH]; cbn [od_set ed_find].
  - reflexivity.
  - destruct (String.eqb_spec k k') as [->|Hk]; cbn [ed_find].
    + destruct (String.eqb i k'); reflexivity.
    + rewrite IH. destruct (String.eqb_spec i k') as [->|Hi]; [|reflexivity].
      destruct (String.eqb_spec k' k); [congruence|reflexivity].
Qed.




(** X7: an ExtendedDict reads back what was stored: after self[key] =
    value, the key holds the value (a plain dictionary converted to an
    ExtendedDict) and every other key holds what it held before.  Reading a
    missing key does not fail: it returns an empty ExtendedDict and stores
    it under the key, so that a second read returns the same and changes
    nothing; reading a key that is present changes nothing; no read changes
    another key. *)
Theorem ExtendedDict_get_set :
  forall (self : list (string * dval)) (key : string),
    (forall value, ed_find key (ed_setitem key value self) = Some (to_extended value)) /\
    (forall value other, other <> key ->
       ed_find other (ed_setitem key value self) = ed_find other self) /\
    (ed_find key self = None ->
       snd (ed_getitem key self) = Ext [] /\
       ed_find key (fst (ed_getitem key self)) = Some (Ext [])) /\
    (forall found, ed_find key self = Some found -> ed_getitem key self = (self, found)) /\
    ed_getitem key (fst (ed_getitem key self)) =
      (fst (ed_getitem key self), snd (ed_getitem key self)) /\
    (forall other, other <> key ->
       ed_find other (fst (ed_getitem key self)) = ed_find other self).
Proof.
  intros self key. split; [|split; [|split; [|split; [|split]]]].
  - intros value. unfold ed_setitem. rewrite ed_find_set. now rewrite String.eqb_refl.
  - intros value other Hne. unfold ed_setitem. rewrite ed_find_set.
    destruct (String.eqb_spec other key); [contradiction|reflexivity].
  - intros Hnone. unfold ed_getitem. rewrite Hnone. cbn [fst snd]. split; [reflexivity|].
    rewrite ed_find_set. now rewrite String.eqb_refl.
  - intros found Hfound. unfold ed_getitem. now rewrite Hfound.
  - destruct (ed_find key self) as [found|] eqn:E.
    + assert (G : ed_getitem key self = (self, found)) by (unfold ed_getitem; now rewrite E).
      rewrite G. cbn [fst snd]. exact G.
    + assert (G : ed_getitem key self = (od_set String.eqb key (Ext []) self, Ext []))
        by (unfold ed_getitem; now rewrite E).
      rewrite G. cbn [fst snd]. unfold ed_getitem.
      rewrite ed_find_set, String.eqb_refl. reflexivity.
  - intros other Hne. unfold ed_getitem.
    destruct (ed_find key self) as [found|]; cbn [fst]; [reflexivity|].
    rewrite ed_find_set. destruct (String.eqb_spec other key); [contradiction|reflexivity].
Qed.

Lemma ExtendedDict_get_set_witness :
  ed_find "b" (ed_setitem "a" (Plain [("x"%string, Leaf (VNum 1))]) [("b"%string, Leaf VNone)])
    = Some (Leaf VNone) /\
  snd (ed_getitem "c" [("b"%string, Leaf VNone)]) = Ext [] /\
  ed_getitem "b" [("b"%string, Leaf VNone)] = ([("b"%string, Leaf VNone)], Leaf VNone).
Proof.
  split; [|split].
  - destruct (ExtendedDict_get_set [("b"%string, Leaf VNone)] "a") as (_ & H & _).
    change (Some (Leaf VNone)) with (ed_find "b" [("b"%string, Leaf VNone)]).
    apply H. discriminate.
  - destruct (ExtendedDict_get_set [("b"%string, Leaf VNone)] "c") as (_ & _ & H & _).
    apply H. reflexivity.
  - destruct (ExtendedDict_get_set [("b"%string, Leaf VNone)] "b") as (_ & _ & _ & H & _).
    apply H. reflexivity.
Defined.



(* ================================================================== *)
(** * Attribute names: fixed points, custom properties, input forms *)
(* ================================================================== *)

Section ResolutionFacts.

Variable bpy_data_get : string -> option hostobj.

Lemma str_filter_forall (p : ascii -> bool) (s : string) :
  str_forall p (str_filter p s) = true.
Proof.
  induction s as [|c s IH]; cbn [str_filter str_forall]; [reflexivity|].
  destruct (p c) eqn:E; [|exact IH]. cbn [str_forall]. now rewrite E, IH.
Qed.

Lemma str_filter_nonempty (p : ascii -> bool) (s : string) :
  str_filter p s <> ""%string -> s <> ""%string.
Proof. destruct s; [intros H; exact H|discriminate]. Qed.

Lemma span_fst_forall (p : ascii -> bool) (s : string) :
  str_forall p (fst (span p s)) = true.
Proof.
  induction s as [|c s IH]; cbn [span]; [reflexivity|].
  destruct (p c) eqn:E; [|reflexivity].
  destruct (span p s) as [a b]. cbn [fst str_forall] in *. now rewrite E, IH.
Qed.

Lemma span_fst_keeps (p q : ascii -> bool) (s : string) :
  str_forall q s = true -> str_forall q (fst (span p s)) = true.
Proof.
  induction s as [|c s IH]; cbn [span]; [reflexivity|].
  intros H. cbn [str_forall] in H. apply andb_prop in H as [Hc Hs].
  destruct (p c); [|reflexivity].
  specialize (IH Hs). destruct (span p s) as [a b]. cbn [fst str_forall] in *.
  now rewrite Hc, IH.
Qed.

Lemma listIndex_here_name (s name index : string) :
  listIndex_here s = Some (name, index) -> name = fst (span is_path_char s).
Proof.
  unfold listIndex_here. destruct (span is_path_char s) as [n r1]. cbn [fst].
  destruct r1 as [|c r2]; [discriminate|].
  destruct (Ascii.eqb_spec c "["%char) as [->|Hc].
  - destruct (span is_digit r2) as [d r3]. destruct r3 as [|c3 r4]; [discriminate|].
    destruct (Ascii.eqb_spec c3 "]"%char) as [->|Hc3].
    + intros H. now injection H as <- _.
    + destruct c3 as [[] [] [] [] [] [] [] []]; try discriminate. contradiction Hc3.
      reflexivity.
  - destruct c as [[] [] [] [] [] [] [] []]; try discriminate. contradiction Hc.
    reflexivity.
Qed.

Lemma listIndex_first_name (q : ascii -> bool) (s name index : string) :
  str_forall q s = true ->
  listIndex_first s = Some (name, index) ->
  str_forall is_path_char name = true /\ str_forall q name = true.
Proof.
  induction s as [|c s IH]; intros Hq H.
  - cbn in H. discriminate.
  - cbn [listIndex_first] in H.
    destruct (listIndex_here (String c s)) as [m|] eqn:E.
    + injection H as ->. apply listIndex_here_name in E. subst name.
      split; [apply span_fst_forall|now apply span_fst_keeps].
    + cbn [str_forall] in Hq. apply andb_prop in Hq as [_ Hs]. now apply IH.
Qed.

Lemma path_no_dot_clean (s : string) :
  str_forall is_path_char s = true -> no_dot s = true -> clean_name s = true.
Proof.
  unfold no_dot, clean_name. induction s as [|c s IH]; cbn [str_forall]; [reflexivity|].
  intros H1 H2. apply andb_prop in H1 as [Hc1 Hs1]. apply andb_prop in H2 as [Hc2 Hs2].
  rewrite (IH Hs1 Hs2), andb_true_r.
  unfold is_path_char in Hc1. destruct (is_attr_char c); [reflexivity|].
  cbn [orb] in Hc1. rewrite Hc1 in Hc2. discriminate.
Qed.

Lemma convert_alias_cases (table : list (string * list string)) (a : string) :
  convert_alias table a = a \/ In (convert_alias table a) (map fst table).
Proof.
  induction table as [|[key values] table IH]; cbn [convert_alias map fst In].
  - now left.
  - destruct (str_mem a values); [right; now left|].
    destruct IH as [IH|IH]; [now left|right; now right].
Qed.

Lemma convert_alias_fixed (a : string) :
  clean_name a = true ->
  let r := convert_alias CONSTANTS.attributeConversion a in
  clean_name r = true /\ convert_alias CONSTANTS.attributeConversion r = r.
Proof.
  intros Hc r.
  assert (K : forallb (fun k => clean_name k &&
                                String.eqb (convert_alias CONSTANTS.attributeConversion k) k)
                      (map fst CONSTANTS.attributeConversion) = true) by reflexivity.
  destruct (convert_alias_cases CONSTANTS.attributeConversion a) as [E|Hin].
  - assert (Er : r = a) by exact E. rewrite Er. split; [exact Hc|exact E].
  - rewrite forallb_forall in K. specialize (K r Hin).
    apply andb_prop in K as [K1 K2]. apply String.eqb_eq in K2. now split.
Qed.

Lemma resolve_no_object (s : string) :
  s <> ""%string -> no_dot s = true ->
  resolveAttributeName bpy_data_get (VStr s) VNone =
  (a <- match listIndex_first s with
        | Some (name, index) =>
            i <- py_int index ;;
            match nth_error CONSTANTS.attributeIndicesInverse i with
            | Some axis => OK (name ++ axis)%string
            | None => Raise IndexError
            end
        | None => OK (reAttribute_sub s)
        end ;;
   OK (VStr (convert_alias CONSTANTS.attributeConversion a))).
Proof.
  intros Hne Hd. unfold resolveAttributeName.
  rewrite (truthy_str Hne). cbn [negb].
  rewrite (rsplit_dot_none _ Hd).
  unfold asObject, resolve_single.
  cbn [isType_list_tuple truthy negb bind]. reflexivity.
Qed.

Lemma resolved_is_clean (s r : string) :
  s <> ""%string -> no_dot s = true ->
  resolveAttributeName bpy_data_get (VStr s) VNone = OK (VStr r) ->
  exists a, clean_name a = true /\ r = convert_alias CONSTANTS.attributeConversion a.
Proof.
  intros Hne Hd H. rewrite (resolve_no_object Hne Hd) in H.
  destruct (listIndex_first s) as [[name index]|] eqn:E.
  - destruct (py_int index) as [i|e]; cbn [bind] in H; [|discriminate].
    destruct (nth_error CONSTANTS.attributeIndicesInverse i) as [axis|] eqn:Ea;
      cbn [bind] in H; [|discriminate].
    injection H as <-. eexists. split; [|reflexivity].
    destruct (listIndex_first_name _ s Hd E) as [Hp Hq].
    unfold clean_name. rewrite str_forall_app. fold (clean_name name).
    rewrite (path_no_dot_clean _ Hp Hq). cbn [andb].
    unfold CONSTANTS.attributeIndicesInverse in Ea.
    destruct i as [|[|[|[|i]]]]; cbn [nth_error] in Ea;
      try (injection Ea as <-; reflexivity).
    destruct i; discriminate.
  - cbn [bind] in H. injection H as <-. eexists. split; [|reflexivity].
    apply str_filter_forall.
Qed.

Lemma rsplit_dot_dotted (object attribute : string) :
  no_dot attribute = true ->
  rsplit_dot (dotted object attribute) = Some (object, attribute).
Proof.
  intros Hd. unfold dotted. induction object as [|c object IH].
  - cbn [append rsplit_dot]. fold rsplit_dot. rewrite (rsplit_dot_none _ Hd).
    reflexivity.
  - cbn [append rsplit_dot]. fold rsplit_dot. now rewrite IH.
Qed.

Lemma str_mem_In (s : string) (l : list string) : str_mem s l = true <-> In s l.
Proof.
  induction l as [|x l IH]; cbn [str_mem In].
  - split; [discriminate|contradiction].
  - rewrite orb_true_iff, IH. split.
    + intros [H|H]; [left; symmetry; now apply String.eqb_eq|now right].
    + intros [H|H]; [left; apply String.eqb_eq; now symmetry|now right].
Qed.

End ResolutionFacts.

(** X9: names outside the alias table aside, what resolveAttributeName
    returns is final.  For a string without a dot, resolved without an
    object: a non-empty result is made of letters, digits, dashes and
    underscores only and resolves to itself; and when the string has no
    opening bracket either, the characters outside that class play no role:
    the string resolves as the string without them does. *)
Theorem resolveAttributeName_fixed_point :
  forall (bpy_data_get : string -> option hostobj) (s : string),
    no_dot s = true ->
    (forall r, r <> ""%string ->
       resolveAttributeName bpy_data_get (VStr s) VNone = OK (VStr r) ->
       clean_name r = true /\
       resolveAttributeName bpy_data_get (VStr r) VNone = OK (VStr r)) /\
    (no_bracket s = true -> reAttribute_sub s <> ""%string ->
       resolveAttributeName bpy_data_get (VStr s) VNone =
       resolveAttributeName bpy_data_get (VStr (reAttribute_sub s)) VNone).
Proof.
  intros bpy s Hd. split.
  - intros r Hr H.
    assert (Hne : s <> ""%string).
    { intros ->. cbn in H. discriminate. }
    destruct (resolved_is_clean bpy Hne Hd H) as (a & Ha & ->).
    destruct (convert_alias_fixed a Ha) as [Hc Hfix]. split; [exact Hc|].
    rewrite (resolve_clean bpy Hr Hc). rewrite <- convert_alias_spec. now rewrite Hfix.
  - intros Hb Hne.
    pose proof (@str_filter_nonempty is_attr_char s Hne) as Hs.
    rewrite (resolve_no_object bpy Hs Hd).
    rewrite (listIndex_first_none _ Hb). cbn [bind].
    assert (Hc : clean_name (reAttribute_sub s) = true) by apply str_filter_forall.
    rewrite (resolve_clean bpy Hne Hc). now rewrite convert_alias_spec.
Qed.

Lemma resolveAttributeName_fixed_point_witness :
  (clean_name "locationX" = true /\
   resolveAttributeName empty_scene (VStr "locationX") VNone = OK (VStr "locationX")) /\
  resolveAttributeName empty_scene (VStr "t x!") VNone =
  resolveAttributeName empty_scene (VStr (reAttribute_sub "t x!")) VNone.
Proof.
  destruct (@resolveAttributeName_fixed_point empty_scene "t x!"%string eq_refl)
    as [H1 H2].
  split.
  - apply H1; [discriminate|reflexivity].
  - apply H2; [reflexivity|discriminate].
Defined.

(** X10: a custom property of the object wins over the alias table.  When
    the name is a key of the host object it is returned unchanged, also a
    name like tx that is an alias otherwise; the same holds when the object
    is given by its name in front of a dot; a name that is no key of the
    object resolves as it does without an object. *)
Theorem custom_property_before_alias :
  forall (bpy_data_get : string -> option hostobj) (o : hostobj) (s : string),
    s <> ""%string ->
    (In s (obj_keys o) ->
       resolveAttributeName bpy_data_get (VStr s) (VObj o) = OK (VStr s) /\
       (forall name, name <> ""%string -> bpy_data_get name = Some o -> no_dot s = true ->
          resolveAttributeName bpy_data_get (VStr s) (VStr name) = OK (VStr s) /\
          resolveAttributeName bpy_data_get (VStr (dotted name s)) VNone = OK (VStr s))) /\
    (~ In s (obj_keys o) -> no_dot s = true ->
       resolveAttributeName bpy_data_get (VStr s) (VObj o) =
       resolveAttributeName bpy_data_get (VStr s) VNone).
Proof.
  intros bpy o s Hne. split.
  - intros Hin. apply str_mem_In in Hin.
    assert (Hobj : resolveAttributeName bpy (VStr s) (VObj o) = OK (VStr s)).
    { unfold resolveAttributeName. rewrite (truthy_str Hne). cbn [negb].
      unfold asObject, resolve_single.
      cbn [isType_list_tuple truthy negb py_keys bind]. now rewrite Hin. }
    split; [exact Hobj|].
    intros name Hname Hget Hd.
    assert (Hnamed : resolve_single (VStr s) (asObject bpy (VStr name)) = OK (VStr s)).
    { unfold asObject. cbn [isType_list_tuple]. rewrite (truthy_str Hname). cbn [negb].
      rewrite Hget. unfold resolve_single. cbn [truthy py_keys bind]. now rewrite Hin. }
    split.
    + unfold resolveAttributeName. rewrite (truthy_str Hne). cbn [negb]. exact Hnamed.
    + unfold resolveAttributeName.
      assert (Hdot : dotted name s <> ""%string).
      { unfold dotted. destruct name; discriminate. }
      rewrite (truthy_str Hdot). cbn [negb].
      rewrite (rsplit_dot_dotted name _ Hd). exact Hnamed.
  - intros Hnot Hd.
    assert (Hmem : str_mem s (obj_keys o) = false).
    { destruct (str_mem s (obj_keys o)) eqn:E; [|reflexivity].
      apply str_mem_In in E. contradiction. }
    rewrite (resolve_no_object bpy Hne Hd).
    unfold resolveAttributeName. rewrite (truthy_str Hne). cbn [negb].
    unfold asObject, resolve_single.
    cbn [isType_list_tuple truthy negb py_keys bind]. now rewrite Hmem.
Qed.

Lemma custom_property_before_alias_witness :
  resolveAttributeName cube_scene (VStr "tx") (VObj cube) = OK (VStr "tx") /\
  resolveAttributeName cube_scene (VStr "Cube.tx") VNone = OK (VStr "tx") /\
  resolveAttributeName cube_scene (VStr "ty") (VObj cube) =
  resolveAttributeName cube_scene (VStr "ty") VNone.
Proof.
  assert (Hne : "tx"%string <> ""%string) by discriminate.
  assert (Hne' : "ty"%string <> ""%string) by discriminate.
  destruct (@custom_property_before_alias cube_scene cube "tx"%string Hne) as [H1 _].
  destruct (@custom_property_before_alias cube_scene cube "ty"%string Hne') as [_ H2].
  destruct (H1 (or_introl eq_refl)) as [Ha Hb].
  split; [exact Ha|]. split.
  - apply (Hb "Cube"%string); [discriminate|reflexivity|reflexivity].
  - apply H2; [|reflexivity]. intros [H|[]]. discriminate.
Defined.

(** X11: the input forms of parseObjectAttribute agree.  A list or tuple
    (object, attribute) with no separate attribute is parsed as the two
    arguments; a string object.attribute is parsed as the object name and
    the attribute, unless what follows the last dot starts with a digit:
    then the whole string is the object name (as in Cube.001) and the
    attribute is None; a non-empty string without a dot gives (None, None).
    The object returned is never a string. *)
Theorem parseObjectAttribute_forms :
  forall bpy_data_get : string -> option hostobj,
    let parse := parseObjectAttribute bpy_data_get in
    (forall o a, parse (VList [o; a]) VNone = parse o a /\
                 parse (VTuple [o; a]) VNone = parse o a) /\
    (forall object attribute,
       no_dot attribute = true -> attribute <> ""%string ->
       starts_with_digit attribute = false ->
       parse (VStr (dotted object attribute)) VNone =
       parse (VStr object) (VStr attribute)) /\
    (forall object suffix,
       no_dot suffix = true -> starts_with_digit suffix = true ->
       parse (VStr (dotted object suffix)) VNone =
       OK (asObject bpy_data_get (VStr (dotted object suffix)), VNone)) /\
    (forall s, s <> ""%string -> no_dot s = true ->
       parse (VStr s) VNone = OK (VNone, VNone)) /\
    (forall object attribute node a,
       parse (VStr object) attribute = OK (node, a) -> isType_str node = false).
Proof.
  intros bpy parse. unfold parse. split; [|split; [|split; [|split]]].
  - intros o a. split; reflexivity.
  - intros object attribute Hd Hne Hdigit.
    assert (Hdot : dotted object attribute <> ""%string).
    { unfold dotted. destruct object; discriminate. }
    cbn [parseObjectAttribute]. rewrite (truthy_str Hdot), (truthy_str Hne).
    cbn [truthy orb negb]. rewrite (rsplit_dot_dotted object _ Hd), Hdigit.
    rewrite orb_true_r. reflexivity.
  - intros object suffix Hd Hdigit.
    assert (Hdot : dotted object suffix <> ""%string).
    { unfold dotted. destruct object; discriminate. }
    cbn [parseObjectAttribute]. rewrite (truthy_str Hdot).
    cbn [truthy orb negb]. rewrite (rsplit_dot_dotted object _ Hd), Hdigit.
    reflexivity.
  - intros s Hne Hd. cbn [parseObjectAttribute]. rewrite (truthy_str Hne).
    cbn [truthy orb negb]. now rewrite (rsplit_dot_none _ Hd).
  - intros object attribute node a H.
    assert (Hobj : forall v, isType_str (asObject bpy v) = false).
    { intros v. unfold asObject.
      destruct (negb (truthy (if isType_list_tuple v then fi v else v))); [reflexivity|].
      destruct (if isType_list_tuple v then fi v else v); try reflexivity.
      destruct (bpy s); reflexivity. }
    cbn [parseObjectAttribute] in H.
    destruct (negb (truthy (VStr object) || truthy attribute)); [discriminate|].
    destruct (truthy attribute).
    + destruct (resolveAttributeName bpy attribute (asObject bpy (VStr object)));
        cbn [bind] in H; [|discriminate].
      injection H as <- _. apply Hobj.
    + destruct (rsplit_dot object) as [[o' a']|]; [|now injection H as <- _].
      destruct (starts_with_digit a').
      * destruct (resolveAttributeName bpy attribute (asObject bpy (VStr object)));
          cbn [bind] in H; [|discriminate].
        injection H as <- _. apply Hobj.
      * destruct (resolveAttributeName bpy (VStr a') (asObject bpy (VStr o')));
          cbn [bind] in H; [|discriminate].
        injection H as <- _. apply Hobj.
Qed.

Lemma parseObjectAttribute_forms_witness :
  parseObjectAttribute cube_scene (VStr "Cube.tx") VNone =
  parseObjectAttribute cube_scene (VStr "Cube") (VStr "tx") /\
  parseObjectAttribute cube_scene (VStr "Cube.001") VNone =
  OK (asObject cube_scene (VStr "Cube.001"), VNone) /\
  parseObjectAttribute cube_scene (VStr "Cube") VNone = OK (VNone, VNone) /\
  isType_str (VObj cube) = false.
Proof.
  destruct (parseObjectAttribute_forms cube_scene) as (_ & H1 & H2 & H3 & H4).
  split; [apply (H1 "Cube"%string "tx"%string); [reflexivity|discriminate|reflexivity]|].
  split; [apply (H2 "Cube"%string "001"%string); reflexivity|].
  split; [apply H3; [discriminate|reflexivity]|].
  apply (H4 "Cube"%string (VStr "tx") (VObj cube) (VStr "tx")). reflexivity.
Defined.

(** X12: asObjects returns only values that are true and no strings, in
    the order of the input and never more than the input has; a list of
    host objects is returned as it is, and a name that is not in the scene
    is dropped. *)
Theorem asObjects_only_objects :
  forall (bpy_data_get : string -> option hostobj) (objects : pyval),
    Forall (fun node => truthy node = true /\ isType_str node = false)
           (asObjects bpy_data_get objects) /\
    (List.length (asObjects bpy_data_get objects) <= List.length (asList objects))%nat /\
    (forall l : list hostobj,
       asObjects bpy_data_get (VList (map VObj l)) = map VObj l) /\
    (forall name rest, bpy_data_get name = None ->
       asObjects bpy_data_get (VList (VStr name :: rest)) =
       asObjects bpy_data_get (VList rest)).
Proof.
  intros bpy objects. split; [|split; [|split]].
  - unfold asObjects. apply Forall_forall. intros node Hin.
    apply filter_In in Hin as [Hin Ht]. split; [exact Ht|].
    apply in_map_iff in Hin as (v & <- & _). unfold asObject.
    destruct (negb (truthy (if isType_list_tuple v then fi v else v))); [reflexivity|].
    destruct (if isType_list_tuple v then fi v else v); try reflexivity.
    destruct (bpy s); reflexivity.
  - unfold asObjects. rewrite <- (length_map (asObject bpy) (asList objects)).
    apply filter_length_le.
  - intros l. unfold asObjects. cbn [asList].
    induction l as [|o l IH]; [reflexivity|].
    cbn [map filter]. unfold asObject at 1. cbn [isType_list_tuple truthy negb].
    now rewrite IH.
  - intros name rest Hnone. unfold asObjects. cbn [asList map filter].
    assert (E : truthy (asObject bpy (VStr name)) = false).
    { unfold asObject. cbn [isType_list_tuple].
      destruct (negb (truthy (VStr name))); [reflexivity|]. now rewrite Hnone. }
    now rewrite E.
Qed.

Lemma asObjects_only_objects_witness :
  asObjects cube_scene (VList (VStr "Sphere" :: [VStr "Cube"])) =
  asObjects cube_scene (VList [VStr "Cube"]).
Proof.
  destruct (asObjects_only_objects cube_scene VNone) as (_ & _ & _ & H).
  apply H. reflexivity.
Defined.

(* ================================================================== *)
(** * keyframe: getKeys, offsetKey and the edit mode *)
(* ================================================================== *)

Section KeyframeFacts.

Variable float_of_string : string -> option Q.
Variable select_control_point : keyframe -> bool.




Lemma getKeys_curve_all (selected : bool) (curve : nat) (keys : list keyframe) :
  getKeys_curve select_control_point VNone selected curve keys =
  OK (map (fun key => (key, curve))
          (filter (fun key => negb (selected && negb (select_control_point key))) keys)).
Proof.
  induction keys as [|key keys IH]; [reflexivity|].
  cbn [getKeys_curve is_none bind]. rewrite IH. cbn [bind filter negb].
  destruct (selected && negb (select_control_point key)); reflexivity.
Qed.

Lemma getKeys_curves_flat (time : pyval) (selected : bool) (keep : keyframe -> bool)
      (curves : list fcurve) :
  (forall curve keys,
     getKeys_curve select_control_point time selected curve keys =
     OK (map (fun key => (key, curve)) (filter keep keys))) ->
  getKeys_curves select_control_point time selected curves =
  OK (flat_map (fun curve => map (fun key => (key, fc_id curve))
                                 (filter keep (keyframe_points curve))) curves).
Proof.
  intros H. induction curves as [|curve curves IH]; [reflexivity|].
  cbn [getKeys_curves flat_map]. rewrite H, IH. reflexivity.
Qed.

End KeyframeFacts.


(** X14: with lastSelected set, getKeys keeps one entry only, and it is
    the first of the selected keys in the order of the curves and their
    keys, not the last; when no key is selected the lookup of that first
    entry raises IndexError. *)
Theorem getKeys_lastSelected_first :
  forall (float_of_string : string -> option Q) (select_control_point : keyframe -> bool)
         (curves : list fcurve) (selected lastSelected : pyval),
    truthy lastSelected = true ->
    let chosen :=
      flat_map (fun curve => map (fun key => (key, fc_id curve))
                                 (filter select_control_point (keyframe_points curve)))
               curves in
    getKeys float_of_string select_control_point curves VNone selected lastSelected =
    match chosen with
    | [] => Raise IndexError
    | first :: _ => OK [first]
    end.
Proof.
  intros f sel curves selected lastSelected Hl chosen.
  unfold getKeys. cbn [is_none bind]. rewrite Hl, orb_true_r.
  rewrite (@getKeys_curves_flat sel _ _ _ curves
             (fun curve keys => getKeys_curve_all sel true curve keys)).
  cbn [bind andb].
  assert (E : forall keys : list keyframe,
             filter (fun key => negb (negb (sel key))) keys = filter sel keys).
  { intros keys. apply filter_ext. intros key. apply negb_involutive. }
  assert (G : flat_map (fun curve => map (fun key => (key, fc_id curve))
                 (filter (fun key => negb (negb (sel key))) (keyframe_points curve))) curves
              = chosen).
  { unfold chosen. apply flat_map_ext. intros curve. now rewrite E. }
  rewrite G. reflexivity.
Qed.

Lemma getKeys_lastSelected_first_witness :
  getKeys two_floats (fun key => Qle_bool 5 (fst (co key))) [two_key_curve]
          VNone VNone (VBool true) = OK [(key_at 10 5, 0%nat)] /\
  getKeys two_floats (fun _ => false) [two_key_curve] VNone VNone (VBool true) =
  Raise IndexError.
Proof.
  split.
  - apply (@getKeys_lastSelected_first two_floats (fun key => Qle_bool 5 (fst (co key)))
             [two_key_curve] VNone (VBool true) eq_refl).
  - apply (@getKeys_lastSelected_first two_floats (fun _ => false)
             [two_key_curve] VNone (VBool true) eq_refl).
Defined.

(** X15: offsetKey touches the chosen coordinate only: the other
    coordinate of the key and of its two handles, the handle types and the
    interpolation stay as they are; an absolute move puts the coordinate of
    the key at the value given. *)
Theorem offsetKey_frame :
  forall (key : keyframe) (index : axis) (value : Q) (absolute : bool),
    let moved := offsetKey key index value absolute in
    let other := match index with AxisX => AxisY | AxisY => AxisX end in
    (vec_get other (co moved) = vec_get other (co key) /\
     vec_get other (handle_left moved) = vec_get other (handle_left key) /\
     vec_get other (handle_right moved) = vec_get other (handle_right key)) /\
    (handle_left_type moved = handle_left_type key /\
     handle_right_type moved = handle_right_type key /\
     interpolation moved = interpolation key) /\
    (absolute = true -> vec_get index (co moved) = value).
Proof.
  intros key index value absolute moved other. unfold moved, other, offsetKey.
  destruct key as [[cx cy] [lx ly] [rx ry] lt rt ip].
  destruct index, absolute; cbn [vec_get vec_set co handle_left handle_right
                                  handle_left_type handle_right_type interpolation fst snd];
    repeat split; try reflexivity; intros H; discriminate H.
Qed.

Lemma offsetKey_frame_witness :
  vec_get AxisX (co (offsetKey (key_at 10 5) AxisX 3 true)) = 3.
Proof.
  destruct (offsetKey_frame (key_at 10 5) AxisX 3 true) as (_ & _ & H).
  apply H. reflexivity.
Defined.

(** X16: the edit mode of keyframe takes 0, False and None as no change:
    when neither timeChange nor valueChange is anything else the keys stay
    as they are and False is returned, also for an absolute move to time or
    value 0.  A timeChange by a number other than zero, with no
    valueChange, returns True and leaves the value of every key and the
    number of keys as they are. *)
Theorem keyframe_edit_changes :
  forall (float_of_string : string -> option Q) (keys : list keyframe),
    let edit := keyframe_edit float_of_string keys in
    (forall timeChange valueChange absolute,
       In timeChange [VNone; VBool false; VNum 0] ->
       In valueChange [VNone; VBool false; VNum 0] ->
       edit timeChange valueChange absolute = (keys, false)) /\
    (forall (d : Q) (absolute : pyval), ~ d == 0 ->
       snd (edit (VNum d) VNone absolute) = true /\
       map (fun key => snd (co key)) (fst (edit (VNum d) VNone absolute)) =
         map (fun key => snd (co key)) keys /\
       List.length (fst (edit (VNum d) VNone absolute)) = List.length keys).
Proof.
  intros f keys edit. unfold edit. split.
  - intros tc vc absolute Ht Hv.
    assert (Et : change_requested tc = false).
    { destruct Ht as [<-|[<-|[<-|[]]]]; reflexivity. }
    assert (Ev : change_requested vc = false).
    { destruct Hv as [<-|[<-|[<-|[]]]]; reflexivity. }
    unfold keyframe_edit. now rewrite Et, Ev.
  - intros d absolute Hd.
    assert (Et : change_requested (VNum d) = true).
    { unfold change_requested. cbn [py_eqb is_none orb].
      destruct (Qeq_bool d 0) eqn:E; [|reflexivity].
      apply Qeq_bool_eq in E. contradiction. }
    unfold keyframe_edit. rewrite Et. cbn [change_requested py_eqb is_none orb negb fst snd
                                            asFloat].
    split; [reflexivity|]. rewrite !map_map, length_map.
    split; [|reflexivity]. apply map_ext. intros [[cx cy] l r lt rt ip].
    unfold offsetKey. destruct (truthy absolute); reflexivity.
Qed.

Lemma keyframe_edit_changes_witness :
  keyframe_edit two_floats two_key_curve.(keyframe_points) (VNum 0) VNone (VBool true) =
    (two_key_curve.(keyframe_points), false) /\
  snd (keyframe_edit two_floats two_key_curve.(keyframe_points) (VNum 2) VNone VNone) = true.
Proof.
  destruct (keyframe_edit_changes two_floats two_key_curve.(keyframe_points)) as [H1 H2].
  split.
  - apply H1; cbn [In]; auto.
  - apply H2. discriminate.
Defined.


(* ================================================================== *)
(** * scaleKey and copyKey: edges *)
(* ================================================================== *)



Section CopyKeyFacts.

Variable getFCurve : string -> string -> option fcurve.





End CopyKeyFacts.



(* ================================================================== *)
(** * batch: the batches and the number of threads *)
(* ================================================================== *)

Lemma range_step_bound (n size k : nat) :
  (0 < size)%nat -> (k < (n + size - 1) / size)%nat -> (k * size < n)%nat.
Proof.
  intros Hs Hk.
  pose proof (Nat.Div0.mul_div_le (n + size - 1) size) as H.
  nia.
Qed.

Lemma range_step_full (n size k : nat) :
  (0 < size)%nat -> (S k < (n + size - 1) / size)%nat -> (k * size + size <= n)%nat.
Proof.
  intros Hs Hk.
  pose proof (Nat.Div0.mul_div_le (n + size - 1) size) as H.
  nia.
Qed.

(** X19: the batches of batch.  Every batch has at least one item and at
    most batchSize items (one item when batchSize is below 1), every batch
    but the last has exactly that many, and there is no batch for no items.
    The threads argument cannot limit the number of worker threads: one
    thread for each batch is started at least, and exactly that many when
    threads is not larger than the number of batches. *)
Theorem batch_sizes :
  forall (A : Type) (items : list A) (batchSize threads : Z),
    let batches := batches_of items batchSize in
    let size := batch_size batchSize in
    Forall (fun b => (1 <= List.length b <= size)%nat) batches /\
    (forall k, (S k < List.length batches)%nat ->
       List.length (nth k batches []) = size) /\
    (items = [] -> batches = []) /\
    (List.length batches <= numThreads (List.length batches) threads)%nat /\
    ((threads <= Z.of_nat (List.length batches))%Z ->
       numThreads (List.length batches) threads = List.length batches).
Proof.
  intros A items batchSize threads batches size.
  assert (Hs : (0 < size)%nat).
  { unfold size, batch_size. destruct (batchSize <? 1)%Z eqn:E; [lia|].
    apply Z.ltb_ge in E. lia. }
  assert (Hlen : List.length batches = ((List.length items + size - 1) / size)%nat).
  { unfold batches, batches_of, range_step. fold size.
    now rewrite !length_map, length_seq. }
  split; [|split; [|split; [|split]]].
  - unfold batches, batches_of, range_step. fold size.
    apply Forall_forall. intros b Hin.
    apply in_map_iff in Hin as (i & <- & Hi).
    apply in_map_iff in Hi as (k & <- & Hk). apply in_seq in Hk.
    pose proof (@range_step_bound (List.length items) size k Hs ltac:(lia)) as Hb.
    rewrite length_firstn, length_skipn. lia.
  - intros k Hk. rewrite Hlen in Hk.
    unfold batches, batches_of, range_step. fold size.
    rewrite map_map.
    rewrite (nth_indep _ [] (firstn size (skipn (0 * size) items)))
      by (rewrite length_map, length_seq; lia).
    rewrite (map_nth (fun k0 => firstn size (skipn (k0 * size) items))
                     (seq 0 ((List.length items + size - 1) / size)) 0%nat k).
    rewrite seq_nth by lia. cbn [Nat.add].
    pose proof (@range_step_full (List.length items) size k Hs Hk) as Hb.
    rewrite length_firstn, length_skipn. lia.
  - intros ->. unfold batches, batches_of, range_step. fold size. cbn [List.length].
    replace ((0 + size - 1) / size)%nat with 0%nat; [reflexivity|].
    symmetry. apply Nat.div_small. lia.
  - unfold numThreads. lia.
  - intros Ht. unfold numThreads. destruct (threads <? 1)%Z; lia.
Qed.

Lemma batch_sizes_witness :
  List.length (nth 0 (batches_of [1; 2; 3; 4; 5]%nat 2) []) = batch_size 2 /\
  batches_of (@nil nat) 2 = [] /\
  numThreads (List.length (batches_of [1; 2; 3; 4; 5]%nat 2)) 1 =
  List.length (batches_of [1; 2; 3; 4; 5]%nat 2).
Proof.
  destruct (batch_sizes [1; 2; 3; 4; 5]%nat 2 1) as (_ & H1 & _ & _ & H2).
  destruct (batch_sizes (@nil nat) 2 1) as (_ & _ & H3 & _).
  split; [apply H1; vm_compute; lia|].
  split; [apply H3; reflexivity|].
  apply H2. vm_compute. discriminate.
Defined.

(* ================================================================== *)
(** * AbstractBaseMixin: items that are linked *)
(* ================================================================== *)

Section TreeFacts.

Import Tree TreeQueries.

Lemma set_nth_cons_S (X : Type) (i : nat) (f : X -> X) (x : X) (l : list X) :
  set_nth (S i) f (x :: l) = x :: set_nth i f l.
Proof. reflexivity. Qed.

Lemma length_set_nth (X : Type) (i : nat) (f : X -> X) (l : list X) :
  List.length (set_nth i f l) = List.length l.
Proof.
  revert i. induction l as [|x l IH]; intros [|i]; try reflexivity.
  rewrite set_nth_cons_S. cbn [List.length]. now rewrite IH.
Qed.

Lemma nth_set_nth (X : Type) (i j : nat) (f : X -> X) (l : list X) (d : X) :
  nth j (set_nth i f l) d =
  if Nat.eqb j i && Nat.ltb i (List.length l) then f (nth i l d) else nth j l d.
Proof.
  revert i j. induction l as [|x l IH]; intros i j.
  - destruct i, j; cbn; try reflexivity. now rewrite andb_false_r.
  - destruct i as [|i].
    + destruct j; reflexivity.
    + rewrite set_nth_cons_S. destruct j as [|j]; [reflexivity|].
      cbn [nth List.length]. rewrite IH. reflexivity.
Qed.

Lemma get_set_nth (i j : nat) (f : item -> item) (h : heap) :
  get (set_nth i f h) j =
  if Nat.eqb j i && Nat.ltb i (List.length h) then f (get h i) else get h j.
Proof. apply nth_set_nth. Qed.

Lemma mem_In (x : nat) (l : list nat) : mem x l = true <-> In x l.
Proof.
  unfold mem. rewrite existsb_exists. split.
  - intros (y & Hy & E). apply Nat.eqb_eq in E. now subst.
  - intros H. exists x. split; [exact H|apply Nat.eqb_refl].
Qed.

Lemma NoDup_snoc (x : nat) (l : list nat) : NoDup l -> ~ In x l -> NoDup (l ++ [x]).
Proof.
  intros Hl Hx. apply NoDup_app; [exact Hl|repeat constructor; intros []|].
  intros y Hy [<-|[]]. contradiction.
Qed.

Lemma NoDup_without (i : nat) (l : list nat) :
  NoDup l -> NoDup (firstn i l ++ skipn (S i) l).
Proof.
  revert i. induction l as [|x l IH]; intros i H.
  - destruct i; constructor.
  - inversion H as [|? ? Hx Hl]; subst. destruct i as [|i]; [exact Hl|].
    cbn [firstn skipn app]. constructor; [|now apply IH].
    intros Hin. apply Hx. apply in_app_or in Hin as [Hin|Hin].
    + rewrite <- (firstn_skipn i l). apply in_or_app. now left.
    + rewrite <- (firstn_skipn (S i) l). apply in_or_app. now right.
Qed.

Lemma In_without (i c : nat) (l : list nat) :
  NoDup l -> (i < List.length l)%nat ->
  (In c (firstn i l ++ skipn (S i) l) <-> In c l /\ c <> nth i l 0%nat).
Proof.
  revert i. induction l as [|x l IH]; intros i H Hi; [cbn in Hi; lia|].
  inversion H as [|? ? Hx Hl]; subst. destruct i as [|i].
  - cbn [firstn skipn app nth In]. split.
    + intros Hin. split; [now right|]. intros ->. contradiction.
    + intros [[<-|Hin] Hne]; [contradiction|exact Hin].
  - cbn [firstn skipn app nth In]. cbn [List.length] in Hi.
    rewrite (IH i Hl ltac:(lia)). split.
    + intros [<-|[Hin Hne]].
      * split; [now left|]. intros E. apply Hx. rewrite E. apply nth_In. lia.
      * split; [now right|exact Hne].
    + intros [[<-|Hin] Hne]; [now left|right; now split].
Qed.

Unset Implicit Arguments.

Lemma in_range_ltb (i : nat) (h : heap) : (i < List.length h)%nat -> Nat.ltb i (List.length h) = true.
Proof. intros H. now apply Nat.ltb_lt. Qed.

Lemma run_SetParent_moving (fuel self p : nat) (h : heap) :
  internalMove (get h self) = true ->
  parent (get h self) <> Some p ->
  run (S fuel) (SetParent self (Some p)) h =
  (set_nth self (fun it => Item (children it) (Some p) (internalMove it)) h, OK (Some true)).
Proof.
  intros Hm Hp. cbn [run]. unfold mbind, get_state, upd, ret.
  assert (E : option_nat_eqb (parent (get h self)) (Some p) = false).
  { destruct (parent (get h self)) as [q|]; cbn; [|reflexivity].
    destruct (Nat.eqb_spec q p); [subst; contradiction|reflexivity]. }
  rewrite E, Hm. reflexivity.
Qed.

Lemma run_SetParent_None_moving (fuel self current : nat) (h : heap) :
  internalMove (get h self) = true ->
  parent (get h self) = Some current ->
  run (S fuel) (SetParent self None) h =
  (set_nth self (fun it => Item (children it) None (internalMove it)) h, OK (Some true)).
Proof.
  intros Hm Hp. cbn [run]. unfold mbind, get_state, upd, ret.
  rewrite Hp. cbn [option_nat_eqb].
  rewrite get_set_nth, Nat.eqb_refl. cbn [andb].
  destruct (Nat.ltb self (List.length h)); cbn [internalMove]; rewrite Hm; reflexivity.
Qed.

Lemma run_AddChild (fuel self child : nat) (h : heap) :
  validateItem h self child = true ->
  internalMove (get h self) = false ->
  run (S fuel) (AddChild self child) h =
  with_internalCallback child (run fuel (SetParent child (Some self)))
    (set_nth self (fun it => Item (children it ++ [child]) (parent it) (internalMove it)) h).
Proof.
  intros Hv Hf. cbn [run]. unfold mbind, get_state, upd, ret.
  rewrite Hv. cbn [negb].
  rewrite get_set_nth, Nat.eqb_refl. cbn [andb].
  destruct (Nat.ltb self (List.length h)); cbn [internalMove]; rewrite Hf; reflexivity.
Qed.

Lemma addChild_result (h : heap) (self child : nat) :
  validateItem h self child = true ->
  internalMove (get h self) = false ->
  parent (get h child) = None ->
  (self < List.length h)%nat -> (child < List.length h)%nat ->
  exists h',
    addChild self child h = (h', OK (Some true)) /\
    List.length h' = List.length h /\
    forall j, get h' j =
      if Nat.eqb j child
      then Item (if Nat.eqb child self then children (get h self) ++ [child]
                 else children (get h child)) (Some self) false
      else if Nat.eqb j self
      then Item (children (get h self) ++ [child]) (parent (get h self)) false
      else get h j.
Proof.
  intros Hv Hf Hp Hs Hc.
  unfold addChild, depth. rewrite (run_AddChild _ _ _ _ Hv Hf).
  unfold with_internalCallback, upd.
  set (h1 := set_nth self _ h).
  set (h2 := set_nth child _ h1).
  assert (L1 : List.length h1 = List.length h) by apply length_set_nth.
  assert (L2 : List.length h2 = List.length h) by (unfold h2; now rewrite length_set_nth).
  rewrite (@run_SetParent_moving 1 child self h2).
  - eexists. split; [reflexivity|]. split.
    + now rewrite !length_set_nth.
    + intros j. unfold h2, h1. rewrite !get_set_nth, !length_set_nth.
      rewrite !Nat.eqb_refl, !(in_range_ltb _ _ Hs), !(in_range_ltb _ _ Hc).
      cbn [andb]. rewrite !andb_true_r.
      destruct (Nat.eqb_spec j child) as [->|Hj].
      * destruct (Nat.eqb_spec child self) as [->|Hcs]; cbn [children]; reflexivity.
      * destruct (Nat.eqb_spec j self) as [->|Hjs]; [|reflexivity].
        cbn. now rewrite Hf.
  - unfold h2. rewrite get_set_nth, Nat.eqb_refl. rewrite L1, (in_range_ltb _ _ Hc). reflexivity.
  - unfold h2, h1. rewrite !get_set_nth, !length_set_nth, Nat.eqb_refl, (in_range_ltb _ _ Hc), (in_range_ltb _ _ Hs).
    cbn [andb parent]. rewrite andb_true_r.
    destruct (Nat.eqb_spec child self) as [->|Hcs]; cbn [parent]; rewrite Hp; discriminate.
Qed.

Lemma run_RemoveChild (fuel self : nat) (z : Z) (h : heap) :
  let cs := children (get h self) in
  let maxIndex := (Z.of_nat (List.length cs) - 1)%Z in
  (- maxIndex <= z <= maxIndex)%Z ->
  internalMove (get h self) = false ->
  run (S fuel) (RemoveChild self (PosInt z)) h =
  let i := py_pop_index z cs in
  let '(h', r) :=
    with_internalCallback (nth i cs 0%nat) (run fuel (SetParent (nth i cs 0%nat) None))
      (set_nth self (fun it => Item (firstn i (children it) ++ skipn (S i) (children it))
                                    (parent it) (internalMove it)) h) in
  match r with
  | OK _ => (h', OK None)
  | Raise e => (h', Raise e)
  end.
Proof.
  intros cs maxIndex Hz Hf. cbn [run]. unfold mbind, get_state, upd, ret.
  fold cs. fold maxIndex.
  assert (E : ((- maxIndex <=? z)%Z && (z <=? maxIndex)%Z) = true).
  { apply andb_true_intro. split; apply Z.leb_le; lia. }
  rewrite E. cbn [negb].
  rewrite get_set_nth, Nat.eqb_refl. cbn [andb].
  assert (F : internalMove (if Nat.ltb self (List.length h)
                 then Item (firstn (py_pop_index z cs) (children (get h self)) ++
                            skipn (S (py_pop_index z cs)) (children (get h self)))
                           (parent (get h self)) (internalMove (get h self))
                 else get h self) = false).
  { destruct (Nat.ltb self (List.length h)); cbn [internalMove]; exact Hf. }
  rewrite F. cbn [negb].
  destruct (with_internalCallback _ _ _) as [h' [a|e]]; reflexivity.
Qed.

Lemma run_RemoveChild_out_of_range (fuel self : nat) (z : Z) (h : heap) :
  let maxIndex := (Z.of_nat (List.length (children (get h self))) - 1)%Z in
  (z < - maxIndex \/ maxIndex < z)%Z ->
  run (S fuel) (RemoveChild self (PosInt z)) h = (h, Raise IndexError).
Proof.
  intros maxIndex Hz. cbn [run]. unfold mbind, get_state, throw. fold maxIndex.
  assert (E : ((- maxIndex <=? z)%Z && (z <=? maxIndex)%Z) = false).
  { apply andb_false_iff. destruct Hz; [left; apply Z.leb_gt|right; apply Z.leb_gt]; lia. }
  now rewrite E.
Qed.

Lemma removeChild_result (h : heap) (self : nat) (z : Z) :
  let cs := children (get h self) in
  let maxIndex := (Z.of_nat (List.length cs) - 1)%Z in
  let i := py_pop_index z cs in
  let popped := nth i cs 0%nat in
  let removed := firstn i cs ++ skipn (S i) cs in
  (- maxIndex <= z <= maxIndex)%Z ->
  internalMove (get h self) = false ->
  parent (get h popped) = Some self ->
  (self < List.length h)%nat -> (popped < List.length h)%nat ->
  exists h',
    removeChild self z h = (h', OK None) /\
    List.length h' = List.length h /\
    forall j, get h' j =
      if Nat.eqb j popped
      then Item (if Nat.eqb popped self then removed else children (get h popped)) None false
      else if Nat.eqb j self
      then Item removed (parent (get h self)) false
      else get h j.
Proof.
  intros cs maxIndex i popped removed Hz Hf Hp Hs Hc.
  unfold removeChild, depth. rewrite (run_RemoveChild _ _ _ _ Hz Hf).
  cbv zeta. fold cs. fold i. fold popped.
  unfold with_internalCallback, upd.
  set (h1 := set_nth self _ h).
  set (h2 := set_nth popped _ h1).
  assert (L1 : List.length h1 = List.length h) by apply length_set_nth.
  rewrite (@run_SetParent_None_moving 1 popped self h2).
  - eexists. split; [reflexivity|]. split.
    + unfold h2. now rewrite !length_set_nth.
    + intros j. unfold h2, h1. rewrite !get_set_nth, !length_set_nth.
      rewrite !Nat.eqb_refl, !(in_range_ltb _ _ Hs), !(in_range_ltb _ _ Hc).
      cbn [andb]. rewrite !andb_true_r.
      destruct (Nat.eqb_spec j popped) as [->|Hj].
      * destruct (Nat.eqb_spec popped self) as [E|Hcs]; cbn [children]; reflexivity.
      * destruct (Nat.eqb_spec j self) as [->|Hjs]; [|reflexivity].
        cbn. now rewrite Hf.
  - unfold h2. rewrite get_set_nth, Nat.eqb_refl. rewrite L1, (in_range_ltb _ _ Hc). reflexivity.
  - unfold h2, h1. rewrite !get_set_nth, !length_set_nth, Nat.eqb_refl, (in_range_ltb _ _ Hc), (in_range_ltb _ _ Hs).
    cbn [andb parent]. rewrite andb_true_r.
    destruct (Nat.eqb_spec popped self) as [E|Hcs]; cbn [parent].
    + rewrite <- E at 1. exact Hp.
    + exact Hp.
Qed.

Lemma run_AddChild_present (fuel self child : nat) (h : heap) :
  validateItem h self child = false ->
  run (S fuel) (AddChild self child) h = (h, OK (Some false)).
Proof.
  intros Hv. cbn [run]. unfold mbind, get_state, ret. now rewrite Hv.
Qed.

Lemma validateItem_spec (h : heap) (self child : nat) :
  validateItem h self child = true <-> ~ In child (children (get h self)).
Proof.
  unfold validateItem. rewrite negb_true_iff, <- mem_In.
  destruct (mem child (children (get h self))); split; congruence.
Qed.

Lemma three_items_linked : settled three_items /\ linked three_items.
Proof.
  split.
  - intros i Hi. unfold three_items, get in *. cbn [List.length] in Hi.
    destruct i as [|[|[|i]]]; try lia; cbn; split; try reflexivity; intros c [].
  - intros p Hp. unfold three_items, get in *. cbn [List.length] in Hp.
    split.
    + destruct p as [|[|[|p]]]; try lia; cbn; constructor.
    + intros c Hc. cbn [List.length] in Hc.
      destruct p as [|[|[|p]]]; try lia; destruct c as [|[|[|c]]]; try lia; cbn;
        split; try contradiction; discriminate.
Qed.

Lemma parent_and_child_linked : settled parent_and_child /\ linked parent_and_child.
Proof.
  split.
  - intros i Hi. unfold parent_and_child, get in *. cbn [List.length] in Hi.
    destruct i as [|[|i]]; try lia; cbn; split; try reflexivity.
    + intros c [<-|[]]. lia.
    + intros c [].
  - intros p Hp. unfold parent_and_child, get in *. cbn [List.length] in Hp.
    split.
    + destruct p as [|[|p]]; try lia; cbn; repeat constructor. intros [].
    + intros c Hc. cbn [List.length] in Hc.
      destruct p as [|[|p]]; try lia; destruct c as [|[|c]]; try lia; cbn; split;
        try contradiction; try discriminate; try reflexivity; try (now left);
        try (intros [H|[]]; discriminate).
Qed.

(** X20: addChild on items that are linked.  In a heap where parent and
    child links agree and no call is under way, adding an item that has no
    parent returns True, puts the item at the end of the child list, makes
    the parent its parent and leaves every other item as it was; the links
    agree again afterwards, and adding the same child once more returns
    False and changes nothing. *)
Theorem addChild_links :
  forall (h : heap) (self child : nat),
    settled h -> linked h ->
    (self < List.length h)%nat -> (child < List.length h)%nat ->
    getParent h child = None ->
    exists h',
      addChild self child h = (h', OK (Some true)) /\
      children (get h' self) = children (get h self) ++ [child] /\
      getParent h' child = Some self /\
      (forall j, j <> self -> j <> child -> get h' j = get h j) /\
      settled h' /\ linked h' /\
      addChild self child h' = (h', OK (Some false)).
Proof.
  intros h self child Hset Hlink Hs Hc Hp. unfold getParent in Hp.
  destruct (Hset self Hs) as [Hf Hrange].
  assert (Hnot : ~ In child (children (get h self))).
  { intros Hin. apply (proj2 (Hlink self Hs)) in Hin; [|exact Hc]. congruence. }
  destruct (@addChild_result h self child (proj2 (validateItem_spec h self child) Hnot)
              Hf Hp Hs Hc) as (h' & Hrun & Hlen & G).
  assert (Gself : children (get h' self) = children (get h self) ++ [child]).
  { rewrite G. destruct (Nat.eqb_spec self child) as [<-|Hne].
    - now rewrite Nat.eqb_refl.
    - now rewrite Nat.eqb_refl. }
  assert (Gchild : get h' child =
            Item (if Nat.eqb child self then children (get h self) ++ [child]
                  else children (get h child)) (Some self) false).
  { rewrite G. now rewrite Nat.eqb_refl. }
  exists h'. split; [exact Hrun|]. split; [exact Gself|].
  split; [unfold getParent; now rewrite Gchild|].
  split.
  { intros j Hj1 Hj2. rewrite G.
    destruct (Nat.eqb_spec j child); [contradiction|].
    destruct (Nat.eqb_spec j self); [contradiction|reflexivity]. }
  split; [|split].
  - intros i Hi. rewrite Hlen in *. rewrite G.
    destruct (Hset i Hi) as [Hfi Hri].
    destruct (Nat.eqb_spec i child) as [->|Hic].
    + cbn [internalMove children]. split; [reflexivity|].
      intros c Hin. destruct (Nat.eqb_spec child self) as [->|Hcs].
      * apply in_app_or in Hin as [Hin|[<-|[]]]; [now apply Hrange|exact Hs].
      * now apply Hri.
    + destruct (Nat.eqb_spec i self) as [->|His].
      * cbn [internalMove children]. split; [reflexivity|].
        intros c Hin. apply in_app_or in Hin as [Hin|[<-|[]]]; [now apply Hrange|exact Hc].
      * split; [exact Hfi|exact Hri].
  - intros p Hpl. rewrite Hlen in *.
    destruct (Hlink p Hpl) as [Hnd Hl].
    assert (Cp : children (get h' p) =
                 if Nat.eqb p self then children (get h self) ++ [child]
                 else children (get h p)).
    { rewrite G. destruct (Nat.eqb_spec p child) as [->|Hpc].
      - destruct (Nat.eqb_spec child self); reflexivity.
      - destruct (Nat.eqb_spec p self); reflexivity. }
    split.
    + rewrite Cp. destruct (Nat.eqb_spec p self) as [->|Hps]; [|exact Hnd].
      now apply NoDup_snoc.
    + intros c Hcl.
      assert (Pc : parent (get h' c) =
                   if Nat.eqb c child then Some self else parent (get h c)).
      { rewrite G. destruct (Nat.eqb_spec c child) as [->|Hcc]; [reflexivity|].
        destruct (Nat.eqb_spec c self) as [->|]; reflexivity. }
      rewrite Cp, Pc.
      destruct (Nat.eqb_spec c child) as [->|Hcc].
      * destruct (Nat.eqb_spec p self) as [->|Hps].
        -- split; [reflexivity|]. intros _. apply in_or_app. right. now left.
        -- rewrite (Hl child Hc). rewrite Hp. split; [discriminate|].
           intros E. injection E as E. congruence.
      * destruct (Nat.eqb_spec p self) as [->|Hps]; [|now apply Hl].
        rewrite <- (Hl c Hcl). split.
        -- intros Hin. apply in_app_or in Hin as [Hin|[E|[]]]; [exact Hin|congruence].
        -- intros Hin. apply in_or_app. now left.
  - unfold addChild, depth. apply run_AddChild_present.
    destruct (validateItem h' self child) eqn:E; [|reflexivity].
    apply validateItem_spec in E. exfalso. apply E. rewrite Gself.
    apply in_or_app. right. now left.
Qed.

Lemma addChild_links_witness :
  exists h',
    addChild 0 2 three_items = (h', OK (Some true)) /\
    children (get h' 0) = [2%nat] /\ getParent h' 2 = Some 0%nat.
Proof.
  destruct (@addChild_links three_items 0%nat 2%nat
              (proj1 three_items_linked) (proj2 three_items_linked))
    as (h' & H1 & H2 & H3 & _); [cbn; lia|cbn; lia|reflexivity|].
  exists h'. split; [exact H1|]. split; [exact H2|exact H3].
Defined.

Lemma pop_index_in_range (z : Z) (l : list nat) :
  (- (Z.of_nat (List.length l) - 1) <= z <= Z.of_nat (List.length l) - 1)%Z ->
  (py_pop_index z l < List.length l)%nat.
Proof.
  intros Hz. unfold py_pop_index. destruct (z <? 0)%Z eqn:E.
  - apply Z.ltb_lt in E. lia.
  - apply Z.ltb_ge in E. lia.
Qed.

(** X21: removeChild on items that are linked.  For a position within
    -(count-1) .. count-1 the child at that position (counted from the end
    when negative) is taken out of the list and loses its parent, every
    other item stays as it was and the links agree afterwards.  For any
    other position IndexError is raised and nothing changes: this includes
    -count, which a Python list takes for its first element, so that the
    only child of an item cannot be removed as position -1. *)
Theorem removeChild_unlinks :
  forall (h : heap) (self : nat) (pos : Z),
    settled h -> linked h -> (self < List.length h)%nat ->
    let cs := children (get h self) in
    let maxIndex := (Z.of_nat (childCount h self) - 1)%Z in
    let i := py_pop_index pos cs in
    ((- maxIndex <= pos <= maxIndex)%Z ->
       exists h',
         removeChild self pos h = (h', OK None) /\
         children (get h' self) = firstn i cs ++ skipn (S i) cs /\
         ~ In (nth i cs 0%nat) (children (get h' self)) /\
         getParent h' (nth i cs 0%nat) = None /\
         (forall j, j <> self -> j <> nth i cs 0%nat -> get h' j = get h j) /\
         settled h' /\ linked h') /\
    ((pos < - maxIndex \/ maxIndex < pos)%Z ->
       removeChild self pos h = (h, Raise IndexError)).
Proof.
  intros h self pos Hset Hlink Hs cs maxIndex i. unfold childCount in maxIndex.
  fold cs in maxIndex. split.
  - intros Hz.
    destruct (Hset self Hs) as [Hf Hrange]. destruct (Hlink self Hs) as [Hnd Hl].
    fold cs in Hrange, Hnd, Hl.
    assert (Hi : (i < List.length cs)%nat) by (apply pop_index_in_range; exact Hz).
    set (popped := nth i cs 0%nat).
    assert (Hin : In popped cs) by (apply nth_In; exact Hi).
    assert (Hc : (popped < List.length h)%nat) by now apply Hrange.
    assert (Hp : parent (get h popped) = Some self) by now apply Hl.
    destruct (@removeChild_result h self pos Hz Hf Hp Hs Hc) as (h' & Hrun & Hlen & G).
    fold cs in G. fold i in G. fold popped in G.
    set (removed := firstn i cs ++ skipn (S i) cs) in *.
    assert (Gself : children (get h' self) = removed).
    { rewrite G. destruct (Nat.eqb_spec self popped) as [<-|Hne].
      - now rewrite Nat.eqb_refl.
      - now rewrite Nat.eqb_refl. }
    assert (Hgone : ~ In popped removed).
    { intros H. apply (@In_without i popped cs Hnd Hi) in H as [_ H]. now apply H. }
    exists h'. split; [exact Hrun|]. split; [exact Gself|].
    split; [now rewrite Gself|].
    split; [unfold getParent; rewrite G; now rewrite Nat.eqb_refl|].
    split.
    { intros j Hj1 Hj2. rewrite G.
      destruct (Nat.eqb_spec j popped); [contradiction|].
      destruct (Nat.eqb_spec j self); [contradiction|reflexivity]. }
    assert (Hsub : forall c, In c removed -> In c cs).
    { intros c H. now apply (@In_without i c cs Hnd Hi) in H as [H _]. }
    split.
    + intros k Hk. rewrite Hlen in *. rewrite G.
      destruct (Hset k Hk) as [Hfk Hrk].
      destruct (Nat.eqb_spec k popped) as [->|Hkp].
      * cbn [internalMove children]. split; [reflexivity|].
        intros c Hc'. destruct (Nat.eqb_spec popped self) as [E|Hne].
        -- apply Hrange. now apply Hsub.
        -- now apply Hrk.
      * destruct (Nat.eqb_spec k self) as [->|Hks].
        -- cbn [internalMove children]. split; [reflexivity|].
           intros c Hc'. apply Hrange. now apply Hsub.
        -- split; [exact Hfk|exact Hrk].
    + intros p Hpl. rewrite Hlen in *.
      destruct (Hlink p Hpl) as [Hndp Hlp].
      assert (Cp : children (get h' p) =
                   if Nat.eqb p self then removed else children (get h p)).
      { rewrite G. destruct (Nat.eqb_spec p popped) as [->|Hpc].
        - destruct (Nat.eqb_spec popped self); reflexivity.
        - destruct (Nat.eqb_spec p self); reflexivity. }
      split.
      * rewrite Cp. destruct (Nat.eqb_spec p self) as [->|Hps]; [|exact Hndp].
        now apply NoDup_without.
      * intros c Hcl.
        assert (Pc : parent (get h' c) =
                     if Nat.eqb c popped then None else parent (get h c)).
        { rewrite G. destruct (Nat.eqb_spec c popped) as [->|Hcc]; [reflexivity|].
          destruct (Nat.eqb_spec c self) as [->|]; reflexivity. }
        rewrite Cp, Pc.
        destruct (Nat.eqb_spec c popped) as [->|Hcc].
        -- destruct (Nat.eqb_spec p self) as [->|Hps].
           ++ split; [intros H; contradiction|discriminate].
           ++ rewrite (Hlp popped Hc). rewrite Hp. split; [|discriminate].
              intros E. injection E as E. congruence.
        -- destruct (Nat.eqb_spec p self) as [->|Hps]; [|now apply Hlp].
           rewrite <- (Hl c Hcl). unfold removed. rewrite (@In_without i c cs Hnd Hi). fold popped.
           split; [now intros [H _]|]. intros H. now split.
  - intros Hz. unfold removeChild, depth. now apply run_RemoveChild_out_of_range.
Qed.

Lemma removeChild_unlinks_witness :
  (exists h', removeChild 0 0 parent_and_child = (h', OK None) /\
              getParent h' 1 = None) /\
  removeChild 0 (-1) parent_and_child = (parent_and_child, Raise IndexError).
Proof.
  destruct (@removeChild_unlinks parent_and_child 0%nat 0%Z
              (proj1 parent_and_child_linked) (proj2 parent_and_child_linked))
    as [Hin _]; [cbn; lia|].
  destruct (@removeChild_unlinks parent_and_child 0%nat (-1)%Z
              (proj1 parent_and_child_linked) (proj2 parent_and_child_linked))
    as [_ Hout]; [cbn; lia|].
  split.
  - destruct Hin as (h' & H1 & _ & _ & H2 & _); [cbn; lia|].
    exists h'. split; [exact H1|exact H2].
  - apply Hout. cbn. lia.
Defined.

Lemma snoc_without_last (x : nat) (l : list nat) :
  firstn (List.length l) (l ++ [x]) ++ skipn (S (List.length l)) (l ++ [x]) = l.
Proof.
  rewrite firstn_app, Nat.sub_diag, firstn_all. cbn [firstn]. rewrite app_nil_r.
  rewrite skipn_all2; [apply app_nil_r|]. rewrite length_app. cbn [List.length]. lia.
Qed.

Lemma item_eta (it : item) : Item (children it) (parent it) (internalMove it) = it.
Proof. now destruct it. Qed.

(** X22: removeChild undoes addChild.  After an item without parent was
    added to linked items, getChild at the former child count returns it,
    and removing that position gives back the items exactly as they were
    before the addition. *)
Theorem addChild_then_removeChild :
  forall (h : heap) (self child : nat),
    settled h -> linked h ->
    (self < List.length h)%nat -> (child < List.length h)%nat ->
    getParent h child = None ->
    exists h',
      addChild self child h = (h', OK (Some true)) /\
      getChild h' self (Z.of_nat (childCount h self)) = Some child /\
      removeChild self (Z.of_nat (childCount h self)) h' = (h, OK None).
Proof.
  intros h self child Hset Hlink Hs Hc Hp. unfold getParent in Hp.
  destruct (Hset self Hs) as [Hf Hrange]. destruct (Hset child Hc) as [Hfc _].
  assert (Hnot : ~ In child (children (get h self))).
  { intros Hin. apply (proj2 (Hlink self Hs)) in Hin; [|exact Hc]. congruence. }
  destruct (@addChild_result h self child (proj2 (validateItem_spec h self child) Hnot)
              Hf Hp Hs Hc) as (h' & Hrun & Hlen & G).
  unfold childCount. set (cs := children (get h self)) in *.
  set (n := List.length cs).
  assert (Gself : children (get h' self) = cs ++ [child]).
  { rewrite G. destruct (Nat.eqb_spec self child) as [<-|Hne].
    - now rewrite Nat.eqb_refl.
    - now rewrite Nat.eqb_refl. }
  assert (Hpop : py_pop_index (Z.of_nat n) (cs ++ [child]) = n).
  { unfold py_pop_index. destruct (Z.of_nat n <? 0)%Z eqn:E; [apply Z.ltb_lt in E; lia|].
    apply Nat2Z.id. }
  assert (Hnth : nth n (cs ++ [child]) 0%nat = child).
  { unfold n. rewrite app_nth2, Nat.sub_diag by lia. reflexivity. }
  exists h'. split; [exact Hrun|]. split.
  - unfold getChild, childCount. rewrite Gself, length_app. cbn [List.length]. fold n.
    assert (E : ((- (Z.of_nat (n + 1) - 1) <=? Z.of_nat n)%Z &&
                 (Z.of_nat n <=? Z.of_nat (n + 1) - 1)%Z) = true).
    { apply andb_true_intro. split; apply Z.leb_le; lia. }
    rewrite E. cbn [negb]. unfold py_nth.
    destruct (Z.of_nat n <? 0)%Z eqn:E0; [apply Z.ltb_lt in E0; lia|].
    rewrite Nat2Z.id. unfold n. rewrite nth_error_app2, Nat.sub_diag by lia. reflexivity.
  - pose proof (@removeChild_result h' self (Z.of_nat n)) as R. cbv zeta in R.
    assert (Hrem : firstn n (cs ++ [child]) ++ skipn (S n) (cs ++ [child]) = cs)
      by apply snoc_without_last.
    rewrite Gself, Hpop, Hnth in R. rewrite !Hrem in R.
    rewrite length_app in R. cbn [List.length] in R.
    fold n in R. rewrite Hlen in R.
    destruct R as (h2 & Hrun2 & Hlen2 & G2).
    + lia.
    + rewrite G. destruct (Nat.eqb_spec self child); [reflexivity|].
      now rewrite Nat.eqb_refl.
    + rewrite G. now rewrite Nat.eqb_refl.
    + exact Hs.
    + exact Hc.
    + rewrite Hrun2. f_equal.
      apply (nth_ext h2 h new_item new_item); [congruence|].
      intros j Hj. change (get h2 j = get h j). rewrite G2.
      destruct (Nat.eqb_spec j child) as [->|Hjc].
      * destruct (Nat.eqb_spec child self) as [->|Hcs].
        -- rewrite <- Hp, <- Hf. unfold cs. apply item_eta.
        -- rewrite G. rewrite Nat.eqb_refl.
           destruct (Nat.eqb_spec child self); [contradiction|]. cbn [children].
           rewrite <- Hp, <- Hfc. apply item_eta.
      * destruct (Nat.eqb_spec j self) as [->|Hjs].
        -- rewrite G. destruct (Nat.eqb_spec self child); [congruence|].
           rewrite Nat.eqb_refl. cbn [parent]. rewrite <- Hf. unfold cs. apply item_eta.
        -- rewrite G. destruct (Nat.eqb_spec j child); [contradiction|].
           destruct (Nat.eqb_spec j self); [contradiction|reflexivity].
Qed.

Lemma addChild_then_removeChild_witness :
  exists h',
    addChild 0 2 three_items = (h', OK (Some true)) /\
    removeChild 0 0 h' = (three_items, OK None).
Proof.
  destruct (@addChild_then_removeChild three_items 0%nat 2%nat
              (proj1 three_items_linked) (proj2 three_items_linked))
    as (h' & H1 & _ & H2); [cbn; lia|cbn; lia|reflexivity|].
  exists h'. split; [exact H1|exact H2].
Defined.

Lemma keeps_ret (X : Type) (a : X) (h : heap) : no_repeat h -> keeps_no_repeat (ret a) h.
Proof. intros H. split; [exact H|reflexivity]. Qed.

Lemma keeps_throw (X : Type) (e : exn) (h : heap) :
  no_repeat h -> keeps_no_repeat (@throw heap X e) h.
Proof. intros H. split; [exact H|reflexivity]. Qed.

Lemma keeps_bind (X Y : Type) (m : M heap X) (k : X -> M heap Y) (h : heap) :
  keeps_no_repeat m h ->
  (forall a, no_repeat (fst (m h)) -> keeps_no_repeat (k a) (fst (m h))) ->
  keeps_no_repeat (mbind m k) h.
Proof.
  intros [Hn Hl] Hk. unfold keeps_no_repeat, mbind in *.
  destruct (m h) as [s' [a|e]]; cbn [fst] in *.
  - destruct (Hk a Hn) as [H1 H2]. split; [exact H1|congruence].
  - now split.
Qed.

Lemma keeps_read (Y : Type) (k : heap -> M heap Y) (h : heap) :
  keeps_no_repeat (k h) h -> keeps_no_repeat (mbind get_state k) h.
Proof. intros H. exact H. Qed.

Lemma no_repeat_set_nth (i : nat) (f : item -> item) (h : heap) :
  no_repeat h -> NoDup (children (f (get h i))) -> no_repeat (set_nth i f h).
Proof.
  intros Hn Hf p. rewrite get_set_nth.
  destruct (Nat.eqb p i && Nat.ltb i (List.length h)); [exact Hf|apply Hn].
Qed.

Lemma keeps_upd (i : nat) (f : item -> item) (h : heap) :
  no_repeat h -> NoDup (children (f (get h i))) -> keeps_no_repeat (upd i f) h.
Proof.
  intros Hn Hf. split; cbn [upd fst]; [now apply no_repeat_set_nth|apply length_set_nth].
Qed.

Lemma keeps_with (X : Type) (i : nat) (body : M heap X) (h : heap) :
  no_repeat h ->
  (forall h1, no_repeat h1 -> List.length h1 = List.length h -> keeps_no_repeat body h1) ->
  keeps_no_repeat (with_internalCallback i body) h.
Proof.
  intros Hn Hb. unfold keeps_no_repeat, with_internalCallback, upd.
  set (h1 := set_nth i _ h).
  assert (N1 : no_repeat h1) by (apply no_repeat_set_nth; [exact Hn|apply Hn]).
  assert (L1 : List.length h1 = List.length h) by apply length_set_nth.
  destruct (Hb h1 N1 L1) as [N2 L2]. destruct (body h1) as [h2 r]. cbn [fst] in *.
  split.
  - apply no_repeat_set_nth; [exact N2|apply N2].
  - rewrite length_set_nth. congruence.
Qed.

Lemma NoDup_py_insert (z : Z) (x : nat) (l : list nat) :
  NoDup l -> ~ In x l -> NoDup (py_insert z x l).
Proof.
  intros Hl Hx. unfold py_insert.
  set (k := Z.to_nat _).
  apply (NoDup_Add (Add_app x (firstn k l) (skipn k l))).
  rewrite firstn_skipn. now split.
Qed.

(** Every method keeps the child lists free of repetitions, at every
    depth of calls. *)
Lemma run_keeps_no_repeat :
  forall (fuel : nat) (c : call) (h : heap),
    no_repeat h -> keeps_no_repeat (run fuel c) h.
Proof.
  induction fuel as [|fuel IH]; intros c h Hn; [now apply keeps_throw|].
  destruct c as [self child|self pos child|self new_parent|self pos]; cbn [run].
  - apply keeps_read.
    destruct (validateItem h self child) eqn:Hv; cbn [negb]; [|now apply keeps_ret].
    apply validateItem_spec in Hv.
    apply keeps_bind.
    + apply keeps_upd; [exact Hn|]. cbn [children]. now apply NoDup_snoc.
    + intros _ Hn1. apply keeps_read.
      destruct (negb (internalMove (get (fst (upd self _ h)) self)));
        [|now apply keeps_ret].
      apply keeps_with; [exact Hn1|]. intros h1 N1 _. now apply IH.
  - apply keeps_read.
    destruct (validateItem h self child) eqn:Hv; cbn [negb]; [|now apply keeps_ret].
    apply validateItem_spec in Hv.
    apply keeps_bind.
    + destruct pos as [|z|i]; [now apply keeps_ret| |now apply keeps_throw].
      now apply keeps_ret.
    + intros place Hn0.
      assert (E : fst (match pos with
                       | PosNone => ret None
                       | PosInt z =>
                           ret (if (Z.of_nat (List.length (children (get h self))) <=? z)%Z
                                then None else Some z)
                       | PosItem _ => throw TypeError
                       end h) = h) by (destruct pos; reflexivity).
      rewrite E in *. clear E.
      apply keeps_bind.
      * apply keeps_upd; [exact Hn|]. cbn [children].
        destruct place as [z|]; [now apply NoDup_py_insert|now apply NoDup_snoc].
      * intros _ Hn1. apply keeps_read. apply keeps_bind.
        -- destruct (negb (option_nat_eqb _ _)); [|now apply keeps_ret].
           apply keeps_with; [exact Hn1|]. intros h1 N1 _. now apply IH.
        -- intros _ Hn2. now apply keeps_ret.
  - apply keeps_read.
    destruct (option_nat_eqb (parent (get h self)) new_parent); [now apply keeps_ret|].
    destruct new_parent as [p|].
    + destruct (internalMove (get h self)).
      * apply keeps_bind; [apply keeps_upd; [exact Hn|apply Hn]|].
        intros _ Hn1. now apply keeps_ret.
      * apply keeps_with; [exact Hn|]. intros h1 N1 _.
        apply keeps_bind; [now apply IH|].
        intros added Hn2. destruct added as [[|]|]; try now apply keeps_ret.
        apply keeps_bind; [apply keeps_upd; [exact Hn2|apply Hn2]|].
        intros _ Hn3. now apply keeps_ret.
    + destruct (parent (get h self)) as [current|]; [|now apply keeps_ret].
      apply keeps_bind; [apply keeps_upd; [exact Hn|apply Hn]|].
      intros _ Hn1. apply keeps_read. apply keeps_bind.
      * destruct (negb (internalMove _)); [now apply IH|now apply keeps_ret].
      * intros _ Hn2. now apply keeps_ret.
  - apply keeps_read. destruct pos as [|z|i]; try now apply keeps_throw.
    destruct (negb _); [now apply keeps_throw|].
    apply keeps_bind.
    + apply keeps_upd; [exact Hn|]. cbn [children]. apply NoDup_without. apply Hn.
    + intros _ Hn1. apply keeps_read. apply keeps_bind.
      * destruct (negb (internalMove _)); [|now apply keeps_ret].
        apply keeps_with; [exact Hn1|]. intros h1 N1 _. now apply IH.
      * intros _ Hn2. now apply keeps_ret.
Qed.

(** X23: no sequence of calls of addChild, insertChild, setParent and
    removeChild, whatever their arguments and whether they return or raise,
    lists an item twice among the children of one parent (when no item did
    before), and the number of items stays the same. *)
Theorem calls_never_repeat_a_child :
  forall (calls : list call) (h : heap),
    no_repeat h ->
    no_repeat (fst (run_all calls h)) /\
    List.length (fst (run_all calls h)) = List.length h.
Proof.
  induction calls as [|c calls IH]; intros h Hn.
  - split; [exact Hn|reflexivity].
  - cbn [run_all].
    apply (@keeps_bind _ _ (run depth c) (fun _ => run_all calls) h).
    + now apply run_keeps_no_repeat.
    + intros _ Hn1. now apply IH.
Qed.

Lemma calls_never_repeat_a_child_witness :
  no_repeat (fst (run_all [AddChild 0 2; SetParent 2 (Some 1%nat); AddChild 1 2;
                            InsertChild 0 (PosInt 0) 2]%nat three_items)).
Proof.
  apply calls_never_repeat_a_child.
  intros p. unfold three_items, get.
  destruct p as [|[|[|p]]]; cbn; try constructor. destruct p; constructor.
Defined.

(** X24: getChild never raises.  It returns the child at the position
    for positions 0 .. count-1 and, counted from the end, for positions
    -(count-1) .. -1; for every other position it returns None, also for
    -count; what it returns is one of the children. *)
Theorem getChild_bounds :
  forall (h : heap) (self : nat) (pos : Z),
    let cs := children (get h self) in
    let n := Z.of_nat (childCount h self) in
    ((0 <= pos < n)%Z ->
       getChild h self pos = Some (nth (Z.to_nat pos) cs 0%nat)) /\
    ((- (n - 1) <= pos < 0)%Z ->
       getChild h self pos = Some (nth (Z.to_nat (n + pos)) cs 0%nat)) /\
    ((pos < - (n - 1) \/ n - 1 < pos)%Z -> getChild h self pos = None) /\
    (forall c, getChild h self pos = Some c -> In c cs).
Proof.
  intros h self pos cs n. unfold getChild. cbv zeta. fold n. unfold childCount in n.
  fold cs in n. fold cs.
  assert (A : (0 <= pos < n)%Z ->
              (if negb ((- (n - 1) <=? pos)%Z && (pos <=? n - 1)%Z) then None
               else py_nth cs pos) = Some (nth (Z.to_nat pos) cs 0%nat)).
  { intros Hp.
    assert (E : ((- (n - 1) <=? pos)%Z && (pos <=? n - 1)%Z) = true).
    { apply andb_true_intro. split; apply Z.leb_le; lia. }
    rewrite E. cbn [negb]. unfold py_nth.
    destruct (pos <? 0)%Z eqn:E0; [apply Z.ltb_lt in E0; lia|].
    apply nth_error_nth'. unfold n in Hp. lia. }
  assert (B : (- (n - 1) <= pos < 0)%Z ->
              (if negb ((- (n - 1) <=? pos)%Z && (pos <=? n - 1)%Z) then None
               else py_nth cs pos) = Some (nth (Z.to_nat (n + pos)) cs 0%nat)).
  { intros Hp.
    assert (E : ((- (n - 1) <=? pos)%Z && (pos <=? n - 1)%Z) = true).
    { apply andb_true_intro. split; apply Z.leb_le; lia. }
    rewrite E. cbn [negb]. unfold py_nth. fold n.
    destruct (pos <? 0)%Z eqn:E0; [|apply Z.ltb_ge in E0; lia].
    destruct (pos <? - n)%Z eqn:E1; [apply Z.ltb_lt in E1; lia|].
    apply nth_error_nth'. unfold n in *. lia. }
  assert (C : (pos < - (n - 1) \/ n - 1 < pos)%Z ->
              (if negb ((- (n - 1) <=? pos)%Z && (pos <=? n - 1)%Z) then None
               else py_nth cs pos) = None).
  { intros Hp.
    assert (E : ((- (n - 1) <=? pos)%Z && (pos <=? n - 1)%Z) = false).
    { apply andb_false_iff. destruct Hp; [left|right]; apply Z.leb_gt; lia. }
    now rewrite E. }
  split; [exact A|]. split; [exact B|]. split; [exact C|].
  intros c Hc.
  destruct (Z_lt_le_dec pos (- (n - 1))) as [H1|H1]; [rewrite C in Hc by lia; discriminate|].
  destruct (Z_lt_le_dec (n - 1) pos) as [H2|H2]; [rewrite C in Hc by lia; discriminate|].
  destruct (Z_lt_le_dec pos 0) as [H3|H3].
  - rewrite B in Hc by lia. injection Hc as <-. apply nth_In. unfold n in *. lia.
  - rewrite A in Hc by lia. injection Hc as <-. apply nth_In. unfold n in *. lia.
Qed.

Lemma getChild_bounds_witness :
  getChild parent_and_child 0 0 = Some 1%nat /\
  getChild parent_and_child 0 (-1) = None.
Proof.
  destruct (getChild_bounds parent_and_child 0%nat 0%Z) as (H1 & _).
  destruct (getChild_bounds parent_and_child 0%nat (-1)%Z) as (_ & _ & H2 & _).
  split; [apply H1; cbn; lia|apply H2; cbn; lia].
Defined.

End TreeFacts.

Set Implicit Arguments.

(* ================================================================== *)
(** * AbstractItemModel: headers *)
(* ================================================================== *)

Unset Implicit Arguments.

Lemma od_set_keys (V : Type) (k : string) (v : V) (d : list (string * V)) :
  map fst (od_set String.eqb k v d) =
  if str_mem k (map fst d) then map fst d else map fst d ++ [k].
Proof.
  induction d as [|[k' v'] d IH]; cbn [od_set map fst str_mem]; [reflexivity|].
  destruct (String.eqb k k') eqn:E; cbn [map fst orb]; [reflexivity|].
  rewrite IH. destruct (str_mem k (map fst d)); reflexivity.
Qed.

Lemma names_fold_keys (names : list string) (acc : list (string * option string)) :
  NoDup (map fst acc) ->
  let data := fold_left (fun d name => od_set String.eqb name (@None string) d) names acc in
  NoDup (map fst data) /\
  (forall x, In x (map fst data) <-> In x (map fst acc) \/ In x names) /\
  (forall x v, In (x, v) data -> In (x, v) acc \/ v = None).
Proof.
  revert acc. induction names as [|name names IH]; intros acc Hnd; cbn [fold_left].
  - split; [exact Hnd|]. split; [|intros; now left].
    intros x. split; [now left|intros [H|[]]; exact H].
  - assert (Hnd' : NoDup (map fst (od_set String.eqb name (@None string) acc))).
    { rewrite od_set_keys. destruct (str_mem name (map fst acc)) eqn:E; [exact Hnd|].
      apply NoDup_Add with (a := name) (l := map fst acc).
      - rewrite <- (app_nil_r (map fst acc)) at 1.
        change [name] with (name :: []). apply Add_app.
      - split; [exact Hnd|]. intros Hin. apply str_mem_In in Hin. congruence. }
    destruct (IH _ Hnd') as (H1 & H2 & H3). split; [exact H1|]. split.
    + intros x. rewrite H2, od_set_keys.
      destruct (str_mem name (map fst acc)) eqn:E.
      * apply str_mem_In in E. cbn [In]. split.
        -- intros [H|H]; [now left|right; now right].
        -- intros [H|[<-|H]]; [now left|now left|now right].
      * rewrite in_app_iff. cbn [In]. split.
        -- intros [[H|[<-|[]]]|H]; [now left|right; now left|right; now right].
        -- intros [H|[<-|H]]; [left; now left|left; right; now left|now right].
    + intros x v Hin. destruct (H3 x v Hin) as [H|H]; [|now right].
      clear - H. induction acc as [|[k' v'] acc IHa]; cbn [od_set] in H.
      * destruct H as [H|[]]. injection H as _ <-. now right.
      * destruct (String.eqb name k') eqn:E.
        -- destruct H as [H|H]; [injection H as _ <-; now right|left; now right].
        -- destruct H as [H|H]; [left; now left|].
           destruct (IHa H) as [H'|H']; [left; now right|now right].
Qed.

Lemma names_fold_id (names : list string) (acc : list (string * option string)) :
  NoDup (map fst acc ++ names) ->
  map fst (fold_left (fun d name => od_set String.eqb name (@None string) d) names acc) =
  map fst acc ++ names.
Proof.
  revert acc. induction names as [|name names IH]; intros acc Hnd; cbn [fold_left].
  - now rewrite app_nil_r.
  - assert (E : str_mem name (map fst acc) = false).
    { destruct (str_mem name (map fst acc)) eqn:E; [|reflexivity].
      apply str_mem_In in E. apply NoDup_remove_2 in Hnd. exfalso. apply Hnd.
      apply in_or_app. now left. }
    assert (K : map fst (od_set String.eqb name (@None string) acc) = map fst acc ++ [name]).
    { now rewrite od_set_keys, E. }
    rewrite IH; rewrite K, <- app_assoc; [reflexivity|exact Hnd].
Qed.




(** X25: setHeaders with a list or tuple of names.  The columns are the
    names in the order of their first occurrence, each once: a name given
    twice makes one column, so there are at most as many columns as names,
    and a list without repetition is taken as it is.  No column is renamed,
    and the cache starts empty. *)
Theorem setHeaders_columns :
  forall names : list string,
    let m := setHeaders_names names in
    NoDup (hm_headers m) /\
    (forall x, In x (hm_headers m) <-> In x names) /\
    (columnCount m <= List.length names)%nat /\
    (NoDup names -> hm_headers m = names) /\
    (forall header headerMap,
       assoc_find header (hm_headerData m) = Some headerMap -> headerMap = None) /\
    headers_ok m.
Proof.
  intros names m. unfold m, setHeaders_names. cbn [hm_headers hm_headerData].
  destruct (@names_fold_keys names [] (NoDup_nil _)) as (H1 & H2 & H3). cbv zeta in *.
  set (data := fold_left _ names []) in *.
  split; [exact H1|]. split.
  - intros x. rewrite H2. cbn [map In]. tauto.
  - split.
    + unfold columnCount. cbn [hm_headers].
      apply NoDup_incl_length; [exact H1|]. intros x Hx. apply H2 in Hx as [[]|Hx]. exact Hx.
    + split; [intros Hnd; apply (@names_fold_id names []); exact Hnd|]. split.
      * intros header headerMap Hfind.
        assert (Hin : In (header, headerMap) data).
        { clear - Hfind. induction data as [|[k v] d IH]; [discriminate|].
          cbn [assoc_find] in Hfind. destruct (String.eqb_spec header k) as [->|Hne].
          - injection Hfind as ->. now left.
          - right. now apply IH. }
        destruct (H3 _ _ Hin) as [[]|H]. exact H.
      * split; [reflexivity|]. intros header name H. discriminate.
Qed.

Lemma setHeaders_columns_witness :
  hm_headers (setHeaders_names ["name"; "size"]%string) = ["name"; "size"]%string.
Proof.
  destruct (setHeaders_columns ["name"; "size"]%string) as (_ & _ & _ & H & _).
  apply H. repeat constructor; cbn; intuition discriminate.
Defined.




Set Implicit Arguments.
